(** * mesh-level.py: probing log to RepRapFirmware heightmap

    A shallow embedding of [mesh-level.py] and the properties of its
    argument handling, grid-resolution selection, sample aggregation,
    interpolation call and heightmap formatting.

    Python values are modelled as follows.
    - [int] is [Z] (unbounded); the conversions between [int] and [str]
      raise [ValueError] beyond 4300 digits, as in CPython 3.11.
    - [str] is [string]; arguments and log lines are ASCII.
    - [float] is a carrier [F] with the operations of the class [PyFloat];
      the embedding is generic in it, and what a theorem needs of the
      arithmetic is stated as a law ([PyFloatEq], [PyFloatOrder]).  Two
      arithmetics implement the class: exact rationals ([QFloat]) and
      rationals with the quotients of ints rounded to the nearest double
      ([Binary64]), for which the laws of [PyFloatOrder] are proved.  The
      range of a double is part of the model: [a / b] on ints raises
      [OverflowError] when the quotient rounds to a magnitude of [2**1024]
      or more.
    - an exception is a value of [exn]; fallible pure code lives in the
      error monad [res], code that talks to the outside world (files, the
      clock, scipy) lives in [prog], a tree of external calls.
    - the insertion-ordered [dict] of [parseProbedPoints] is an association
      list searched with Python's [==] on the keys. *)

From Stdlib Require Import ZArith List String Ascii Bool Lia QArith Qround.
From Stdlib Require Import Qpower Lqa.
From Stdlib Require Import DecimalString DecimalPos.
Import ListNotations.

Local Open Scope string_scope.
Local Open Scope list_scope.
Local Open Scope Z_scope.

(* ===================================================================== *)
(** * Fragments of the Python runtime *)
(* ===================================================================== *)

Module Py.

(** Exceptions that the script or the runtime under it can raise. *)
Inductive exn : Type :=
| ArgumentTypeError
| SystemExit (code : Z)
| ValueError
| KeyError
| ZeroDivisionError
| OverflowError
| RuntimeError (what : string).

(** Result of a fallible computation. *)
Inductive res (A : Type) : Type :=
| Ok (a : A)
| Raise (e : exn).
Arguments Ok {A} a.
Arguments Raise {A} e.

Definition bind {A B : Type} (m : res A) (k : A -> res B) : res B :=
  match m with
  | Ok a => k a
  | Raise e => Raise e
  end.

Fixpoint foldM {A S : Type} (f : S -> A -> res S) (l : list A) (s : S) : res S :=
  match l with
  | [] => Ok s
  | a :: r => bind (f s a) (foldM f r)
  end.

Fixpoint mapM {A B : Type} (f : A -> res B) (l : list A) : res (list B) :=
  match l with
  | [] => Ok []
  | a :: r => bind (f a) (fun b => bind (mapM f r) (fun bs => Ok (b :: bs)))
  end.

(** [while cond: body], run for at most [fuel] tests of the guard.
    [None] means the fuel ran out before the guard became false. *)
Fixpoint while {S : Type} (fuel : nat) (cond : S -> bool) (body : S -> res S)
  (s : S) : option (res S) :=
  match fuel with
  | O => None
  | Datatypes.S n =>
      if cond s then
        match body s with
        | Ok s' => while n cond body s'
        | Raise e => Some (Raise e)
        end
      else Some (Ok s)
  end.

(** ** Strings *)

Definition is_digit (c : ascii) : bool :=
  let n := nat_of_ascii c in ((48 <=? n) && (n <=? 57))%nat.

Definition digit_value (c : ascii) : Z := Z.of_nat (nat_of_ascii c) - 48.

(** The blanks that [int] strips from ASCII text: tab, line feed, vertical
    tab, form feed, carriage return and space. *)
Definition is_space (c : ascii) : bool :=
  let n := nat_of_ascii c in
  (((9 <=? n) && (n <=? 13)) || (n =? 32))%nat.

Fixpoint lstrip (s : string) : string :=
  match s with
  | String c r => if is_space c then lstrip r else s
  | EmptyString => EmptyString
  end.

Fixpoint all_space (s : string) : bool :=
  match s with
  | String c r => is_space c && all_space r
  | EmptyString => true
  end.

(** [s.startswith(p)] *)
Definition startswith (s p : string) : bool := String.prefix p s.

(** [s[n:]] *)
Fixpoint drop (n : nat) (s : string) : string :=
  match n, s with
  | O, _ => s
  | Datatypes.S m, String _ r => drop m r
  | Datatypes.S _, EmptyString => EmptyString
  end.

(** [s.split(sep)] for a one-character separator. *)
Fixpoint split (sep : ascii) (s : string) : list string :=
  match s with
  | EmptyString => [EmptyString]
  | String c r =>
      if Ascii.eqb c sep then EmptyString :: split sep r
      else match split sep r with
           | h :: t => String c h :: t
           | [] => [String c EmptyString]
           end
  end.

(** [sep.join(l)] *)
Definition join (sep : string) (l : list string) : string := String.concat sep l.

(** The decimal text of an int: what [str(n)] returns when it returns. *)
Definition str_int (n : Z) : string := NilZero.string_of_int (Z.to_int n).

(** The number of decimal digits in a text. *)
Fixpoint count_digits (s : string) : Z :=
  match s with
  | String c r => (if is_digit c then 1 else 0) + count_digits r
  | EmptyString => 0
  end.

(** [sys.int_info.default_max_str_digits]: the conversions between [int]
    and [str] raise [ValueError] beyond this number of digits. *)
Definition max_str_digits : Z := 4300.

(** [str(n)] for an int. *)
Definition py_str_int (n : Z) : res string :=
  let text := str_int n in
  if count_digits text <=? max_str_digits then Ok text else Raise ValueError.

(** ** [int(s)] on a string, base 10.

    Surrounding whitespace is stripped, one sign is allowed, and the digits
    may be grouped by single underscores ([int('1_0') == 10]).  Anything
    else raises [ValueError], and so does a text of more than
    [max_str_digits] digits. *)

(** Digits after the first one: [acc] is the value read so far and
    [after_us] tells that the previous character was an underscore. *)
Fixpoint int_digits (s : string) (acc : Z) (after_us : bool) : option Z :=
  match s with
  | EmptyString => if after_us then None else Some acc
  | String c r =>
      if is_digit c then int_digits r (acc * 10 + digit_value c) false
      else if Ascii.eqb c "_" then
        if after_us then None else int_digits r acc true
      else if all_space s then (if after_us then None else Some acc)
      else None
  end.

Definition int_unsigned (s : string) : option Z :=
  match s with
  | String c r => if is_digit c then int_digits r (digit_value c) false else None
  | EmptyString => None
  end.

Definition int (s : string) : res Z :=
  let body := lstrip s in
  let parsed :=
    match body with
    | String "-" r => option_map Z.opp (int_unsigned r)
    | String "+" r => int_unsigned r
    | _ => int_unsigned body
    end in
  match parsed with
  | Some n =>
      if count_digits body <=? max_str_digits then Ok n else Raise ValueError
  | None => Raise ValueError
  end.

(** ** The range of a double *)

(** The least magnitude that no longer rounds to a finite double: half way
    between the largest double and [2**1024]. *)
Definition double_overflow : Z := 2 ^ 1024 - 2 ^ 970.

(** The quotient [a / b] of two ints, [b != 0], rounds out of the range of
    a double. *)
Definition truediv_overflows (a b : Z) : bool :=
  double_overflow * Z.abs b <=? Z.abs a.

(** [a, b = l] *)
Definition unpack2 {A : Type} (l : list A) : res (A * A) :=
  match l with
  | [a; b] => Ok (a, b)
  | _ => Raise ValueError
  end.

End Py.

Import Py.

Declare Scope py_scope.
Notation "x <- m ;; k" := (Py.bind m (fun x => k))
  (at level 61, m at next level, right associativity) : py_scope.
Notation "' pat <- m ;; k" := (Py.bind m (fun x => match x with pat => k end))
  (at level 61, pat pattern, m at next level, right associativity) : py_scope.
Local Open Scope py_scope.

(** The operations on [float] (and on numpy's [float64]) that the script
    relies on. *)
Class PyFloat (F : Type) : Type := {
  (** [float(n)] for an int [n], as in [x / len(l)] *)
  of_int : Z -> F;
  (** [a / b] on two ints with [b != 0] and a quotient within the range of
      a double *)
  int_truediv : Z -> Z -> F;
  (** [x / y] on two floats with [y != 0] *)
  fdiv : F -> F -> F;
  (** [sum(l)] for a list of floats *)
  fsum : list F -> F;
  (** [x == y] *)
  feqb : F -> F -> bool;
  (** [x > y] *)
  fgtb : F -> F -> bool;
  (** [round(x, ndigits)] on a Python float *)
  fround : F -> Z -> F;
  (** [round(x, ndigits)] on a numpy [float64] *)
  npround : F -> Z -> F;
  (** [str(x)] *)
  fstr : F -> string;
  (** [float(s)]; [None] stands for [ValueError] *)
  float_of_string : string -> option F;
  (** element [i] of [np.linspace(start, stop, num)] *)
  linspace_at : Z -> Z -> Z -> Z -> F
}.

(* ===================================================================== *)
(** * The script *)
(* ===================================================================== *)

Section Script.

Context {F : Type} {PF : PyFloat F}.

(** [a / b] on ints. *)
Definition py_truediv (a b : Z) : res F :=
  if b =? 0 then Raise ZeroDivisionError
  else if truediv_overflows a b then Raise OverflowError
  else Ok (int_truediv a b).

(** [x / n] for a float [x] and an int [n]. *)
Definition py_truediv_float_int (x : F) (n : Z) : res F :=
  if n =? 0 then Raise ZeroDivisionError else Ok (fdiv x (of_int n)).

(** [float(s)] *)
Definition py_float (s : string) : res F :=
  match float_of_string s with
  | Some f => Ok f
  | None => Raise ValueError
  end.

(** ** Argument types *)

(** [\d+] at the start of [s]: what is left after the longest run of
    digits, provided there is at least one. *)
Fixpoint skip_digits (s : string) : string :=
  match s with
  | String c r => if is_digit c then skip_digits r else s
  | EmptyString => EmptyString
  end.

Definition digits1 (s : string) : option string :=
  match s with
  | String c r => if is_digit c then Some (skip_digits r) else None
  | EmptyString => None
  end.

(** [-?] *)
Definition skip_minus (s : string) : string :=
  match s with
  | String "-" r => r
  | _ => s
  end.

(** [colonSeparatedNumbersPattern.match(arg_value)] for the pattern
    [-?\d+:-?\d+]: [match] anchors at the start of the string only. *)
Definition colonSeparatedNumbersPattern_match (arg_value : string) : bool :=
  match digits1 (skip_minus arg_value) with
  | Some (String ":" r) =>
      match digits1 (skip_minus r) with
      | Some _ => true
      | None => false
      end
  | _ => false
  end.

Definition colonSeparatedNumbersArgType (arg_value : string) : res string :=
  if negb (colonSeparatedNumbersPattern_match arg_value)
  then Raise ArgumentTypeError
  else Ok arg_value.

(** What argparse does with a [type=] callable: an exception of the
    callable becomes a usage error, exit status 2. *)
Definition argparse_type {A : Type} (type : string -> res A) (arg : string) : res A :=
  match type arg with
  | Ok a => Ok a
  | Raise _ => Raise (SystemExit 2)
  end.

(** The values of the options, as argparse hands them to the [type]
    callables once it has split the command line; [-X] and [-Y] are
    required. *)
Record raw_args : Type := {
  raw_x_extents : string;
  raw_y_extents : string;
  raw_probe_log_file : option string;
  raw_heightmap_file : option string;
  raw_num_points : option string;
  raw_max_points : option string;
  raw_dsf_path_mode : bool
}.

(** The namespace returned by [parser.parse_args()]. *)
Record namespace : Type := {
  x_extents : string;
  y_extents : string;
  probe_log_file : string;
  heightmap_file : string;
  num_points : option string;
  max_points : Z;
  dsf_path_mode : bool
}.

Definition parse_args (a : raw_args) : res namespace :=
  xe <- argparse_type colonSeparatedNumbersArgType (raw_x_extents a) ;;
  ye <- argparse_type colonSeparatedNumbersArgType (raw_y_extents a) ;;
  np <- match raw_num_points a with
        | Some s => v <- argparse_type colonSeparatedNumbersArgType s ;; Ok (Some v)
        | None => Ok None
        end ;;
  mp <- match raw_max_points a with
        | Some s => argparse_type Py.int s
        | None => Ok 441
        end ;;
  Ok {| x_extents := xe;
        y_extents := ye;
        probe_log_file := match raw_probe_log_file a with
                          | Some p => p
                          | None => "meshbedprobe.log"
                          end;
        heightmap_file := match raw_heightmap_file a with
                          | Some p => p
                          | None => "heightmap.csv"
                          end;
        num_points := np;
        max_points := mp;
        dsf_path_mode := raw_dsf_path_mode a |}.

(** ** [dsfPath] *)

Definition dsfPath (rawPath : string) (isDsfMode : bool) : string :=
  if isDsfMode then
    let dsfConvertedPath :=
      if startswith rawPath "0:" || startswith rawPath "1:"
      then drop 2 rawPath else rawPath in
    if startswith dsfConvertedPath "/"
    then ("." ++ dsfConvertedPath)%string
    else ("./sys/" ++ dsfConvertedPath)%string
  else rawPath.

(** ** [selectMeshInterval] *)

(** The four loop variables. *)
Record vars : Type := mk_vars { var_u : Z; var_v : Z; var_x : Z; var_y : Z }.

Definition loop_cond (maxSamplePoints : Z) (s : vars) : bool :=
  var_u s * var_v s <=? maxSamplePoints.

Definition loop_body (xSideLength ySideLength : Z) (s : vars) : res vars :=
  let x := var_u s in
  let y := var_v s in
  sx <- py_truediv xSideLength x ;;
  sy <- py_truediv ySideLength y ;;
  if fgtb sx sy
  then Ok (mk_vars (var_u s + 1) (var_v s) x y)
  else Ok (mk_vars (var_u s) (var_v s + 1) x y).

Definition selectMeshInterval_fuel (fuel : nat)
  (xMin xMax yMin yMax maxSamplePoints : Z) : option (res (Z * Z)) :=
  let xSideLength := xMax - xMin in
  let ySideLength := yMax - yMin in
  match while fuel (loop_cond maxSamplePoints)
              (loop_body xSideLength ySideLength) (mk_vars 2 2 2 2) with
  | Some (Ok s) => Some (Ok (var_x s, var_y s))
  | Some (Raise e) => Some (Raise e)
  | None => None
  end.

(** The guard is tested at most [maxSamplePoints + 1] times
    (lemma [selectMeshInterval_outcome]), so the last branch is dead. *)
Definition selectMeshInterval (xMin xMax yMin yMax maxSamplePoints : Z)
  : res (Z * Z) :=
  match selectMeshInterval_fuel (S (Z.to_nat maxSamplePoints))
          xMin xMax yMin yMax maxSamplePoints with
  | Some r => r
  | None => Raise (RuntimeError "loop bound exceeded")
  end.

(** ** [splitIntArgs] and the processing of the arguments *)

Definition splitIntArgs (intArgs : string) : res (list Z) :=
  mapM Py.int (split ":" intArgs).

(** The module-level variables read by the functions below. *)
Record globals : Type := {
  xMin : Z;
  xMax : Z;
  yMin : Z;
  yMax : Z;
  xPoints : Z;
  yPoints : Z;
  maxSamplePoints : Z;
  isDsfPathMode : bool;
  probeLogPath : string;
  heightmapPath : string
}.

Definition process_args (parsedArgs : namespace) : res globals :=
  xs <- splitIntArgs (x_extents parsedArgs) ;;
  '(xMin, xMax) <- unpack2 xs ;;
  ys <- splitIntArgs (y_extents parsedArgs) ;;
  '(yMin, yMax) <- unpack2 ys ;;
  let maxSamplePoints := max_points parsedArgs in
  '(xPoints, yPoints) <-
     match num_points parsedArgs with
     | Some np => ps <- splitIntArgs np ;; unpack2 ps
     | None => selectMeshInterval xMin xMax yMin yMax maxSamplePoints
     end ;;
  let isDsfPathMode := dsf_path_mode parsedArgs in
  Ok {| xMin := xMin; xMax := xMax; yMin := yMin; yMax := yMax;
        xPoints := xPoints; yPoints := yPoints;
        maxSamplePoints := maxSamplePoints;
        isDsfPathMode := isDsfPathMode;
        probeLogPath := dsfPath (probe_log_file parsedArgs) isDsfPathMode;
        heightmapPath := dsfPath (heightmap_file parsedArgs) isDsfPathMode |}.

(** ** [parseProbedPoints] *)

Definition take_opt (ch : ascii) (s : string) : string * string :=
  match s with
  | String c r => if Ascii.eqb c ch then (String c EmptyString, r) else (EmptyString, s)
  | EmptyString => (EmptyString, s)
  end.

Fixpoint take_digits (s : string) : string * string :=
  match s with
  | String c r =>
      if is_digit c
      then let (d, rest) := take_digits r in (String c d, rest)
      else (EmptyString, s)
  | EmptyString => (EmptyString, EmptyString)
  end.

(** A captured group, [-?\d*\.?\d*] in the pattern: every part is greedy, and the character that
    follows a group in the pattern is a space or the end, which no part of
    the group can match, so the first choice is the only one. *)
Definition capture_number (s : string) : string * string :=
  let (m, s1) := take_opt "-" s in
  let (d1, s2) := take_digits s1 in
  let (p, s3) := take_opt "." s2 in
  let (d2, s4) := take_digits s3 in
  ((m ++ d1 ++ p ++ d2)%string, s4).

Definition expect (lit s : string) : option string :=
  if startswith s lit then Some (drop (String.length lit) s) else None.

(** The pattern [Mesh Point: X(...) Y(...) Z(...)] at the start of [s]. *)
Definition probePointPattern_at (s : string) : option (string * string * string) :=
  match expect "Mesh Point: X" s with
  | None => None
  | Some s1 =>
      let (gx, s2) := capture_number s1 in
      match expect " Y" s2 with
      | None => None
      | Some s3 =>
          let (gy, s4) := capture_number s3 in
          match expect " Z" s4 with
          | None => None
          | Some s5 => let (gz, _) := capture_number s5 in Some (gx, gy, gz)
          end
      end
  end.

(** [probePointPattern.search(line)]: the leftmost position that matches;
    the result is [match.groups()]. *)
Fixpoint probePointPattern_search (line : string) : option (string * string * string) :=
  match probePointPattern_at line with
  | Some g => Some g
  | None =>
      match line with
      | String _ r => probePointPattern_search r
      | EmptyString => None
      end
  end.

Definition coordinate : Type := F * F.

(** [==] on two tuples of floats. *)
Definition coord_eqb (a b : coordinate) : bool :=
  feqb (fst a) (fst b) && feqb (snd a) (snd b).

(** [probedPoints]: keys in insertion order, each with its list of Z. *)
Definition dict : Type := list (coordinate * list F).

(** [k in d] *)
Fixpoint dict_contains (d : dict) (k : coordinate) : bool :=
  match d with
  | [] => false
  | (k', _) :: r => coord_eqb k' k || dict_contains r k
  end.

(** [d[k] = v]: an existing key keeps its place, a new one goes last. *)
Fixpoint dict_setitem (d : dict) (k : coordinate) (v : list F) : dict :=
  match d with
  | [] => [(k, v)]
  | (k', v') :: r =>
      if coord_eqb k' k then (k', v) :: r else (k', v') :: dict_setitem r k v
  end.

(** [d[k].append(z)]: the list stored under [k] grows in place. *)
Fixpoint dict_append (d : dict) (k : coordinate) (z : F) : res dict :=
  match d with
  | [] => Raise KeyError
  | (k', v) :: r =>
      if coord_eqb k' k then Ok ((k', v ++ [z]) :: r)
      else r' <- dict_append r k z ;; Ok ((k', v) :: r')
  end.

(** The grouping at the end of the loop body. *)
Definition group_point (probedPoints : dict) (xyCoordinate : coordinate)
  (zOffset : F) : res dict :=
  let probedPoints :=
    if negb (dict_contains probedPoints xyCoordinate)
    then dict_setitem probedPoints xyCoordinate []
    else probedPoints in
  dict_append probedPoints xyCoordinate zOffset.

(** The body of [for line in lines]. *)
Definition parse_line (probedPoints : dict) (line : string) : res dict :=
  match probePointPattern_search line with
  | Some (c0, c1, c2) =>
      x <- py_float c0 ;;
      y <- py_float c1 ;;
      zOffset <- py_float c2 ;;
      group_point probedPoints (x, y) zOffset
  | None => Ok probedPoints
  end.

Definition parse_lines (lines : list string) : res dict :=
  foldM parse_line lines [].

(** ** [averageZOffset] *)

Definition average_step (acc : list F * list F * list F)
  (item : coordinate * list F) : res (list F * list F * list F) :=
  let '(x, y, z) := acc in
  let (xyCoordinate, zOffsets) := item in
  m <- py_truediv_float_int (fsum zOffsets) (Z.of_nat (List.length zOffsets)) ;;
  Ok (x ++ [fst xyCoordinate], y ++ [snd xyCoordinate], z ++ [m]).

Definition averageZOffset (probedPoints : dict) : res (list F * list F * list F) :=
  foldM average_step probedPoints ([], [], []).

(** ** [buildMeshPoints] *)

Definition grid : Type := list (list F).

(** [np.linspace(start, stop, num)] *)
Definition np_linspace (start stop num : Z) : res (list F) :=
  if num <? 0 then Raise ValueError
  else Ok (map (fun i => linspace_at start stop num (Z.of_nat i))
               (seq 0 (Z.to_nat num))).

(** [np.meshgrid(xs, ys)]: two arrays of [len(ys)] rows and [len(xs)]
    columns. *)
Definition np_meshgrid (xs ys : list F) : grid * grid :=
  (map (fun _ => xs) ys, map (fun yv => map (fun _ => yv) xs) ys).

Definition buildMeshPoints (g : globals) : res (grid * grid) :=
  xs <- np_linspace (xMin g) (xMax g) (xPoints g) ;;
  ys <- np_linspace (yMin g) (yMax g) (yPoints g) ;;
  Ok (np_meshgrid xs ys).

(** ** The outside world *)

(** Keyword arguments of [Rbf(...)]; [None] means the argument is not
    passed and scipy uses its default. *)
Record rbf_kwargs : Type := {
  kw_function : option string;
  kw_epsilon : option F;
  kw_smooth : option Z
}.

Inductive call : Type :=
| ReadLines (path : string)
| RbfFit (x y z : list F) (kw : rbf_kwargs)
| Now (format : string)
| Print (text : string)
| WriteFile (path text : string)
| Chmod (path : string) (mode : Z).

(** What a call gives back.  A fitted [Rbf] object is the function it
    computes at a point. *)
Definition answer (c : call) : Type :=
  match c with
  | ReadLines _ => list string
  | RbfFit _ _ _ _ => F -> F -> F
  | Now _ => string
  | Print _ => unit
  | WriteFile _ _ => unit
  | Chmod _ _ => unit
  end.

(** A program: it returns, raises, or makes a call and goes on with the
    answer, which may itself be an exception raised by the callee. *)
Inductive prog (A : Type) : Type :=
| Ret (a : A)
| Throw (e : exn)
| Call (c : call) (k : res (answer c) -> prog A).
Arguments Ret {A} a.
Arguments Throw {A} e.
Arguments Call {A} c k.

Fixpoint pbind {A B : Type} (m : prog A) (f : A -> prog B) : prog B :=
  match m with
  | Ret a => f a
  | Throw e => Throw e
  | Call c k => Call c (fun r => pbind (k r) f)
  end.

Definition lift {A : Type} (r : res A) : prog A :=
  match r with
  | Ok a => Ret a
  | Raise e => Throw e
  end.

Definition perform (c : call) : prog (answer c) := Call c lift.

Notation "x <~ m ;; k" := (pbind m (fun x => k))
  (at level 61, m at next level, right associativity) : py_scope.
Notation "' pat <~ m ;; k" := (pbind m (fun x => match x with pat => k end))
  (at level 61, pat pattern, m at next level, right associativity) : py_scope.

(** [parseProbedPoints]: read the log, then group the probed points. *)
Definition parseProbedPoints (g : globals) : prog dict :=
  lines <~ perform (ReadLines (probeLogPath g)) ;;
  lift (parse_lines lines).

(** ** [upsampleBedMesh] *)

Fixpoint zip_with {A B C : Type} (f : A -> B -> C) (l : list A) (m : list B)
  : list C :=
  match l, m with
  | a :: l', b :: m' => f a b :: zip_with f l' m'
  | _, _ => []
  end.

(** [rbfInterpolator(X, Y)]: the surface at every node, in the shape of
    the arguments. *)
Definition rbf_call (rbfInterpolator : F -> F -> F) (X Y : grid) : grid :=
  zip_with (zip_with rbfInterpolator) X Y.

Definition upsampleBedMesh (g : globals)
  (averagedPoints : list F * list F * list F) : prog grid :=
  let '(x, y, z) := averagedPoints in
  rbfInterpolator <~ perform (RbfFit x y z {| kw_function := None;
                                              kw_epsilon := None;
                                              kw_smooth := Some 0 |}) ;;
  '(X, Y) <~ lift (buildMeshPoints g) ;;
  Ret (rbf_call rbfInterpolator X Y).

(** ** [writeHeightmap] *)

(** An entry of [settingsLine]: an int or a float. *)
Inductive pyval : Type :=
| VInt (n : Z)
| VFloat (x : F).

Definition str (val : pyval) : res string :=
  match val with
  | VInt n => py_str_int n
  | VFloat x => Ok (fstr x)
  end.

Definition newline : string := String (ascii_of_nat 10) EmptyString.

(** One line of the file per row of the mesh. *)
Definition row_line (row : list F) : string :=
  (join ", " (map (fun val => fstr (npround val 3)) row) ++ newline)%string.

(** The value of [str_out] at the end of [writeHeightmap]; [now] is the
    formatted time. *)
Definition heightmap_text (g : globals) (now : string) (upsampledBedMesh : grid)
  : res string :=
  let str_out := "RepRapFirmware height map file v2 generated at " in
  let str_out := (str_out ++ now)%string in
  let str_out := (str_out ++ newline)%string in
  let str_out :=
    (str_out ++ "xmin,xmax,ymin,ymax,radius,xspacing,yspacing,xnum,ynum"
             ++ newline)%string in
  xq <- py_truediv (xMax g - xMin g) (xPoints g - 1) ;;
  yq <- py_truediv (yMax g - yMin g) (yPoints g - 1) ;;
  let settingsLine :=
    [VInt (xMin g); VInt (xMax g); VInt (yMin g); VInt (yMax g);
     VFloat (of_int (-1)); VFloat (fround xq 2); VFloat (fround yq 2);
     VInt (xPoints g); VInt (yPoints g)] in
  cells <- mapM str settingsLine ;;
  let str_out := (str_out ++ join "," cells)%string in
  let str_out := (str_out ++ newline)%string in
  Ok (fold_left (fun acc row => (acc ++ row_line row)%string)
                upsampledBedMesh str_out).

Definition writeHeightmap (g : globals) (upsampledBedMesh : grid) : prog unit :=
  now <~ perform (Now "%Y-%m-%d %H:%M") ;;
  str_out <~ lift (heightmap_text g now upsampledBedMesh) ;;
  _ <~ perform (Print str_out) ;;
  _ <~ perform (WriteFile (heightmapPath g) str_out) ;;
  perform (Chmod (heightmapPath g) 511).

(** ** The script, top to bottom *)

Definition main (argv : raw_args) : prog unit :=
  parsedArgs <~ lift (parse_args argv) ;;
  g <~ lift (process_args parsedArgs) ;;
  probedPoints <~ parseProbedPoints g ;;
  averagedPoints <~ lift (averageZOffset probedPoints) ;;
  upsampledBedMesh <~ upsampleBedMesh g averagedPoints ;;
  writeHeightmap g upsampledBedMesh.

(** ** Running a program *)

(** The behaviour of the outside world. *)
Record world : Type := {
  w_readlines : string -> res (list string);
  w_rbf : list F -> list F -> list F -> rbf_kwargs -> res (F -> F -> F);
  w_now : string -> string;
  w_write : string -> string -> res unit;
  w_chmod : string -> Z -> res unit
}.

Definition respond (w : world) (c : call) : res (answer c) :=
  match c with
  | ReadLines path => w_readlines w path
  | RbfFit x y z kw => w_rbf w x y z kw
  | Now format => Ok (w_now w format)
  | Print _ => Ok tt
  | WriteFile path text => w_write w path text
  | Chmod path mode => w_chmod w path mode
  end.

(** The calls made, in order, and the outcome. *)
Fixpoint run {A : Type} (w : world) (p : prog A) : list call * res A :=
  match p with
  | Ret a => ([], Ok a)
  | Throw e => ([], Raise e)
  | Call c k => let (t, r) := run w (k (respond w c)) in (c :: t, r)
  end.

(** The first call of a program, if it makes one. *)
Definition first_call {A : Type} (p : prog A) : option call :=
  match p with
  | Call c _ => Some c
  | _ => None
  end.

End Script.

Arguments Ret {F A} a.
Arguments Throw {F A} e.
Arguments Call {F A} c k.

Notation "x <~ m ;; k" := (pbind m (fun x => k))
  (at level 61, m at next level, right associativity) : py_scope.
Notation "' pat <~ m ;; k" := (pbind m (fun x => match x with pat => k end))
  (at level 61, pat pattern, m at next level, right associativity) : py_scope.

(* ===================================================================== *)
(** * Vocabulary of the properties *)
(* ===================================================================== *)

Section Vocabulary.

Context {F : Type} {PF : PyFloat F}.

(** The exact distance between neighbouring nodes when [count] of them
    (at least one) share [extent]. *)
Definition spacing (extent count : Z) : Q := extent # Z.to_pos count.

(** ** Ranges *)

(** A side length all of whose quotients [side / count] with [count >= 2]
    are within the range of a double. *)
Definition in_double_range (side : Z) : Prop :=
  Z.abs side < 2 * double_overflow.

(** Side lengths and a budget so small that no two different quotients
    [side / count] met by the selector round to the same double. *)
Definition exactly_compared (xSide ySide budget : Z) : Prop :=
  Z.abs xSide * budget < 2 ^ 51 /\ Z.abs ySide * budget < 2 ^ 51 /\
  budget < 2 ^ 51.

(** An int that [str] converts: at most [max_str_digits] digits. *)
Definition printable (n : Z) : Prop :=
  count_digits (str_int n) <= max_str_digits.

(** A text that [int] converts as far as its length goes. *)
Definition within_digit_limit (s : string) : Prop :=
  count_digits s <= max_str_digits.

(** ** The greedy rule of the specification *)

(** One step on exact spacings: x gets the next point when its spacing is
    strictly larger, y otherwise. *)
Definition greedy_step (xSide ySide : Z) (s : vars) : vars :=
  if Qlt_le_dec (spacing ySide (var_v s)) (spacing xSide (var_u s))
  then mk_vars (var_u s + 1) (var_v s) (var_u s) (var_v s)
  else mk_vars (var_u s) (var_v s + 1) (var_u s) (var_v s).

(** The walk from [s] while the product of the counts is within the
    budget; the result is the last pair that was within it. *)
Fixpoint greedy_walk (fuel : nat) (xSide ySide budget : Z) (s : vars) : Z * Z :=
  match fuel with
  | O => (var_x s, var_y s)
  | S n =>
      if var_u s * var_v s <=? budget
      then greedy_walk n xSide ySide budget (greedy_step xSide ySide s)
      else (var_x s, var_y s)
  end.

Definition greedy_counts (xSide ySide budget : Z) : Z * Z :=
  greedy_walk (S (Z.to_nat budget)) xSide ySide budget (mk_vars 2 2 2 2).

(** A probed sample: x, y and z. *)
Definition sample : Type := F * F * F.

Definition sample_xy (s : sample) : coordinate := (fst (fst s), snd (fst s)).

Definition sample_z (s : sample) : F := snd s.

(** The samples of a log, in the order of its lines. *)
Fixpoint probed_samples (lines : list string) : res (list sample) :=
  match lines with
  | [] => Ok []
  | line :: rest =>
      match probePointPattern_search line with
      | Some (c0, c1, c2) =>
          x <- py_float c0 ;;
          y <- py_float c1 ;;
          z <- py_float c2 ;;
          more <- probed_samples rest ;;
          Ok ((x, y, z) :: more)
      | None => probed_samples rest
      end
  end.

(** The distinct coordinates of a list, each at its first occurrence. *)
Fixpoint first_seen (l : list coordinate) : list coordinate :=
  match l with
  | [] => []
  | k :: r => k :: filter (fun k' => negb (coord_eqb k k')) (first_seen r)
  end.

(** All the heights observed at [k], in the order of the samples. *)
Definition observations (k : coordinate) (samples : list sample) : list F :=
  map sample_z (filter (fun s => coord_eqb k (sample_xy s)) samples).

(** Arithmetic mean, computed as the script does: sum over count. *)
Definition mean (zs : list F) : F :=
  fdiv (fsum zs) (of_int (Z.of_nat (List.length zs))).

(** What [group_point] does to one entry of the dict. *)
Definition add_observation (k : coordinate) (z : F) (e : coordinate * list F)
  : coordinate * list F :=
  (fst e, snd e ++ (if coord_eqb (fst e) k then [z] else [])).

(** No two coordinates of the list are [==]. *)
Definition pairwise_distinct (l : list coordinate) : Prop :=
  ForallOrdPairs (fun a b => coord_eqb a b = false) l.

(** The dict that groups [samples]: one entry per distinct coordinate, in
    the order of first occurrence, holding all the heights observed there. *)
Definition grouping (samples : list sample) : dict :=
  map (fun k => (k, observations k samples)) (first_seen (map sample_xy samples)).

Definition group_step (d : dict) (s : sample) : res dict :=
  group_point d (sample_xy s) (sample_z s).

(** ** Arguments *)

(** A colon-separated integer pair, [-?\d+:-?\d+] and nothing else. *)
Definition is_colon_separated_pair (s : string) : bool :=
  match digits1 (skip_minus s) with
  | Some (String ":" r) =>
      match digits1 (skip_minus r) with
      | Some EmptyString => true
      | _ => false
      end
  | _ => false
  end.

(** ** The interpolation call *)

(** The keyword arguments the script passes to [Rbf]. *)
Definition script_kwargs : @rbf_kwargs F :=
  {| kw_function := None; kw_epsilon := None; kw_smooth := Some 0 |}.

(** A program that raises before it calls anything. *)
Definition raises_at_once {A : Type} (p : @prog F A) : Prop :=
  exists e : exn, p = Throw e.

(** A call of [Rbf] that passes a shape parameter of its own. *)
Definition passes_epsilon (c : @call F) : bool :=
  match c with
  | RbfFit _ _ _ kw =>
      match kw_epsilon kw with
      | Some _ => true
      | None => false
      end
  | _ => false
  end.

(** The last line of the script once the points are averaged. *)
Definition interpolate_and_write (g : globals)
  (averagedPoints : list F * list F * list F) : @prog F unit :=
  upsampledBedMesh <~ upsampleBedMesh g averagedPoints ;;
  writeHeightmap g upsampledBedMesh.

(** ** The heightmap file *)

(** The four extents are within the range of a double: the end points of
    the two [np.linspace] convert to floats. *)
Definition extents_in_range (g : globals) : Prop :=
  Z.abs (xMin g) < double_overflow /\ Z.abs (xMax g) < double_overflow /\
  Z.abs (yMin g) < double_overflow /\ Z.abs (yMax g) < double_overflow.

(** The two spacings of the settings line are within the range of a
    double. *)
Definition spacings_in_range (g : globals) : Prop :=
  truediv_overflows (xMax g - xMin g) (xPoints g - 1) = false /\
  truediv_overflows (yMax g - yMin g) (yPoints g - 1) = false.

(** [str] converts the six ints of the settings line. *)
Definition settings_printable (g : globals) : Prop :=
  printable (xMin g) /\ printable (xMax g) /\
  printable (yMin g) /\ printable (yMax g) /\
  printable (xPoints g) /\ printable (yPoints g).

(** Lines, each closed by a newline. *)
Definition unlines (lines : list string) : string :=
  fold_right (fun l acc => (l ++ newline ++ acc)%string) EmptyString lines.

Definition header_text (now : string) : string :=
  ("RepRapFirmware height map file v2 generated at " ++ now)%string.

Definition columns_text : string :=
  "xmin,xmax,ymin,ymax,radius,xspacing,yspacing,xnum,ynum".

(** The settings line: extents, the radius -1.0, the two spacings
    [(max - min) / (count - 1)] rounded to 2 decimals, the two counts. *)
Definition settings_text (g : globals) : string :=
  join ","
    [str_int (xMin g); str_int (xMax g); str_int (yMin g); str_int (yMax g);
     fstr (of_int (-1));
     fstr (fround (int_truediv (xMax g - xMin g) (xPoints g - 1)) 2);
     fstr (fround (int_truediv (yMax g - yMin g) (yPoints g - 1)) 2);
     str_int (xPoints g); str_int (yPoints g)].

(** A row of the mesh: its entries rounded to 3 decimals. *)
Definition row_text (row : list F) : string :=
  join ", " (map (fun val => fstr (npround val 3)) row).

End Vocabulary.

(** ** Command lines used below *)

(** [-X 0:10 -Y 0:10 -P 1:5] *)
Definition one_by_five_args : raw_args :=
  {| raw_x_extents := "0:10";
     raw_y_extents := "0:10";
     raw_probe_log_file := None;
     raw_heightmap_file := None;
     raw_num_points := Some "1:5";
     raw_max_points := None;
     raw_dsf_path_mode := false |}.

(** [-X 0:10 -Y 0:10 -P 0:3] *)
Definition zero_by_three_args : raw_args :=
  {| raw_x_extents := "0:10";
     raw_y_extents := "0:10";
     raw_probe_log_file := None;
     raw_heightmap_file := None;
     raw_num_points := Some "0:3";
     raw_max_points := None;
     raw_dsf_path_mode := false |}.

Definition zero_by_three_globals : globals :=
  {| xMin := 0; xMax := 10; yMin := 0; yMax := 10;
     xPoints := 0; yPoints := 3;
     maxSamplePoints := 441;
     isDsfPathMode := false;
     probeLogPath := "meshbedprobe.log";
     heightmapPath := "heightmap.csv" |}.

(** [-X '0:10 ' -Y 0:10 -P 2:2], the first extent with a trailing space *)
Definition trailing_space_args : raw_args :=
  {| raw_x_extents := "0:10 ";
     raw_y_extents := "0:10";
     raw_probe_log_file := None;
     raw_heightmap_file := None;
     raw_num_points := Some "2:2";
     raw_max_points := None;
     raw_dsf_path_mode := false |}.

(** [-X 0:1_0 -Y 0:10 -P 2:2] *)
Definition underscore_args : raw_args :=
  {| raw_x_extents := "0:1_0";
     raw_y_extents := "0:10";
     raw_probe_log_file := None;
     raw_heightmap_file := None;
     raw_num_points := Some "2:2";
     raw_max_points := None;
     raw_dsf_path_mode := false |}.

(** ** The run of the whole script *)

Section Stages.

Context {F : Type} {PF : PyFloat F}.

(** Parsing and processing of the command line, lines 120 to 134. *)
Definition arguments_of (argv : raw_args) : res globals :=
  parsedArgs <- parse_args argv ;; process_args parsedArgs.

(** What a call is for. *)
Inductive stage : Type :=
| Reading
| Fitting
| Timing
| Printing
| Writing
| Permitting.

Definition call_stage (c : @call F) : stage :=
  match c with
  | ReadLines _ => Reading
  | RbfFit _ _ _ _ => Fitting
  | Now _ => Timing
  | Print _ => Printing
  | WriteFile _ _ => Writing
  | Chmod _ _ => Permitting
  end.

Definition stages : list stage :=
  [Reading; Fitting; Timing; Printing; Writing; Permitting].

(** The run of the script, stage by stage: the calls made so far and the
    exception when a stage fails. *)
Definition staged_run (w : world) (argv : raw_args) : list (@call F) * res unit :=
  match arguments_of argv with
  | Raise e => ([], Raise e)
  | Ok g =>
    let read := ReadLines (probeLogPath g) in
    match w_readlines w (probeLogPath g) with
    | Raise e => ([read], Raise e)
    | Ok lines =>
      match (d <- parse_lines lines ;; averageZOffset d) with
      | Raise e => ([read], Raise e)
      | Ok (x, y, z) =>
        let fit := RbfFit x y z script_kwargs in
        match w_rbf w x y z script_kwargs with
        | Raise e => ([read; fit], Raise e)
        | Ok f =>
          match buildMeshPoints g with
          | Raise e => ([read; fit], Raise e)
          | Ok (X, Y) =>
            let now := Now "%Y-%m-%d %H:%M" in
            match heightmap_text g (w_now w "%Y-%m-%d %H:%M") (rbf_call f X Y) with
            | Raise e => ([read; fit; now], Raise e)
            | Ok text =>
              let out := [read; fit; now; Print text;
                          WriteFile (heightmapPath g) text] in
              match w_write w (heightmapPath g) text with
              | Raise e => (out, Raise e)
              | Ok _ =>
                (out ++ [Chmod (heightmapPath g) 511],
                 w_chmod w (heightmapPath g) 511)
              end
            end
          end
        end
      end
    end
  end.

End Stages.

Section MeshNodes.

Context {F : Type} {PF : PyFloat F}.

(** The values of [np.linspace(start, stop, num)]. *)
Definition nodes (start stop num : Z) : list F :=
  map (fun i => linspace_at start stop num (Z.of_nat i)) (seq 0 (Z.to_nat num)).

(** The surface [f] on the grid of the heightmap: one row per y node, and
    in a row one entry per x node. *)
Definition surface_mesh (g : globals) (f : F -> F -> F) : grid :=
  map (fun yv => map (fun xv => f xv yv) (nodes (xMin g) (xMax g) (xPoints g)))
      (nodes (yMin g) (yMax g) (yPoints g)).

End MeshNodes.

(** ** Strings of one kind of character *)

Fixpoint all_chars (p : ascii -> bool) (s : string) : bool :=
  match s with
  | String c r => p c && all_chars p r
  | EmptyString => true
  end.

Definition not_colon (c : ascii) : bool := negb (Ascii.eqb c ":").

(** ** Probe lines *)

(** A string that no number field can run into: it is empty or begins
    with a character other than a digit, a minus sign and a point. *)
Definition stops_number (rest : string) : bool :=
  match rest with
  | EmptyString => true
  | String c _ => negb (is_digit c || Ascii.eqb c "-" || Ascii.eqb c ".")
  end.

(** Laws of [==] on the floats that can occur as coordinates: it is an
    equivalence (no NaN can be parsed from the log). *)
Class PyFloatEq (F : Type) {PF : PyFloat F} : Prop := {
  feqb_refl : forall x : F, feqb x x = true;
  feqb_sym : forall x y : F, feqb x y = feqb y x;
  feqb_trans : forall x y z : F, feqb x y = true -> feqb y z = true -> feqb x z = true
}.

(** Laws of [>] on quotients of ints within the range of a double.
    Division rounds the exact quotient to the nearest double, which keeps
    the order up to ties: a quotient that compares greater is greater
    ([fgtb_sound]).  And two different quotients round to different doubles
    when the cross products of their terms are below [2**51]
    ([fgtb_complete]). *)
Class PyFloatOrder (F : Type) {PF : PyFloat F} : Prop := {
  fgtb_sound : forall a b c d : Z, 0 < b -> 0 < d ->
    truediv_overflows a b = false -> truediv_overflows c d = false ->
    fgtb (int_truediv a b) (int_truediv c d) = true -> c * b < a * d;
  fgtb_complete : forall a b c d : Z, 0 < b < 2 ^ 51 -> 0 < d < 2 ^ 51 ->
    Z.abs a * d < 2 ^ 51 -> Z.abs c * b < 2 ^ 51 ->
    c * b < a * d -> fgtb (int_truediv a b) (int_truediv c d) = true
}.

(* ===================================================================== *)
(** * Exact arithmetic: floats as rationals *)
(* ===================================================================== *)

Module QFloat.

Definition truediv (a b : Z) : Q :=
  if 0 <? b then a # Z.to_pos b else (- a) # Z.to_pos (- b).

Definition sum (l : list Q) : Q := fold_left Qplus l (0 # 1).

Definition gtb (x y : Q) : bool := negb (Qle_bool x y).

(** Round half to even at [ndigits] decimals. *)
Definition round_half_even (x : Q) (ndigits : Z) : Q :=
  let scale := Qpower (10 # 1) ndigits in
  let y := Qred (x * scale) in
  let f := Qfloor y in
  let k := match Qcompare (y - inject_Z f) (1 # 2) with
           | Lt => f
           | Gt => f + 1
           | Eq => if Z.even f then f else f + 1
           end in
  Qred (inject_Z k / scale).

(** Decimal digits of [num / den] after the point, at most [fuel] of them. *)
Fixpoint frac_digits (fuel : nat) (num den : Z) : string :=
  match fuel with
  | O => EmptyString
  | S n =>
      let d := (num * 10) / den in
      let r := (num * 10) mod den in
      (str_int d ++ (if (r =? 0)%Z then EmptyString else frac_digits n r den))%string
  end.

Definition to_string (x : Q) : string :=
  let x := Qred x in
  let den := Zpos (Qden x) in
  let a := Z.abs (Qnum x) in
  ((if (Qnum x <? 0)%Z then "-" else "")
     ++ str_int (a / den) ++ "." ++ frac_digits 17 (a mod den) den)%string.

Fixpoint digits_value (s : string) (acc : Z) : Z :=
  match s with
  | String c r => digits_value r (acc * 10 + digit_value c)
  | EmptyString => acc
  end.

(** The decimal literals that the probe pattern can capture. *)
Definition of_string (s : string) : option Q :=
  let (m, s1) := take_opt "-" s in
  let (d1, s2) := take_digits s1 in
  let (p, s3) := take_opt "." s2 in
  let (d2, s4) := take_digits s3 in
  match s4 with
  | EmptyString =>
      if (String.length d1 + String.length d2 =? 0)%nat then None
      else
        let v := digits_value (d1 ++ d2)%string 0 in
        let q := v # Z.to_pos (10 ^ Z.of_nat (String.length d2)) in
        Some (Qred (if String.eqb m "-" then Qopp q else q))
  | _ => None
  end.

Definition linspace_node (start stop num i : Z) : Q :=
  if num <=? 1 then inject_Z start
  else Qred (inject_Z start + inject_Z i * truediv (stop - start) (num - 1)).

#[export] Instance float : PyFloat Q := {|
  of_int := inject_Z;
  int_truediv := truediv;
  fdiv := fun x y => Qred (x / y);
  fsum := fun l => Qred (sum l);
  feqb := Qeq_bool;
  fgtb := gtb;
  fround := round_half_even;
  npround := round_half_even;
  fstr := to_string;
  float_of_string := of_string;
  linspace_at := linspace_node
|}.

End QFloat.


#[global] Existing Instance QFloat.float.

(* ===================================================================== *)
(** * Rounded arithmetic: quotients as doubles *)
(* ===================================================================== *)

Module Binary64.

(** The exponent of [m / b] for positive [m] and [b]: the [e] with
    [2**e <= m / b < 2**(e + 1)]. *)
Definition exponent (m b : Z) : Z :=
  let e := Z.log2 m - Z.log2 b in
  if (if 0 <=? e then b * 2 ^ e <=? m else b <=? m * 2 ^ (- e))
  then e else e - 1.

(** The doubles around [m / b] are the multiples of [2**k] for this [k]:
    52 below the exponent, which is taken to be at least -1022 (below,
    the doubles are subnormal). *)
Definition quantum (m b : Z) : Z := Z.max (exponent m b) (-1022) - 52.

(** [n / d] rounded to the nearest integer, ties to even, for [d > 0]. *)
Definition round_half_even (n d : Z) : Z :=
  let q := n / d in
  match 2 * (n mod d) ?= d with
  | Lt => q
  | Gt => q + 1
  | Eq => if Z.even q then q else q + 1
  end.

(** [m / b] rounded to the nearest double, ties to even, for [m >= 0] and
    [b > 0]. *)
Definition round_quotient (m b : Z) : Q :=
  if m =? 0 then 0 # 1
  else
    let k := quantum m b in
    if 0 <=? k then inject_Z (round_half_even m (b * 2 ^ k) * 2 ^ k)
    else Qred (round_half_even (m * 2 ^ (- k)) b # Z.to_pos (2 ^ (- k))).

(** [a / b] on ints as Python rounds it, for [b != 0] and a quotient
    within the range of a double. *)
Definition truediv (a b : Z) : Q :=
  let q := round_quotient (Z.abs a) (Z.abs b) in
  if Z.sgn a * Z.sgn b <? 0 then Qopp q else q.

(** Doubles as the rationals they are.  The quotient of two ints is
    rounded; the other operations are those of [QFloat]. *)
Definition float : PyFloat Q := {|
  of_int := inject_Z;
  int_truediv := truediv;
  fdiv := fun x y => Qred (x / y);
  fsum := fun l => Qred (QFloat.sum l);
  feqb := Qeq_bool;
  fgtb := QFloat.gtb;
  fround := QFloat.round_half_even;
  npround := QFloat.round_half_even;
  fstr := QFloat.to_string;
  float_of_string := QFloat.of_string;
  linspace_at := QFloat.linspace_node
|}.

(** [2**k] as a rational, for any integer [k]. *)
Definition pow2 (k : Z) : Q := Qpower 2 k.

(** [N] is the integer nearest to [s], the even one of two. *)
Definition nearest_even (N : Z) (s : Q) : Prop :=
  (s - (1 # 2) <= inject_Z N /\ inject_Z N <= s + (1 # 2))%Q /\
  ((inject_Z N == s - (1 # 2) \/ inject_Z N == s + (1 # 2))%Q -> Z.even N = true).

End Binary64.

(** ** Concrete data for the examples *)

Module Scenario.

(** Three samples, two of them at the same coordinate. *)
Definition repeated_log : list string :=
  ["Mesh Point: X0 Y0 Z1.0"; "Mesh Point: X0 Y0 Z3.0"; "Mesh Point: X1 Y0 Z2.0"].

Definition repeated_samples : list (Q * Q * Q) :=
  [(0 # 1, 0 # 1, 1 # 1); (0 # 1, 0 # 1, 3 # 1); (1 # 1, 0 # 1, 2 # 1)].

(** The four corners of a 10 by 10 bed. *)
Definition corner_log : list string :=
  ["Mesh Point: X0 Y0 Z0.1"; "Mesh Point: X10 Y0 Z0.2";
   "Mesh Point: X0 Y10 Z0.15"; "Mesh Point: X10 Y10 Z0.25"].

Definition corner_x : list Q := [0 # 1; 10 # 1; 0 # 1; 10 # 1].
Definition corner_y : list Q := [0 # 1; 0 # 1; 10 # 1; 10 # 1].
Definition corner_z : list Q := [1 # 10; 1 # 5; 3 # 20; 1 # 4].

(** [-X 0:10 -Y 0:10 -P 2:2] *)
Definition corner_args : raw_args :=
  {| raw_x_extents := "0:10";
     raw_y_extents := "0:10";
     raw_probe_log_file := None;
     raw_heightmap_file := None;
     raw_num_points := Some "2:2";
     raw_max_points := None;
     raw_dsf_path_mode := false |}.

Definition corner_globals : globals :=
  {| xMin := 0; xMax := 10; yMin := 0; yMax := 10;
     xPoints := 2; yPoints := 2;
     maxSamplePoints := 441;
     isDsfPathMode := false;
     probeLogPath := "meshbedprobe.log";
     heightmapPath := "heightmap.csv" |}.

(** The plane through the four corner samples, standing for the fitted
    surface. *)
Definition corner_surface (x y : Q) : Q :=
  Qred ((1 # 10) + x * (1 # 100) + y * (1 # 200)).

(** A world in which the log holds the corner samples, the fit returns
    the plane through them, and the file can be written. *)
Definition corner_world : @world Q :=
  {| w_readlines := fun _ => Ok corner_log;
     w_rbf := fun _ _ _ _ => Ok corner_surface;
     w_now := fun _ => "2020-01-01 00:00";
     w_write := fun _ _ => Ok tt;
     w_chmod := fun _ _ => Ok tt |}.

(** The same world, except that the [Rbf] constructor raises. *)
Definition failing_world : @world Q :=
  {| w_readlines := fun _ => Ok corner_log;
     w_rbf := fun _ _ _ _ => Raise ValueError;
     w_now := fun _ => "2020-01-01 00:00";
     w_write := fun _ _ => Ok tt;
     w_chmod := fun _ _ => Ok tt |}.

End Scenario.

(** ** More concrete data *)

Module Cases.

(** The namespace of [-X 0:10 -Y 0:10], with the default budget. *)
Definition default_namespace : namespace :=
  {| x_extents := "0:10";
     y_extents := "0:10";
     probe_log_file := "meshbedprobe.log";
     heightmap_file := "heightmap.csv";
     num_points := None;
     max_points := 441;
     dsf_path_mode := false |}.

(** [-X abc -Y 0:10] *)
Definition word_args : raw_args :=
  {| raw_x_extents := "abc";
     raw_y_extents := "0:10";
     raw_probe_log_file := None;
     raw_heightmap_file := None;
     raw_num_points := None;
     raw_max_points := None;
     raw_dsf_path_mode := false |}.


Definition quiet_log : list string := ["G29 S0"; "ok"; "Mesh Point: none"].

Definition broken_log : list string :=
  ["Mesh Point: X0 Y0 Z0.1"; "Mesh Point: X Y Z"; "Mesh Point: X10 Y0 Z0.2"].

(** The world of the corner scenario with another log. *)
Definition world_with_log (log : list string) : @world Q :=
  {| w_readlines := fun _ => Ok log;
     w_rbf := fun _ _ _ _ => Ok Scenario.corner_surface;
     w_now := fun _ => "2020-01-01 00:00";
     w_write := fun _ _ => Ok tt;
     w_chmod := fun _ _ => Ok tt |}.

End Cases.
(* ===================================================================== *)
(** * Properties of [selectMeshInterval] *)
(* ===================================================================== *)

Section SelectMeshInterval.

Context {F : Type} {PF : PyFloat F}.

Lemma double_overflow_pos : 0 < double_overflow.
Proof. reflexivity. Qed.

Lemma py_truediv_ok (a b : Z) :
  b <> 0 -> truediv_overflows a b = false ->
  py_truediv a b = Ok (int_truediv a b).
Proof.
  intros Hb Hr. unfold py_truediv. rewrite Hr.
  destruct (Z.eqb_spec b 0) as [E | _]; [contradiction | reflexivity].
Qed.

Lemma py_truediv_overflow (a b : Z) :
  b <> 0 -> truediv_overflows a b = true ->
  py_truediv a b = Raise OverflowError.
Proof.
  intros Hb Hr. unfold py_truediv. rewrite Hr.
  destruct (Z.eqb_spec b 0) as [E | _]; [contradiction | reflexivity].
Qed.

(** A side length in range divides by every count from 2 on. *)
Lemma count_in_range (side count : Z) :
  in_double_range side -> 2 <= count -> truediv_overflows side count = false.
Proof.
  unfold in_double_range, truediv_overflows. intros Hs Hc.
  apply Z.leb_gt. pose proof double_overflow_pos. nia.
Qed.

Lemma two_out_of_range (side : Z) :
  ~ in_double_range side -> truediv_overflows side 2 = true.
Proof.
  unfold in_double_range, truediv_overflows. intros Hs.
  apply Z.leb_le. change (Z.abs 2) with 2. lia.
Qed.

(** One pass through the loop body, if it does not leave the range of a
    double: exactly one of [u], [v] grows by one, and [x], [y] take the
    values [u], [v] had when the guard held. *)
Lemma loop_body_outcome (xSide ySide : Z) (s : vars) :
  2 <= var_u s -> 2 <= var_v s ->
  (loop_body xSide ySide s = Raise OverflowError /\
   (truediv_overflows xSide (var_u s) = true \/
    truediv_overflows ySide (var_v s) = true)) \/
  (truediv_overflows xSide (var_u s) = false /\
   truediv_overflows ySide (var_v s) = false /\
   exists s', loop_body xSide ySide s = Ok s' /\
     var_x s' = var_u s /\ var_y s' = var_v s /\
     ((var_u s' = var_u s + 1 /\ var_v s' = var_v s) \/
      (var_u s' = var_u s /\ var_v s' = var_v s + 1))).
Proof.
  intros Hu Hv. unfold loop_body.
  destruct (truediv_overflows xSide (var_u s)) eqn:Ex.
  { left. rewrite py_truediv_overflow by (assumption || lia). auto. }
  rewrite (py_truediv_ok xSide) by (assumption || lia). cbn [bind].
  destruct (truediv_overflows ySide (var_v s)) eqn:Ey.
  { left. rewrite py_truediv_overflow by (assumption || lia). auto. }
  rewrite (py_truediv_ok ySide) by (assumption || lia). cbn [bind].
  right. split; [reflexivity |]. split; [reflexivity |].
  destruct (fgtb _ _); eexists; (split; [reflexivity |]); cbn; auto.
Qed.

Lemma loop_body_step (xSide ySide : Z) (s : vars) :
  in_double_range xSide -> in_double_range ySide ->
  2 <= var_u s -> 2 <= var_v s ->
  exists s', loop_body xSide ySide s = Ok s' /\
    var_x s' = var_u s /\ var_y s' = var_v s /\
    ((var_u s' = var_u s + 1 /\ var_v s' = var_v s) \/
     (var_u s' = var_u s /\ var_v s' = var_v s + 1)).
Proof.
  intros Hx Hy Hu Hv.
  destruct (loop_body_outcome xSide ySide s Hu Hv) as [[_ [E | E]] | (_ & _ & H)];
    [| | exact H].
  - now rewrite count_in_range in E.
  - now rewrite count_in_range in E.
Qed.

Lemma loop_body_product (xSide ySide : Z) (s s' : vars) :
  2 <= var_u s -> 2 <= var_v s ->
  loop_body xSide ySide s = Ok s' ->
  var_u s * var_v s < var_u s' * var_v s' /\ 2 <= var_u s' /\ 2 <= var_v s'.
Proof.
  intros Hu Hv Hs.
  destruct (loop_body_outcome xSide ySide s Hu Hv)
    as [[E _] | (_ & _ & s1 & E & _ & _ & Hstep)]; [congruence |].
  rewrite Hs in E. injection E as <-.
  destruct Hstep as [[-> ->] | [-> ->]]; nia.
Qed.

(** The loop from any state the script can reach, with side lengths in
    range: with more fuel than [maxSamplePoints + 1 - u * v] it leaves
    through the guard, and [x], [y] are either untouched or the last pair
    that passed the guard. *)
Lemma select_loop (xSide ySide maxp : Z) :
  in_double_range xSide -> in_double_range ySide ->
  forall (fuel : nat) (s : vars),
    2 <= var_u s -> 2 <= var_v s ->
    (Z.to_nat (maxp + 1 - var_u s * var_v s) < fuel)%nat ->
    exists s',
      while fuel (loop_cond maxp) (loop_body xSide ySide) s = Some (Ok s') /\
      ((var_x s' = var_x s /\ var_y s' = var_y s /\ maxp < var_u s * var_v s) \/
       (2 <= var_x s' /\ 2 <= var_y s' /\ var_x s' * var_y s' <= maxp)).
Proof.
  intros Rx Ry.
  induction fuel as [| n IH]; intros s Hu Hv Hfuel; [lia |].
  cbn [while]. unfold loop_cond at 1.
  destruct (Z.leb_spec (var_u s * var_v s) maxp) as [Hle | Hgt].
  - destruct (loop_body_step xSide ySide s Rx Ry Hu Hv) as (s1 & E & Hx & Hy & Hstep).
    rewrite E.
    destruct (loop_body_product xSide ySide s s1 Hu Hv E) as (Hprod & Hu1 & Hv1).
    destruct (IH s1 Hu1 Hv1) as (s' & Hrun & Hres); [lia |].
    exists s'. split; [exact Hrun |]. right.
    destruct Hres as [(Ex & Ey & _) | H]; [| exact H].
    rewrite Ex, Ey, Hx, Hy. repeat split; assumption.
  - exists s. split; [reflexivity |]. left. repeat split; assumption.
Qed.

(** Whatever the side lengths, the loop comes to an end within that fuel:
    through the guard or by an [OverflowError] of a division. *)
Lemma select_loop_ends (xSide ySide maxp : Z) :
  forall (fuel : nat) (s : vars),
    2 <= var_u s -> 2 <= var_v s ->
    (Z.to_nat (maxp + 1 - var_u s * var_v s) < fuel)%nat ->
    while fuel (loop_cond maxp) (loop_body xSide ySide) s = Some (Raise OverflowError) \/
    exists s',
      while fuel (loop_cond maxp) (loop_body xSide ySide) s = Some (Ok s') /\
      ((var_x s' = var_x s /\ var_y s' = var_y s /\ maxp < var_u s * var_v s) \/
       (2 <= var_x s' /\ 2 <= var_y s' /\ var_x s' * var_y s' <= maxp)).
Proof.
  induction fuel as [| n IH]; intros s Hu Hv Hfuel; [lia |].
  cbn [while]. destruct (loop_cond maxp s) eqn:Hc; unfold loop_cond in Hc;
    [apply Z.leb_le in Hc; rename Hc into Hle
    | apply Z.leb_gt in Hc; rename Hc into Hgt].
  - destruct (loop_body_outcome xSide ySide s Hu Hv)
      as [[E _] | (_ & _ & s1 & E & Hx & Hy & Hstep)]; rewrite E; [now left |].
    destruct (loop_body_product xSide ySide s s1 Hu Hv E) as (Hprod & Hu1 & Hv1).
    destruct (IH s1 Hu1 Hv1) as [Hovf | (s' & Hrun & Hres)]; [lia | now left |].
    right. exists s'. split; [exact Hrun |]. right.
    destruct Hres as [(Ex & Ey & _) | H]; [| exact H].
    rewrite Ex, Ey, Hx, Hy. repeat split; assumption.
  - right. exists s. split; [reflexivity |]. left. repeat split; assumption.
Qed.

(** Once the loop has come to an end, more fuel changes nothing. *)
Lemma while_more_fuel {S : Type} (cond : S -> bool) (body : S -> res S) :
  forall (fuel extra : nat) (s : S) (r : res S),
    while fuel cond body s = Some r ->
    while (fuel + extra) cond body s = Some r.
Proof.
  induction fuel as [| n IH]; intros extra s r H; [discriminate |].
  cbn [while Nat.add] in *.
  destruct (cond s); [| exact H].
  destruct (body s) as [s1 | e]; [apply IH; exact H | exact H].
Qed.

Lemma selectMeshInterval_fuel_ends (xMin xMax yMin yMax maxp : Z) (extra : nat) :
  selectMeshInterval_fuel (S (Z.to_nat maxp) + extra) xMin xMax yMin yMax maxp
    = Some (Raise OverflowError) \/
  exists x y,
    selectMeshInterval_fuel (S (Z.to_nat maxp) + extra) xMin xMax yMin yMax maxp
      = Some (Ok (x, y)) /\
    2 <= x /\ 2 <= y /\
    ((maxp < 4 /\ x = 2 /\ y = 2) \/ (4 <= maxp /\ x * y <= maxp)).
Proof.
  assert (Hfuel : (Z.to_nat (maxp + 1 - 2 * 2) < S (Z.to_nat maxp))%nat) by lia.
  unfold selectMeshInterval_fuel.
  destruct (select_loop_ends (xMax - xMin) (yMax - yMin) maxp
              (S (Z.to_nat maxp)) (mk_vars 2 2 2 2) ltac:(cbn; lia) ltac:(cbn; lia) Hfuel)
    as [Hrun | (s' & Hrun & Hres)];
    rewrite (while_more_fuel _ _ _ extra _ _ Hrun); [now left | right].
  exists (var_x s'), (var_y s'). split; [reflexivity |].
  cbn in Hres. destruct Hres as [(-> & -> & Hlt) | (Hx & Hy & Hle)].
  - lia.
  - split; [exact Hx |]. split; [exact Hy |]. right. split; [nia | exact Hle].
Qed.

(** The only exception of [selectMeshInterval] is the [OverflowError] of a
    division; otherwise it returns counts within the budget. *)
Lemma selectMeshInterval_outcome (xMin xMax yMin yMax maxp : Z) :
  selectMeshInterval xMin xMax yMin yMax maxp = Raise OverflowError \/
  exists x y,
    selectMeshInterval xMin xMax yMin yMax maxp = Ok (x, y) /\
    2 <= x /\ 2 <= y /\
    ((maxp < 4 /\ x = 2 /\ y = 2) \/ (4 <= maxp /\ x * y <= maxp)).
Proof.
  unfold selectMeshInterval.
  destruct (selectMeshInterval_fuel_ends xMin xMax yMin yMax maxp 0)
    as [Hrun | (x & y & Hrun & H)]; rewrite Nat.add_0_r in Hrun; rewrite Hrun.
  - now left.
  - right. exists x, y. split; [reflexivity | exact H].
Qed.

(** Below a budget of 4 the loop is not entered. *)
Lemma selectMeshInterval_small_budget (xMin xMax yMin yMax maxp : Z) :
  maxp < 4 -> selectMeshInterval xMin xMax yMin yMax maxp = Ok (2, 2).
Proof.
  intros Hlt. unfold selectMeshInterval, selectMeshInterval_fuel.
  cbn [while]. unfold loop_cond. cbn [var_u var_v].
  destruct (Z.leb_spec (2 * 2) maxp) as [Hle | _]; [lia | reflexivity].
Qed.

(** From a budget of 4 on the first pass divides both side lengths by 2. *)
Lemma selectMeshInterval_overflow (xMin xMax yMin yMax maxp : Z) :
  4 <= maxp ->
  ~ (in_double_range (xMax - xMin) /\ in_double_range (yMax - yMin)) ->
  selectMeshInterval xMin xMax yMin yMax maxp = Raise OverflowError.
Proof.
  intros Hmax Hout. unfold selectMeshInterval, selectMeshInterval_fuel.
  cbn [while]. unfold loop_cond at 1. cbn [var_u var_v].
  destruct (Z.leb_spec (2 * 2) maxp) as [_ | Hgt]; [| lia].
  unfold loop_body. cbn [var_u var_v].
  destruct (truediv_overflows (xMax - xMin) 2) eqn:Ex.
  { now rewrite py_truediv_overflow by (assumption || lia). }
  rewrite (py_truediv_ok (xMax - xMin)) by (assumption || lia). cbn [bind].
  rewrite py_truediv_overflow; [reflexivity | lia |].
  apply two_out_of_range. intros Hy. apply Hout. split; [| exact Hy].
  unfold in_double_range. unfold truediv_overflows in Ex.
  apply Z.leb_gt in Ex. change (Z.abs 2) with 2 in Ex. lia.
Qed.

Lemma selectMeshInterval_spec (xMin xMax yMin yMax maxp : Z) :
  in_double_range (xMax - xMin) -> in_double_range (yMax - yMin) ->
  exists x y,
    selectMeshInterval xMin xMax yMin yMax maxp = Ok (x, y) /\
    2 <= x /\ 2 <= y /\
    ((maxp < 4 /\ x = 2 /\ y = 2) \/ (4 <= maxp /\ x * y <= maxp)).
Proof.
  intros Rx Ry.
  assert (Hfuel : (Z.to_nat (maxp + 1 - 2 * 2) < S (Z.to_nat maxp))%nat) by lia.
  destruct (select_loop (xMax - xMin) (yMax - yMin) maxp Rx Ry
              (S (Z.to_nat maxp)) (mk_vars 2 2 2 2) ltac:(cbn; lia) ltac:(cbn; lia) Hfuel)
    as (s' & Hrun & Hres).
  unfold selectMeshInterval, selectMeshInterval_fuel. rewrite Hrun.
  exists (var_x s'), (var_y s'). split; [reflexivity |].
  cbn in Hres. destruct Hres as [(-> & -> & Hlt) | (Hx & Hy & Hle)].
  - lia.
  - split; [exact Hx |]. split; [exact Hy |]. right. split; [nia | exact Hle].
Qed.

(** C4 (as the code has it). Below a budget of 4 [selectMeshInterval]
    returns (2, 2) whatever the extents.  From a budget of 4 on it divides
    the two side lengths by the counts: when both side lengths are within
    the range of a double (their halves are), it returns two counts that
    are both at least 2 and whose product does not exceed the budget; when
    one of them is not, it raises [OverflowError] and returns nothing. *)
Theorem selectMeshInterval_counts :
  forall xMin xMax yMin yMax maxSamplePoints : Z,
    (maxSamplePoints < 4 ->
     selectMeshInterval xMin xMax yMin yMax maxSamplePoints = Ok (2, 2)) /\
    (4 <= maxSamplePoints ->
     in_double_range (xMax - xMin) -> in_double_range (yMax - yMin) ->
     exists xCount yCount : Z,
       selectMeshInterval xMin xMax yMin yMax maxSamplePoints = Ok (xCount, yCount) /\
       2 <= xCount /\ 2 <= yCount /\ xCount * yCount <= maxSamplePoints) /\
    (4 <= maxSamplePoints ->
     ~ (in_double_range (xMax - xMin) /\ in_double_range (yMax - yMin)) ->
     selectMeshInterval xMin xMax yMin yMax maxSamplePoints = Raise OverflowError).
Proof.
  intros xMin xMax yMin yMax maxp. split; [| split].
  - apply selectMeshInterval_small_budget.
  - intros Hmax Rx Ry.
    destruct (selectMeshInterval_spec xMin xMax yMin yMax maxp Rx Ry)
      as (x & y & E & Hx & Hy & H).
    exists x, y. repeat split; try assumption. lia.
  - apply selectMeshInterval_overflow.
Qed.

(** C8. The greedy loop of [selectMeshInterval] terminates for all extents
    and every budget.  From every state with counts of at least 2 a pass
    through the body either raises the [OverflowError] of a quotient out of
    the range of a double, which ends the loop, or adds one to exactly one
    count and strictly increases the product [u * v].  So some number of
    guard tests is enough for the loop to end, with counts or with that
    exception, however much more fuel is supplied. *)
Theorem selectMeshInterval_terminates :
  forall xMin xMax yMin yMax maxSamplePoints : Z,
    (forall s : vars, 2 <= var_u s -> 2 <= var_v s ->
      loop_body (xMax - xMin) (yMax - yMin) s = Raise OverflowError \/
      exists s' : vars,
        loop_body (xMax - xMin) (yMax - yMin) s = Ok s' /\
        var_u s' + var_v s' = var_u s + var_v s + 1 /\
        var_u s * var_v s < var_u s' * var_v s') /\
    (exists (tests : nat) (outcome : res (Z * Z)),
        (outcome = Raise OverflowError \/ exists counts, outcome = Ok counts) /\
        forall extra : nat,
          selectMeshInterval_fuel (tests + extra) xMin xMax yMin yMax maxSamplePoints
            = Some outcome).
Proof.
  intros xMin xMax yMin yMax maxp. split.
  - intros s Hu Hv.
    destruct (loop_body_outcome (xMax - xMin) (yMax - yMin) s Hu Hv)
      as [[E _] | (_ & _ & s' & E & _ & _ & Hstep)]; [now left | right].
    exists s'. split; [exact E |].
    destruct Hstep as [[-> ->] | [-> ->]]; split; nia.
  - exists (S (Z.to_nat maxp)).
    assert (Hfuel : (Z.to_nat (maxp + 1 - 2 * 2) < S (Z.to_nat maxp))%nat) by lia.
    destruct (select_loop_ends (xMax - xMin) (yMax - yMin) maxp
                (S (Z.to_nat maxp)) (mk_vars 2 2 2 2) ltac:(cbn; lia) ltac:(cbn; lia) Hfuel)
      as [Hrun | (s' & Hrun & _)].
    + exists (Raise OverflowError). split; [now left |]. intros extra.
      unfold selectMeshInterval_fuel.
      now rewrite (while_more_fuel _ _ _ extra _ _ Hrun).
    + exists (Ok (var_x s', var_y s')). split; [right; eauto |]. intros extra.
      unfold selectMeshInterval_fuel.
      now rewrite (while_more_fuel _ _ _ extra _ _ Hrun).
Qed.

End SelectMeshInterval.

Section TieBreak.

Context {F : Type} {PF : PyFloat F} {PO : PyFloatOrder F}.

Lemma spacing_lt (a b c d : Z) :
  0 < b -> 0 < d -> (spacing c d < spacing a b)%Q <-> c * b < a * d.
Proof.
  intros Hb Hd. unfold spacing, Qlt. cbn [Qnum Qden].
  now rewrite !Z2Pos.id by assumption.
Qed.

Lemma exact_bound_in_range : 2 ^ 51 < double_overflow.
Proof. reflexivity. Qed.

(** The greedy rule, with the two spacings compared by cross products. *)
Lemma greedy_step_cross (xSide ySide : Z) (s : vars) :
  0 < var_u s -> 0 < var_v s ->
  greedy_step xSide ySide s =
  if ySide * var_u s <? xSide * var_v s
  then mk_vars (var_u s + 1) (var_v s) (var_u s) (var_v s)
  else mk_vars (var_u s) (var_v s + 1) (var_u s) (var_v s).
Proof.
  intros Hu Hv. unfold greedy_step.
  pose proof (spacing_lt xSide (var_u s) ySide (var_v s) Hu Hv) as Hiff.
  destruct (Qlt_le_dec _ _) as [Hlt | Hle];
    destruct (Z.ltb_spec (ySide * var_u s) (xSide * var_v s)) as [Hc | Hc];
    try reflexivity.
  - apply Hiff in Hlt. lia.
  - apply Hiff in Hc. exfalso. exact (Qlt_not_le _ _ Hc Hle).
Qed.

(** A pass that completes gives x the next point only when the quotient
    of x compared greater, and then the exact spacing of x is the larger
    one. *)
Lemma loop_body_sound (xSide ySide : Z) (s s' : vars) :
  2 <= var_u s -> 2 <= var_v s ->
  loop_body xSide ySide s = Ok s' ->
  (s' = mk_vars (var_u s + 1) (var_v s) (var_u s) (var_v s) /\
   ySide * var_u s < xSide * var_v s) \/
  s' = mk_vars (var_u s) (var_v s + 1) (var_u s) (var_v s).
Proof.
  intros Hu Hv. unfold loop_body.
  destruct (truediv_overflows xSide (var_u s)) eqn:Ex.
  { rewrite py_truediv_overflow by (assumption || lia). discriminate. }
  rewrite (py_truediv_ok xSide) by (assumption || lia). cbn [bind].
  destruct (truediv_overflows ySide (var_v s)) eqn:Ey.
  { rewrite py_truediv_overflow by (assumption || lia). discriminate. }
  rewrite (py_truediv_ok ySide) by (assumption || lia). cbn [bind].
  destruct (fgtb _ _) eqn:G; intros E; injection E as <-; [left | now right].
  split; [reflexivity |].
  apply (fgtb_sound xSide (var_u s) ySide (var_v s)); assumption || lia.
Qed.

(** Where quotients are compared exactly the body is the greedy rule. *)
Lemma loop_body_exact (xSide ySide : Z) (s : vars) :
  2 <= var_u s < 2 ^ 51 -> 2 <= var_v s < 2 ^ 51 ->
  Z.abs xSide * var_v s < 2 ^ 51 -> Z.abs ySide * var_u s < 2 ^ 51 ->
  loop_body xSide ySide s = Ok (greedy_step xSide ySide s).
Proof.
  intros Hu Hv Hx Hy. rewrite greedy_step_cross by lia.
  pose proof exact_bound_in_range as HB. pose proof double_overflow_pos as HD.
  pose proof (Z.abs_nonneg xSide) as Hax. pose proof (Z.abs_nonneg ySide) as Hay.
  assert (Ex : truediv_overflows xSide (var_u s) = false).
  { unfold truediv_overflows. apply Z.leb_gt.
    rewrite (Z.abs_eq (var_u s)) by lia.
    revert HB Hx. generalize (2 ^ 51) (Z.abs xSide) Hax. intros B X HX0 HB Hx. nia. }
  assert (Ey : truediv_overflows ySide (var_v s) = false).
  { unfold truediv_overflows. apply Z.leb_gt.
    rewrite (Z.abs_eq (var_v s)) by lia.
    revert HB Hy. generalize (2 ^ 51) (Z.abs ySide) Hay. intros B Y HY0 HB Hy. nia. }
  unfold loop_body.
  rewrite (py_truediv_ok xSide), (py_truediv_ok ySide) by (assumption || lia).
  cbn [bind].
  destruct (Z.ltb_spec (ySide * var_u s) (xSide * var_v s)) as [Hlt | Hge].
  - now rewrite (fgtb_complete xSide (var_u s) ySide (var_v s)) by (assumption || lia).
  - destruct (fgtb _ _) eqn:G; [| reflexivity].
    apply (fgtb_sound xSide (var_u s) ySide (var_v s)) in G; assumption || lia.
Qed.

Lemma while_step {S : Type} (cond : S -> bool) (body : S -> res S)
  (n : nat) (s s' : S) :
  cond s = true -> body s = Ok s' ->
  while (Datatypes.S n) cond body s = while n cond body s'.
Proof. intros Hc Hb. cbn [while]. now rewrite Hc, Hb. Qed.

Lemma while_exit {S : Type} (cond : S -> bool) (body : S -> res S)
  (n : nat) (s : S) :
  cond s = false -> while (Datatypes.S n) cond body s = Some (Ok s).
Proof. intros Hc. cbn [while]. now rewrite Hc. Qed.

(** Within a budget all the quotients of the loop are compared exactly. *)
Lemma exactly_compared_state (xSide ySide maxp : Z) (s : vars) :
  exactly_compared xSide ySide maxp ->
  2 <= var_u s -> 2 <= var_v s -> var_u s * var_v s <= maxp ->
  2 <= var_u s < 2 ^ 51 /\ 2 <= var_v s < 2 ^ 51 /\
  Z.abs xSide * var_v s < 2 ^ 51 /\ Z.abs ySide * var_u s < 2 ^ 51.
Proof.
  intros (Hx & Hy & Hm) Hu Hv Hle.
  pose proof (Z.abs_nonneg xSide) as Hax. pose proof (Z.abs_nonneg ySide) as Hay.
  revert Hx Hy Hm. generalize (2 ^ 51) (Z.abs xSide) (Z.abs ySide) Hax Hay.
  intros B X Y HX0 HY0 Hx Hy Hm.
  assert (var_u s <= maxp) by nia. assert (var_v s <= maxp) by nia.
  repeat split; try lia; nia.
Qed.

(** The loop of the script walks as the greedy rule does. *)
Lemma select_loop_greedy (xSide ySide maxp : Z) :
  exactly_compared xSide ySide maxp ->
  forall (fuel : nat) (s s' : vars),
    2 <= var_u s -> 2 <= var_v s ->
    while fuel (loop_cond maxp) (loop_body xSide ySide) s = Some (Ok s') ->
    greedy_walk fuel xSide ySide maxp s = (var_x s', var_y s').
Proof.
  intros Hexact. induction fuel as [| n IH]; intros s s' Hu Hv Hrun; [discriminate |].
  cbn [while greedy_walk] in *. unfold loop_cond in Hrun at 1.
  destruct (Z.leb_spec (var_u s * var_v s) maxp) as [Hle | Hgt].
  - destruct (exactly_compared_state xSide ySide maxp s Hexact Hu Hv Hle)
      as (Bu & Bv & Bx & By).
    pose proof (loop_body_exact xSide ySide s Bu Bv Bx By) as E.
    rewrite E in Hrun.
    destruct (loop_body_product xSide ySide s _ Hu Hv E) as (_ & Hu1 & Hv1).
    exact (IH _ _ Hu1 Hv1 Hrun).
  - now injection Hrun as <-.
Qed.

Lemma selectMeshInterval_greedy (xMin xMax yMin yMax maxp : Z) :
  exactly_compared (xMax - xMin) (yMax - yMin) maxp ->
  selectMeshInterval xMin xMax yMin yMax maxp
  = Ok (greedy_counts (xMax - xMin) (yMax - yMin) maxp).
Proof.
  intros Hexact. destruct (Z.lt_ge_cases maxp 4) as [Hsmall | Hmax].
  - rewrite selectMeshInterval_small_budget by assumption.
    unfold greedy_counts. cbn [greedy_walk var_u var_v var_x var_y].
    destruct (Z.leb_spec (2 * 2) maxp) as [Hle | _]; [lia | reflexivity].
  - assert (Rx : in_double_range (xMax - xMin)).
    { destruct Hexact as (Hx & _ & _). unfold in_double_range.
      pose proof exact_bound_in_range as HB.
      pose proof (Z.abs_nonneg (xMax - xMin)) as Ha.
      revert HB Hx. generalize (2 ^ 51) (Z.abs (xMax - xMin)) Ha. intros B X HX0 HB Hx. nia. }
    assert (Ry : in_double_range (yMax - yMin)).
    { destruct Hexact as (_ & Hy & _). unfold in_double_range.
      pose proof exact_bound_in_range as HB.
      pose proof (Z.abs_nonneg (yMax - yMin)) as Ha.
      revert HB Hy. generalize (2 ^ 51) (Z.abs (yMax - yMin)) Ha. intros B Y HY0 HB Hy. nia. }
    assert (Hfuel : (Z.to_nat (maxp + 1 - 2 * 2) < S (Z.to_nat maxp))%nat) by lia.
    destruct (select_loop (xMax - xMin) (yMax - yMin) maxp Rx Ry
                (S (Z.to_nat maxp)) (mk_vars 2 2 2 2) ltac:(cbn; lia) ltac:(cbn; lia) Hfuel)
      as (s' & Hrun & _).
    unfold selectMeshInterval, selectMeshInterval_fuel. rewrite Hrun.
    unfold greedy_counts.
    now rewrite (select_loop_greedy _ _ _ Hexact _ (mk_vars 2 2 2 2) s'
                   ltac:(cbn; lia) ltac:(cbn; lia) Hrun).
Qed.

(** C5 (as the code has it). A pass of the greedy loop compares the two
    quotients [extent / count] as doubles.  A pass that completes (no
    quotient out of the range of a double) gives the next point to x only
    if the spacing of x is strictly larger, and to y otherwise; on equal
    spacings it always completes and gives it to y.  When the side lengths
    times the budget stay below [2**51], the doubles compare as the exact
    spacings do: every pass is the greedy step on exact spacings, larger
    spacing first and ties to y, and [selectMeshInterval] returns the
    counts of the greedy walk.  For extents of 100 by 100 and a budget of
    6 the result is (2, 3). *)
Theorem selectMeshInterval_tie_break :
  (forall (xSideLength ySideLength : Z) (s s' : vars),
      2 <= var_u s -> 2 <= var_v s ->
      loop_body xSideLength ySideLength s = Ok s' ->
      (s' = mk_vars (var_u s + 1) (var_v s) (var_u s) (var_v s) /\
       (spacing ySideLength (var_v s) < spacing xSideLength (var_u s))%Q) \/
      s' = mk_vars (var_u s) (var_v s + 1) (var_u s) (var_v s)) /\
  (forall (xSideLength ySideLength : Z) (s : vars),
      2 <= var_u s -> 2 <= var_v s ->
      in_double_range xSideLength -> in_double_range ySideLength ->
      (spacing xSideLength (var_u s) == spacing ySideLength (var_v s))%Q ->
      loop_body xSideLength ySideLength s =
      Ok (mk_vars (var_u s) (var_v s + 1) (var_u s) (var_v s))) /\
  (forall (xSideLength ySideLength maxSamplePoints : Z) (s : vars),
      exactly_compared xSideLength ySideLength maxSamplePoints ->
      2 <= var_u s -> 2 <= var_v s ->
      var_u s * var_v s <= maxSamplePoints ->
      loop_body xSideLength ySideLength s =
      Ok (if Qlt_le_dec (spacing ySideLength (var_v s)) (spacing xSideLength (var_u s))
          then mk_vars (var_u s + 1) (var_v s) (var_u s) (var_v s)
          else mk_vars (var_u s) (var_v s + 1) (var_u s) (var_v s))) /\
  (forall xMin xMax yMin yMax maxSamplePoints : Z,
      exactly_compared (xMax - xMin) (yMax - yMin) maxSamplePoints ->
      selectMeshInterval xMin xMax yMin yMax maxSamplePoints
      = Ok (greedy_counts (xMax - xMin) (yMax - yMin) maxSamplePoints)) /\
  selectMeshInterval 0 100 0 100 6 = Ok (2, 3).
Proof.
  split; [| split; [| split; [| split]]].
  - intros xs ys s s' Hu Hv E.
    destruct (loop_body_sound xs ys s s' Hu Hv E) as [[-> Hlt] | ->]; [left | now right].
    split; [reflexivity |].
    exact (proj2 (spacing_lt xs (var_u s) ys (var_v s) ltac:(lia) ltac:(lia)) Hlt).
  - intros xs ys s Hu Hv Rx Ry Heq.
    destruct (loop_body_step xs ys s Rx Ry Hu Hv) as (s' & E & _).
    rewrite E. f_equal.
    destruct (loop_body_sound xs ys s s' Hu Hv E) as [[_ Hlt] | ->]; [| reflexivity].
    apply (proj2 (spacing_lt xs (var_u s) ys (var_v s) ltac:(lia) ltac:(lia))) in Hlt.
    rewrite Heq in Hlt. exfalso. exact (Qlt_irrefl _ Hlt).
  - intros xs ys maxp s Hexact Hu Hv Hle.
    destruct (exactly_compared_state xs ys maxp s Hexact Hu Hv Hle)
      as (Bu & Bv & Bx & By).
    exact (loop_body_exact xs ys s Bu Bv Bx By).
  - exact selectMeshInterval_greedy.
  - rewrite selectMeshInterval_greedy; [reflexivity |].
    unfold exactly_compared. repeat split; reflexivity.
Qed.

End TieBreak.

(** ** More on the greedy loop *)

Section SelectMeshIntervalMore.

Context {F : Type} {PF : PyFloat F}.

(** A property of the loop variables that every pass through the body
    keeps holds when the loop is left, together with the failed guard. *)
Lemma select_loop_invariant (xSide ySide maxp : Z) (I : vars -> Prop) :
  in_double_range xSide -> in_double_range ySide ->
  (forall s s' : vars,
      2 <= var_u s -> 2 <= var_v s -> I s ->
      var_u s * var_v s <= maxp ->
      loop_body xSide ySide s = Ok s' -> I s') ->
  forall (fuel : nat) (s : vars),
    2 <= var_u s -> 2 <= var_v s -> I s ->
    (Z.to_nat (maxp + 1 - var_u s * var_v s) < fuel)%nat ->
    exists s',
      while fuel (loop_cond maxp) (loop_body xSide ySide) s = Some (Ok s') /\
      I s' /\ maxp < var_u s' * var_v s'.
Proof.
  intros Rx Ry Hkeep. induction fuel as [| n IH]; intros s Hu Hv HI Hfuel; [lia |].
  cbn [while]. unfold loop_cond at 1.
  destruct (Z.leb_spec (var_u s * var_v s) maxp) as [Hle | Hgt].
  - destruct (loop_body_step xSide ySide s Rx Ry Hu Hv) as (s1 & E & _).
    rewrite E.
    destruct (loop_body_product xSide ySide s s1 Hu Hv E) as (Hprod & Hu1 & Hv1).
    apply (IH s1 Hu1 Hv1); [exact (Hkeep s s1 Hu Hv HI Hle E) | lia].
  - exists s. repeat split; assumption.
Qed.

Lemma selectMeshInterval_invariant (xMin xMax yMin yMax maxp : Z) (I : vars -> Prop) :
  in_double_range (xMax - xMin) -> in_double_range (yMax - yMin) ->
  (forall s s' : vars,
      2 <= var_u s -> 2 <= var_v s -> I s ->
      var_u s * var_v s <= maxp ->
      loop_body (xMax - xMin) (yMax - yMin) s = Ok s' -> I s') ->
  I (mk_vars 2 2 2 2) ->
  exists s',
    selectMeshInterval xMin xMax yMin yMax maxp = Ok (var_x s', var_y s') /\
    I s' /\ maxp < var_u s' * var_v s'.
Proof.
  intros Rx Ry Hkeep Hinit.
  assert (Hfuel : (Z.to_nat (maxp + 1 - 2 * 2) < S (Z.to_nat maxp))%nat) by lia.
  destruct (select_loop_invariant (xMax - xMin) (yMax - yMin) maxp I Rx Ry Hkeep
              (S (Z.to_nat maxp)) (mk_vars 2 2 2 2)
              ltac:(cbn; lia) ltac:(cbn; lia) Hinit Hfuel)
    as (s' & Hrun & HI & Hexit).
  exists s'. split; [| split; assumption].
  unfold selectMeshInterval, selectMeshInterval_fuel. now rewrite Hrun.
Qed.

(** X1. With a budget of at least 4 and side lengths within the range of
    a double, the returned counts use the budget up in the greedy sense:
    one more point on one of the two axes would exceed
    [maxSamplePoints]. *)
Theorem selectMeshInterval_exhausts_budget :
  forall xMin xMax yMin yMax maxSamplePoints : Z,
    4 <= maxSamplePoints ->
    in_double_range (xMax - xMin) -> in_double_range (yMax - yMin) ->
    exists xCount yCount : Z,
      selectMeshInterval xMin xMax yMin yMax maxSamplePoints = Ok (xCount, yCount) /\
      (maxSamplePoints < (xCount + 1) * yCount \/
       maxSamplePoints < xCount * (yCount + 1)).
Proof.
  intros xMin xMax yMin yMax maxp Hmax Rx Ry.
  destruct (selectMeshInterval_invariant xMin xMax yMin yMax maxp
              (fun s => (var_u s = 2 /\ var_v s = 2) \/
                        (var_u s = var_x s + 1 /\ var_v s = var_y s) \/
                        (var_u s = var_x s /\ var_v s = var_y s + 1)) Rx Ry)
    as (s' & Hres & HI & Hexit).
  - intros s s1 Hu Hv _ _ E.
    destruct (loop_body_step (xMax - xMin) (yMax - yMin) s Rx Ry Hu Hv)
      as (s2 & E2 & Hx & Hy & Hstep).
    rewrite E in E2. injection E2 as <-. right.
    destruct Hstep as [[-> ->] | [-> ->]]; rewrite Hx, Hy; [left | right]; split; reflexivity.
  - left. split; reflexivity.
  - exists (var_x s'), (var_y s'). split; [exact Hres |].
    destruct HI as [[Hu Hv] | [[Hu Hv] | [Hu Hv]]]; rewrite Hu, Hv in Hexit.
    + lia.
    + left. exact Hexit.
    + right. exact Hexit.
Qed.

(** Along the loop [x] and [y] never decrease. *)
Lemma select_loop_grows (xSide ySide maxp : Z) :
  in_double_range xSide -> in_double_range ySide ->
  forall (fuel : nat) (s : vars),
    2 <= var_u s -> 2 <= var_v s ->
    var_x s <= var_u s -> var_y s <= var_v s ->
    (Z.to_nat (maxp + 1 - var_u s * var_v s) < fuel)%nat ->
    exists s',
      while fuel (loop_cond maxp) (loop_body xSide ySide) s = Some (Ok s') /\
      var_x s <= var_x s' /\ var_y s <= var_y s'.
Proof.
  intros Rx Ry.
  induction fuel as [| n IH]; intros s Hu Hv Hx Hy Hfuel; [lia |].
  cbn [while]. unfold loop_cond at 1.
  destruct (Z.leb_spec (var_u s * var_v s) maxp) as [Hle | Hgt].
  - destruct (loop_body_step xSide ySide s Rx Ry Hu Hv) as (s1 & E & Hx1 & Hy1 & Hstep).
    rewrite E.
    destruct (loop_body_product xSide ySide s s1 Hu Hv E) as (Hprod & Hu1 & Hv1).
    destruct (IH s1 Hu1 Hv1) as (s' & Hrun & Hgx & Hgy);
      [destruct Hstep as [[? ?] | [? ?]]; lia ..| ].
    exists s'. split; [exact Hrun |]. lia.
  - exists s. split; [reflexivity |]. lia.
Qed.

(** Two budgets, one walk: the loop for the smaller budget stops first. *)
Lemma select_loop_monotone (xSide ySide small large : Z) :
  in_double_range xSide -> in_double_range ySide ->
  small <= large ->
  forall (fuel : nat) (s : vars),
    2 <= var_u s -> 2 <= var_v s ->
    var_x s <= var_u s -> var_y s <= var_v s ->
    (Z.to_nat (large + 1 - var_u s * var_v s) < fuel)%nat ->
    exists s1 s2,
      while fuel (loop_cond small) (loop_body xSide ySide) s = Some (Ok s1) /\
      while fuel (loop_cond large) (loop_body xSide ySide) s = Some (Ok s2) /\
      var_x s1 <= var_x s2 /\ var_y s1 <= var_y s2.
Proof.
  intros Rx Ry Hsl. induction fuel as [| n IH]; intros s Hu Hv Hx Hy Hfuel; [lia |].
  destruct (Z.leb_spec (var_u s * var_v s) small) as [Hle | Hgt].
  - cbn [while]. unfold loop_cond at 1 3.
    destruct (Z.leb_spec (var_u s * var_v s) small) as [_ | ?]; [| lia].
    destruct (Z.leb_spec (var_u s * var_v s) large) as [_ | ?]; [| lia].
    destruct (loop_body_step xSide ySide s Rx Ry Hu Hv) as (s' & E & Hx1 & Hy1 & Hstep).
    rewrite E.
    destruct (loop_body_product xSide ySide s s' Hu Hv E) as (Hprod & Hu1 & Hv1).
    apply (IH s' Hu1 Hv1); destruct Hstep as [[? ?] | [? ?]]; lia.
  - destruct (select_loop_grows xSide ySide large Rx Ry (S n) s Hu Hv Hx Hy Hfuel)
      as (s2 & Hrun & Hgx & Hgy).
    exists s, s2. split; [| split; [exact Hrun | split; assumption]].
    cbn [while]. unfold loop_cond at 1.
    now destruct (Z.leb_spec (var_u s * var_v s) small) as [? | _]; [lia |].
Qed.

(** The result of [selectMeshInterval] can be read off any longer run of
    the loop. *)
Lemma selectMeshInterval_of_run (xMin xMax yMin yMax maxp : Z) (extra : nat) (s : vars) :
  in_double_range (xMax - xMin) -> in_double_range (yMax - yMin) ->
  while (S (Z.to_nat maxp) + extra) (loop_cond maxp)
        (loop_body (xMax - xMin) (yMax - yMin)) (mk_vars 2 2 2 2) = Some (Ok s) ->
  selectMeshInterval xMin xMax yMin yMax maxp = Ok (var_x s, var_y s).
Proof.
  intros Rx Ry Hrun.
  assert (Hfuel : (Z.to_nat (maxp + 1 - 2 * 2) < S (Z.to_nat maxp))%nat) by lia.
  destruct (select_loop (xMax - xMin) (yMax - yMin) maxp Rx Ry
              (S (Z.to_nat maxp)) (mk_vars 2 2 2 2) ltac:(cbn; lia) ltac:(cbn; lia) Hfuel)
    as (t & W & _).
  unfold selectMeshInterval, selectMeshInterval_fuel. rewrite W.
  apply (while_more_fuel _ _ _ extra) in W. rewrite Hrun in W.
  now injection W as <-.
Qed.

(** X2. For side lengths within the range of a double, a larger budget
    never gives fewer points on either axis. *)
Theorem selectMeshInterval_monotone :
  forall xMin xMax yMin yMax small large : Z,
    in_double_range (xMax - xMin) -> in_double_range (yMax - yMin) ->
    small <= large ->
    exists x1 y1 x2 y2 : Z,
      selectMeshInterval xMin xMax yMin yMax small = Ok (x1, y1) /\
      selectMeshInterval xMin xMax yMin yMax large = Ok (x2, y2) /\
      x1 <= x2 /\ y1 <= y2.
Proof.
  intros xMin xMax yMin yMax small large Rx Ry Hsl.
  destruct (select_loop_monotone (xMax - xMin) (yMax - yMin) small large Rx Ry Hsl
              (S (Z.to_nat small) + S (Z.to_nat large)) (mk_vars 2 2 2 2))
    as (s1 & s2 & Hrun1 & Hrun2 & Hx & Hy); try (cbn; lia).
  exists (var_x s1), (var_y s1), (var_x s2), (var_y s2).
  split; [exact (selectMeshInterval_of_run _ _ _ _ _ _ _ Rx Ry Hrun1) |].
  split; [| split; assumption].
  rewrite Nat.add_comm in Hrun2.
  exact (selectMeshInterval_of_run _ _ _ _ _ _ _ Rx Ry Hrun2).
Qed.

End SelectMeshIntervalMore.

Section SelectMeshIntervalExact.

Context {F : Type} {PF : PyFloat F} {PO : PyFloatOrder F}.

(** X3. On a square bed (equal, positive side lengths, small enough for
    the quotients to be compared exactly) the grid is as square as the
    budget allows: the y count is the x count or one more. *)
Theorem selectMeshInterval_square_bed :
  forall xMin yMin side maxSamplePoints : Z,
    0 < side ->
    exactly_compared side side maxSamplePoints ->
    exists xCount yCount : Z,
      selectMeshInterval xMin (xMin + side) yMin (yMin + side) maxSamplePoints
        = Ok (xCount, yCount) /\
      (yCount = xCount \/ yCount = xCount + 1).
Proof.
  intros xMin yMin side maxp Hside Hexact.
  destruct (Z.lt_ge_cases maxp 4) as [Hsmall | Hmax].
  { exists 2, 2. split; [now apply selectMeshInterval_small_budget | now left]. }
  assert (Rs : in_double_range side).
  { destruct Hexact as (Hx & _ & _). unfold in_double_range.
    pose proof exact_bound_in_range as HB. pose proof (Z.abs_nonneg side) as Ha.
    revert HB Hx. generalize (2 ^ 51) (Z.abs side) Ha. intros B X HX0 HB Hx. nia. }
  destruct (selectMeshInterval_invariant xMin (xMin + side) yMin (yMin + side) maxp
              (fun s => (var_v s = var_u s \/ var_v s = var_u s + 1) /\
                        (var_y s = var_x s \/ var_y s = var_x s + 1)))
    as (s' & Hres & [_ HI] & _).
  - now replace (xMin + side - xMin) with side by lia.
  - now replace (yMin + side - yMin) with side by lia.
  - intros s s1 Hu Hv [Huv _] Hle E.
    replace (xMin + side - xMin) with side in E by lia.
    replace (yMin + side - yMin) with side in E by lia.
    destruct (exactly_compared_state side side maxp s Hexact Hu Hv Hle)
      as (Bu & Bv & Bx & By).
    rewrite (loop_body_exact side side s Bu Bv Bx By) in E.
    rewrite greedy_step_cross in E by lia.
    destruct (Z.ltb_spec (side * var_u s) (side * var_v s)) as [Hlt | Hge];
      injection E as <-; cbn [var_u var_v var_x var_y]; split; try assumption; nia.
  - cbn [var_u var_v var_x var_y]. split; left; reflexivity.
  - exists (var_x s'), (var_y s'). split; assumption.
Qed.

(** X4. When the x extent is empty or reversed ([xMax <= xMin]), the y
    extent is not reversed and both side lengths are within the range of a
    double, every point beyond the first two goes to y: [xCount] stays 2
    and [yCount] is the largest count with
    [2 * yCount <= maxSamplePoints]. *)
Theorem selectMeshInterval_flat_x :
  forall xMin xMax yMin yMax maxSamplePoints : Z,
    xMax <= xMin -> yMin <= yMax -> 4 <= maxSamplePoints ->
    in_double_range (xMax - xMin) -> in_double_range (yMax - yMin) ->
    exists yCount : Z,
      selectMeshInterval xMin xMax yMin yMax maxSamplePoints = Ok (2, yCount) /\
      2 * yCount <= maxSamplePoints < 2 * (yCount + 1).
Proof.
  intros xMin xMax yMin yMax maxp Hx Hy Hmax Rx Ry.
  destruct (selectMeshInterval_invariant xMin xMax yMin yMax maxp
              (fun s => var_u s = 2 /\ var_x s = 2 /\
                        ((var_v s = 2 /\ var_y s = 2) \/
                         (var_v s = var_y s + 1 /\ 2 * var_y s <= maxp))) Rx Ry)
    as (s' & Hres & (Hu' & Hx' & Hvy) & Hexit).
  - intros s s1 Hu Hv (Hu2 & Hx2 & _) Hle E.
    destruct (loop_body_sound _ _ s s1 Hu Hv E) as [[_ Hlt] | ->]; [nia |].
    cbn [var_u var_v var_x var_y]. repeat split; try assumption.
    right. split; [reflexivity | rewrite Hu2 in Hle; exact Hle].
  - cbn [var_u var_v var_x var_y]. repeat split; try reflexivity. left. split; reflexivity.
  - exists (var_y s'). rewrite Hx' in Hres. split; [exact Hres |].
    rewrite Hu' in Hexit. destruct Hvy as [[Hv Hy'] | [Hv Hle]]; lia.
Qed.

End SelectMeshIntervalExact.

(* ===================================================================== *)
(** * Properties of [dsfPath] *)
(* ===================================================================== *)

Lemma startswith_cons (c : ascii) (s p : string) :
  startswith (String c s) (String c p) = startswith s p.
Proof.
  unfold startswith. cbn. destruct (ascii_dec c c) as [_ | H]; [reflexivity | now destruct H].
Qed.

Lemma startswith_head (s : string) (c : ascii) :
  startswith s (String c EmptyString) = true -> exists r, s = String c r.
Proof.
  unfold startswith. destruct s as [| a r]; cbn; [discriminate |].
  destruct (ascii_dec c a) as [<- | _]; [| discriminate]. intros _. now exists r.
Qed.

(** X6. In DSF mode every converted path is relative to the working
    directory: it begins with [./], whatever the raw path is.  Outside DSF
    mode the path is left as it is. *)
Theorem dsfPath_is_relative :
  forall rawPath : string,
    startswith (dsfPath rawPath true) "./" = true /\
    dsfPath rawPath false = rawPath.
Proof.
  intros rawPath. split; [| reflexivity].
  unfold dsfPath.
  set (p := if startswith rawPath "0:" || startswith rawPath "1:"
            then drop 2 rawPath else rawPath).
  destruct (startswith p "/") eqn:E.
  - apply startswith_head in E. destruct E as (r & ->).
    cbn [append]. rewrite !startswith_cons. now destruct r.
  - cbn [append]. rewrite !startswith_cons. now destruct p.
Qed.

(** X7. In DSF mode a leading drive designation [0:] or [1:] is dropped, and
    a relative path names the file of that name under [/sys/]: for a path
    without drive designation, prefixing [0:] or [1:] changes nothing, and
    if the path is relative, neither does prefixing [/sys/]. *)
Theorem dsfPath_drive_and_sys :
  forall rawPath : string,
    startswith rawPath "0:" = false ->
    startswith rawPath "1:" = false ->
    dsfPath ("0:" ++ rawPath) true = dsfPath rawPath true /\
    dsfPath ("1:" ++ rawPath) true = dsfPath rawPath true /\
    (startswith rawPath "/" = false ->
     dsfPath ("/sys/" ++ rawPath) true = dsfPath rawPath true /\
     dsfPath rawPath true = ("./sys/" ++ rawPath)%string).
Proof.
  intros rawPath H0 H1. unfold dsfPath. rewrite H0, H1. cbn [orb append].
  rewrite !startswith_cons.
  replace (startswith rawPath "") with true by now destruct rawPath.
  cbn [orb drop].
  split; [reflexivity |]. split.
  - destruct (startswith (String "1" (String ":" rawPath)) "0:") eqn:E;
      reflexivity.
  - intros Hrel. rewrite Hrel.
    assert (E0 : startswith (String "/" (String "s" (String "y" (String "s"
                   (String "/" rawPath))))) "0:" = false)
      by (unfold startswith; cbn; now destruct (ascii_dec "0" "/")).
    assert (E1 : startswith (String "/" (String "s" (String "y" (String "s"
                   (String "/" rawPath))))) "1:" = false)
      by (unfold startswith; cbn; now destruct (ascii_dec "1" "/")).
    rewrite E0, E1. cbn [orb]. rewrite startswith_cons.
    replace (startswith (String "s" (String "y" (String "s" (String "/" rawPath)))) "")
      with true by reflexivity.
    split; reflexivity.
Qed.

(* ===================================================================== *)
(** * Properties of [parseProbedPoints] and [averageZOffset] *)
(* ===================================================================== *)

Section Aggregation.

Context {F : Type} {PF : PyFloat F} {PE : PyFloatEq F}.

Lemma coord_eqb_refl (k : coordinate) : coord_eqb k k = true.
Proof. unfold coord_eqb. now rewrite !feqb_refl. Qed.

Lemma coord_eqb_sym (a b : coordinate) : coord_eqb a b = coord_eqb b a.
Proof.
  unfold coord_eqb. now rewrite (feqb_sym (fst a)), (feqb_sym (snd a)).
Qed.

Lemma coord_eqb_trans (a b c : coordinate) :
  coord_eqb a b = true -> coord_eqb b c = true -> coord_eqb a c = true.
Proof.
  unfold coord_eqb. rewrite !andb_true_iff.
  intros [H1 H2] [H3 H4]. split; eapply feqb_trans; eassumption.
Qed.

Lemma coord_eqb_apart (a e k : coordinate) :
  coord_eqb a k = false -> coord_eqb e k = true -> coord_eqb a e = false.
Proof.
  intros Hak Hek. destruct (coord_eqb a e) eqn:E; [| reflexivity].
  now rewrite (coord_eqb_trans a e k E Hek) in Hak.
Qed.

Lemma filter_none {A : Type} (p : A -> bool) (l : list A) :
  (forall a, In a l -> p a = false) -> filter p l = [].
Proof.
  induction l as [| a l IH]; intros H; [reflexivity |].
  cbn. rewrite (H a (or_introl eq_refl)). apply IH. intros b Hb. apply H. now right.
Qed.

Lemma combine_fst_snd {A B : Type} (l : list (A * B)) :
  combine (map fst l) (map snd l) = l.
Proof. induction l as [| [a b] l IH]; cbn; [reflexivity | now rewrite IH]. Qed.

(** ** Distinct coordinates in order of first occurrence *)

Lemma existsb_filter_other (a k : coordinate) (l : list coordinate) :
  coord_eqb a k = false ->
  existsb (fun k' => coord_eqb k' k) (filter (fun k' => negb (coord_eqb a k')) l)
  = existsb (fun k' => coord_eqb k' k) l.
Proof.
  intros Hak. induction l as [| e l IH]; [reflexivity |].
  cbn. destruct (coord_eqb a e) eqn:Eae; cbn.
  - destruct (coord_eqb e k) eqn:Eek; [| exact IH].
    rewrite (coord_eqb_apart a e k Hak Eek) in Eae. discriminate.
  - now rewrite IH.
Qed.

Lemma first_seen_snoc (l : list coordinate) (k : coordinate) :
  first_seen (l ++ [k]) =
  if existsb (fun k' => coord_eqb k' k) (first_seen l)
  then first_seen l else first_seen l ++ [k].
Proof.
  induction l as [| a l IH]; [reflexivity |].
  cbn. rewrite IH. destruct (coord_eqb a k) eqn:Eak; cbn.
  - destruct (existsb _ (first_seen l)); [reflexivity |].
    rewrite filter_app. cbn. rewrite Eak. cbn. now rewrite app_nil_r.
  - rewrite (existsb_filter_other a k _ Eak).
    destruct (existsb _ (first_seen l)); [reflexivity |].
    rewrite filter_app. cbn. now rewrite Eak.
Qed.

Lemma pairwise_distinct_filter (p : coordinate -> bool) (l : list coordinate) :
  pairwise_distinct l -> pairwise_distinct (filter p l).
Proof.
  induction 1 as [| a l Hall Hrest IH]; cbn; [constructor |].
  destruct (p a); [| exact IH].
  constructor; [| exact IH].
  rewrite Forall_forall in *. intros b Hb. apply Hall.
  apply filter_In in Hb. tauto.
Qed.

Lemma first_seen_distinct (l : list coordinate) : pairwise_distinct (first_seen l).
Proof.
  induction l as [| a l IH]; cbn; constructor.
  - rewrite Forall_forall. intros b Hb. apply filter_In in Hb.
    destruct Hb as [_ Hb]. now apply negb_true_iff in Hb.
  - now apply pairwise_distinct_filter.
Qed.

Lemma first_seen_incl (l : list coordinate) (k : coordinate) :
  In k (first_seen l) -> In k l.
Proof.
  induction l as [| a l IH]; cbn; [tauto |].
  intros [-> | H]; [now left | right].
  apply IH. apply filter_In in H. tauto.
Qed.

Lemma first_seen_covers (l : list coordinate) (k : coordinate) :
  In k l -> existsb (fun k' => coord_eqb k' k) (first_seen l) = true.
Proof.
  induction l as [| a l IH]; cbn; [tauto |].
  intros [-> | Hin]; [now rewrite coord_eqb_refl |].
  destruct (coord_eqb a k) eqn:E; [reflexivity |]. cbn.
  rewrite (existsb_filter_other a k _ E). now apply IH.
Qed.

(** Among pairwise distinct coordinates exactly one is [==] to a
    coordinate that has a match at all. *)
Lemma distinct_one_match (l : list coordinate) (k : coordinate) :
  pairwise_distinct l ->
  existsb (fun k' => coord_eqb k' k) l = true ->
  List.length (filter (fun k' => coord_eqb k' k) l) = 1%nat.
Proof.
  induction 1 as [| a l Hall Hrest IH]; cbn; [discriminate |].
  destruct (coord_eqb a k) eqn:E; cbn.
  - intros _. rewrite filter_none; [reflexivity |].
    intros b Hb. rewrite Forall_forall in Hall.
    destruct (coord_eqb b k) eqn:Eb; [| reflexivity].
    rewrite coord_eqb_sym in Eb.
    specialize (Hall b Hb). cbn in Hall.
    rewrite (coord_eqb_trans a k b E Eb) in Hall. discriminate.
  - exact IH.
Qed.

(** ** The dict operations *)

Lemma dict_contains_existsb (d : dict) (k : coordinate) :
  dict_contains d k = existsb (fun k' => coord_eqb k' k) (map fst d).
Proof.
  induction d as [| [k' v] d IH]; cbn; [reflexivity | now rewrite IH].
Qed.

Lemma dict_setitem_new (d : dict) (k : coordinate) (v : list F) :
  dict_contains d k = false -> dict_setitem d k v = d ++ [(k, v)].
Proof.
  induction d as [| [k' v'] d IH]; cbn; [reflexivity |].
  intros H. apply orb_false_iff in H. destruct H as [H1 H2].
  rewrite H1. now rewrite IH.
Qed.

Lemma dict_append_spec (d : dict) (k : coordinate) (z : F) :
  pairwise_distinct (map fst d) ->
  dict_contains d k = true ->
  dict_append d k z = Ok (map (add_observation k z) d).
Proof.
  induction d as [| [k' v] d IH]; cbn; [discriminate |].
  intros Hd Hc. inversion Hd as [| ? ? Hall Hrest]; subst.
  unfold add_observation at 1. cbn. destruct (coord_eqb k' k) eqn:E.
  - do 2 f_equal. rewrite <- (map_id d) at 1. apply map_ext_in.
    intros [k2 v2] Hin. unfold add_observation. cbn.
    rewrite Forall_forall in Hall.
    assert (H2 : coord_eqb k' k2 = false)
      by (apply Hall; apply in_map_iff; now exists (k2, v2)).
    destruct (coord_eqb k2 k) eqn:E2; [| now rewrite app_nil_r].
    rewrite coord_eqb_sym in E2.
    rewrite (coord_eqb_trans k' k k2 E E2) in H2. discriminate.
  - cbn in Hc. rewrite (IH Hrest Hc). cbn. now rewrite app_nil_r.
Qed.

Lemma observations_snoc (k : coordinate) (pre : list sample) (s : sample) :
  observations k (pre ++ [s]) =
  observations k pre ++ (if coord_eqb k (sample_xy s) then [sample_z s] else []).
Proof.
  unfold observations. rewrite filter_app, map_app. cbn.
  now destruct (coord_eqb k (sample_xy s)).
Qed.

Lemma observations_unseen (k : coordinate) (pre : list sample) :
  existsb (fun k' => coord_eqb k' k) (first_seen (map sample_xy pre)) = false ->
  observations k pre = [].
Proof.
  intros Hno. unfold observations. rewrite filter_none; [reflexivity |].
  intros s Hs. destruct (coord_eqb k (sample_xy s)) eqn:E; [| reflexivity].
  assert (Hcov := first_seen_covers (map sample_xy pre) (sample_xy s)
                    (in_map sample_xy pre s Hs)).
  apply existsb_exists in Hcov. destruct Hcov as (k' & Hin & Hk').
  rewrite coord_eqb_sym in E.
  assert (Hyes : existsb (fun k0 => coord_eqb k0 k)
                   (first_seen (map sample_xy pre)) = true).
  { apply existsb_exists. exists k'. split; [exact Hin |].
    exact (coord_eqb_trans _ _ _ Hk' E). }
  rewrite Hyes in Hno. discriminate.
Qed.

Lemma observations_seen (k : coordinate) (samples : list sample) :
  In k (first_seen (map sample_xy samples)) -> observations k samples <> [].
Proof.
  intros Hin. apply first_seen_incl in Hin. apply in_map_iff in Hin.
  destruct Hin as (s & <- & Hs). unfold observations.
  assert (H : In s (filter (fun s0 => coord_eqb (sample_xy s) (sample_xy s0)) samples))
    by (apply filter_In; split; [exact Hs | apply coord_eqb_refl]).
  destruct (filter _ samples); [contradiction | discriminate].
Qed.

Lemma grouping_keys (samples : list sample) :
  map fst (grouping samples) = first_seen (map sample_xy samples).
Proof. unfold grouping. rewrite map_map. cbn. apply map_id. Qed.

Lemma add_observation_grouping (pre : list sample) (s : sample) (l : list coordinate) :
  map (add_observation (sample_xy s) (sample_z s))
      (map (fun k => (k, observations k pre)) l)
  = map (fun k => (k, observations k (pre ++ [s]))) l.
Proof.
  rewrite map_map. apply map_ext. intros k.
  unfold add_observation. cbn. now rewrite observations_snoc.
Qed.

(** One sample more: the dict of the samples so far becomes the dict of
    the longer list. *)
Lemma group_step_grouping (pre : list sample) (s : sample) :
  group_step (grouping pre) s = Ok (grouping (pre ++ [s])).
Proof.
  unfold group_step, group_point.
  assert (Hsnoc := first_seen_snoc (map sample_xy pre) (sample_xy s)).
  assert (Hdist := first_seen_distinct (map sample_xy (pre ++ [s]))).
  rewrite map_app in Hdist. cbn [map] in Hdist. rewrite Hsnoc in Hdist.
  rewrite dict_contains_existsb, grouping_keys.
  unfold grouping at 3. rewrite map_app. cbn [map]. rewrite Hsnoc.
  destruct (existsb _ (first_seen (map sample_xy pre))) eqn:Hex; cbn [negb].
  - rewrite dict_append_spec.
    + f_equal. apply add_observation_grouping.
    + now rewrite grouping_keys.
    + now rewrite dict_contains_existsb, grouping_keys.
  - rewrite dict_setitem_new by now rewrite dict_contains_existsb, grouping_keys.
    rewrite dict_append_spec.
    + f_equal. unfold grouping. rewrite !map_app. cbn [map].
      rewrite add_observation_grouping. do 2 f_equal.
      unfold add_observation. cbn. rewrite coord_eqb_refl.
      rewrite observations_snoc, coord_eqb_refl.
      now rewrite (observations_unseen _ _ Hex).
    + now rewrite map_app, grouping_keys.
    + rewrite dict_contains_existsb, map_app, existsb_app. cbn.
      rewrite coord_eqb_refl. now rewrite orb_true_r.
Qed.

Lemma group_all (samples pre : list sample) :
  foldM group_step samples (grouping pre) = Ok (grouping (pre ++ samples)).
Proof.
  revert pre. induction samples as [| s samples IH]; intros pre; cbn.
  - now rewrite app_nil_r.
  - rewrite group_step_grouping. cbn. rewrite IH. now rewrite <- app_assoc.
Qed.

(** The loop of [parseProbedPoints] groups the samples of the log. *)
Lemma parse_lines_samples (lines : list string) :
  forall (samples : list sample) (d : dict),
    probed_samples lines = Ok samples ->
    foldM parse_line lines d = foldM group_step samples d.
Proof.
  induction lines as [| line lines IH]; intros samples d H; cbn in *.
  - injection H as <-. reflexivity.
  - unfold parse_line at 1.
    destruct (probePointPattern_search line) as [[[c0 c1] c2] |]; [| now apply IH].
    destruct (py_float c0) as [x | e]; cbn in *; [| discriminate].
    destruct (py_float c1) as [y | e]; cbn in *; [| discriminate].
    destruct (py_float c2) as [z | e]; cbn in *; [| discriminate].
    destruct (probed_samples lines) as [more | e]; cbn in *; [| discriminate].
    injection H as <-. cbn [foldM].
    change (group_step d (x, y, z)) with (group_point d (x, y) z).
    destruct (group_point d (x, y) z) as [d1 | e]; cbn [bind]; [| reflexivity].
    now apply IH.
Qed.

Lemma parse_lines_grouping (lines : list string) (samples : list sample) :
  probed_samples lines = Ok samples -> parse_lines lines = Ok (grouping samples).
Proof.
  intros H. unfold parse_lines. rewrite (parse_lines_samples lines samples [] H).
  exact (group_all samples []).
Qed.

(** ** [averageZOffset] *)

Lemma py_truediv_float_int_mean (zs : list F) :
  zs <> [] ->
  py_truediv_float_int (fsum zs) (Z.of_nat (List.length zs)) = Ok (mean zs).
Proof.
  intros Hne. unfold py_truediv_float_int, mean.
  destruct (Z.eqb_spec (Z.of_nat (List.length zs)) 0) as [E | _]; [| reflexivity].
  destruct zs; [contradiction | cbn in E; lia].
Qed.

Lemma average_fold (d : dict) :
  Forall (fun e => snd e <> []) d ->
  forall x y z : list F,
    foldM average_step d (x, y, z) =
    Ok (x ++ map (fun e => fst (fst e)) d,
        y ++ map (fun e => snd (fst e)) d,
        z ++ map (fun e => mean (snd e)) d).
Proof.
  induction 1 as [| [k v] d Hv Hall IH]; intros x y z; cbn.
  - now rewrite !app_nil_r.
  - cbn in Hv. rewrite (py_truediv_float_int_mean v Hv). cbn.
    rewrite IH. now rewrite <- !app_assoc.
Qed.

Lemma averageZOffset_grouping (samples : list sample) :
  let keys := first_seen (map sample_xy samples) in
  averageZOffset (grouping samples) =
  Ok (map fst keys, map snd keys,
      map (fun k => mean (observations k samples)) keys).
Proof.
  intros keys. unfold averageZOffset. rewrite average_fold.
  - cbn. unfold grouping. fold keys. now rewrite !map_map.
  - unfold grouping. rewrite Forall_forall. intros e He.
    apply in_map_iff in He. destruct He as (k & <- & Hk). cbn.
    now apply observations_seen.
Qed.

(** C3. For every finite sequence of samples, grouping them as
    [parseProbedPoints] does and averaging with [averageZOffset] returns
    three sequences of one length whose (x, y) pairs are the distinct
    coordinates of the samples under float equality, in first-seen order:
    every sample is matched by exactly one returned pair, every returned
    pair comes from a sample, and the z entry of a pair is the arithmetic
    mean of all the heights observed at that pair.  The dict is the one
    [parseProbedPoints] builds from any log that holds these samples, and
    no sample at all gives three empty sequences. *)
Theorem aggregation_correct :
  forall samples : list sample,
  exists (d : dict) (xs ys zs : list F),
    foldM group_step samples [] = Ok d /\
    (forall lines : list string,
        probed_samples lines = Ok samples -> parse_lines lines = Ok d) /\
    averageZOffset d = Ok (xs, ys, zs) /\
    List.length xs = List.length ys /\
    List.length ys = List.length zs /\
    combine xs ys = first_seen (map sample_xy samples) /\
    (forall s, In s samples ->
       List.length (filter (fun k => coord_eqb k (sample_xy s)) (combine xs ys))
       = 1%nat) /\
    (forall k, In k (combine xs ys) -> In k (map sample_xy samples)) /\
    zs = map (fun k => mean (observations k samples)) (combine xs ys) /\
    (samples = [] -> (xs, ys, zs) = ([], [], [])).
Proof.
  intros samples.
  set (keys := first_seen (map sample_xy samples)).
  exists (grouping samples), (map fst keys), (map snd keys),
    (map (fun k => mean (observations k samples)) keys).
  rewrite combine_fst_snd.
  split; [exact (group_all samples []) |].
  split; [intros lines; apply parse_lines_grouping |].
  split; [apply averageZOffset_grouping |].
  split; [now rewrite !length_map |].
  split; [now rewrite !length_map |].
  split; [reflexivity |].
  split.
  { intros s Hs. apply distinct_one_match.
    - apply first_seen_distinct.
    - apply first_seen_covers. now apply in_map. }
  split; [intros k; apply first_seen_incl |].
  split; [reflexivity |].
  intros ->. reflexivity.
Qed.

End Aggregation.

(* ===================================================================== *)
(** * Properties of the interpolation call *)
(* ===================================================================== *)

Section Interpolation.

Context {F : Type} {PF : PyFloat F}.

Lemma upsampleBedMesh_calls (w : world) (g : globals) (x y z : list F) :
  fst (run w (upsampleBedMesh g (x, y, z))) = [RbfFit x y z script_kwargs].
Proof.
  unfold upsampleBedMesh, perform. cbn [pbind run respond].
  fold (@script_kwargs F).
  destruct (w_rbf w x y z script_kwargs) as [f | e]; cbn [lift pbind run];
    [| reflexivity].
  destruct (buildMeshPoints g) as [[X Y] | e]; reflexivity.
Qed.

(** C1 (as the code has it). For every aggregated point set, whatever the
    number of its points and so also for none or one, [upsampleBedMesh]
    does not raise on its own: its first step hands the points to the
    [Rbf] constructor, and when the constructor raises, that exception is
    the outcome of the step. *)
Theorem upsampleBedMesh_fits_every_point_set :
  forall (w : world) (g : globals) (x y z : list F),
    ~ raises_at_once (upsampleBedMesh g (x, y, z)) /\
    first_call (upsampleBedMesh g (x, y, z)) = Some (RbfFit x y z script_kwargs) /\
    (forall e : exn,
        w_rbf w x y z script_kwargs = Raise e ->
        run w (upsampleBedMesh g (x, y, z))
          = ([RbfFit x y z script_kwargs], Raise e)).
Proof.
  intros w g x y z. split; [| split].
  - intros [e He]. discriminate He.
  - reflexivity.
  - intros e He. unfold upsampleBedMesh, perform. cbn [pbind run respond].
    fold (@script_kwargs F). now rewrite He.
Qed.

(** C6 (as the code has it). The only call of the interpolation step is
    [Rbf(x, y, z, smooth=0)]: neither a kernel nor a shape parameter is
    passed, both are left to the defaults of scipy. *)
Theorem upsampleBedMesh_passes_only_smooth :
  forall (w : world) (g : globals) (x y z : list F),
    fst (run w (upsampleBedMesh g (x, y, z)))
      = [RbfFit x y z {| kw_function := None;
                         kw_epsilon := None;
                         kw_smooth := Some 0 |}] /\
    existsb passes_epsilon (fst (run w (upsampleBedMesh g (x, y, z)))) = false.
Proof.
  intros w g x y z. rewrite upsampleBedMesh_calls. split; reflexivity.
Qed.

End Interpolation.
(* ===================================================================== *)
(** * Properties of [upsampleBedMesh] and [writeHeightmap] *)
(* ===================================================================== *)

Section Heightmap.

Context {F : Type} {PF : PyFloat F}.

Lemma append_assoc (a b c : string) : ((a ++ b) ++ c = a ++ (b ++ c))%string.
Proof. induction a as [| ch a IH]; cbn; [reflexivity | now rewrite IH]. Qed.

Lemma append_nil_r (a : string) : (a ++ EmptyString)%string = a.
Proof. induction a as [| ch a IH]; cbn; [reflexivity | now rewrite IH]. Qed.

(** ** The shape of the mesh *)

Lemma np_linspace_length (start stop num : Z) :
  0 <= num ->
  exists l : list F,
    np_linspace start stop num = Ok l /\ List.length l = Z.to_nat num.
Proof.
  intros Hnum. unfold np_linspace.
  destruct (Z.ltb_spec num 0) as [Hneg | _]; [lia |].
  eexists. split; [reflexivity |]. now rewrite length_map, length_seq.
Qed.

(** On a mesh grid the interpolator is evaluated at every pair: row [i],
    column [j] holds the surface at [(xs[j], ys[i])]. *)
Lemma rbf_call_meshgrid (f : F -> F -> F) (xs ys : list F) :
  rbf_call f (fst (np_meshgrid xs ys)) (snd (np_meshgrid xs ys))
  = map (fun yv => map (fun xv => f xv yv) xs) ys.
Proof.
  unfold rbf_call, np_meshgrid. cbn [fst snd].
  induction ys as [| yv ys IH]; cbn; [reflexivity |].
  rewrite IH. f_equal.
  clear IH. induction xs as [| xv xs IHx]; cbn; [reflexivity | now rewrite IHx].
Qed.

Lemma mesh_shape (g : globals) (f : F -> F -> F) :
  0 <= xPoints g -> 0 <= yPoints g ->
  exists (X Y : grid),
    buildMeshPoints g = Ok (X, Y) /\
    List.length (rbf_call f X Y) = Z.to_nat (yPoints g) /\
    Forall (fun row => List.length row = Z.to_nat (xPoints g)) (rbf_call f X Y).
Proof.
  intros Hx Hy. unfold buildMeshPoints.
  destruct (np_linspace_length (xMin g) (xMax g) (xPoints g) Hx) as (xs & -> & Lx).
  destruct (np_linspace_length (yMin g) (yMax g) (yPoints g) Hy) as (ys & -> & Ly).
  cbn [bind]. exists (fst (np_meshgrid xs ys)), (snd (np_meshgrid xs ys)).
  split; [reflexivity |]. rewrite rbf_call_meshgrid. split.
  - now rewrite length_map.
  - rewrite Forall_forall. intros row Hrow. apply in_map_iff in Hrow.
    destruct Hrow as (yv & <- & _). now rewrite length_map.
Qed.

Lemma np_linspace_nodes (start stop num : Z) :
  0 <= num -> np_linspace start stop num = Ok (nodes start stop num).
Proof.
  intros H. unfold np_linspace, nodes.
  now destruct (Z.ltb_spec num 0) as [? | _]; [lia |].
Qed.

(** The mesh that [upsampleBedMesh] computes is the surface at the nodes
    of the two [np.linspace]. *)
Lemma buildMeshPoints_surface (g : globals) (f : F -> F -> F) :
  0 <= xPoints g -> 0 <= yPoints g ->
  exists X Y : grid,
    buildMeshPoints g = Ok (X, Y) /\ rbf_call f X Y = surface_mesh g f.
Proof.
  intros Hx Hy. unfold buildMeshPoints.
  rewrite !np_linspace_nodes by assumption. cbn [bind].
  eexists _, _. split; [reflexivity |].
  exact (rbf_call_meshgrid f _ _).
Qed.

Lemma surface_mesh_shape (g : globals) (f : F -> F -> F) :
  List.length (surface_mesh g f) = Z.to_nat (yPoints g) /\
  Forall (fun row => List.length row = Z.to_nat (xPoints g)) (surface_mesh g f).
Proof.
  unfold surface_mesh, nodes. split.
  - now rewrite !length_map, length_seq.
  - rewrite Forall_forall. intros row Hrow. apply in_map_iff in Hrow.
    destruct Hrow as (yv & <- & _). now rewrite !length_map, length_seq.
Qed.

(** ** The text of the file *)

Lemma rows_fold (mesh : grid) (acc : string) :
  fold_left (fun acc row => (acc ++ row_line row)%string) mesh acc
  = (acc ++ unlines (map row_text mesh))%string.
Proof.
  revert acc. induction mesh as [| row mesh IH]; intros acc; cbn.
  - now rewrite append_nil_r.
  - rewrite IH. unfold row_line. fold (row_text row).
    now rewrite !append_assoc.
Qed.

Lemma py_truediv_cases (a b : Z) :
  (b = 0 /\ py_truediv a b = Raise ZeroDivisionError) \/
  (b <> 0 /\ truediv_overflows a b = true /\ py_truediv a b = Raise OverflowError) \/
  (b <> 0 /\ truediv_overflows a b = false /\ py_truediv a b = Ok (int_truediv a b)).
Proof.
  unfold py_truediv. destruct (Z.eqb_spec b 0) as [E | E]; [now left | right].
  destruct (truediv_overflows a b); [left | right]; auto.
Qed.

Lemma py_str_int_cases (n : Z) :
  (printable n /\ py_str_int n = Ok (str_int n)) \/
  (~ printable n /\ py_str_int n = Raise ValueError).
Proof.
  unfold py_str_int, printable.
  destruct (Z.leb_spec (count_digits (str_int n)) max_str_digits); [left | right];
    split; auto; lia.
Qed.

(** The cells of the settings line: [str] of the six ints fails only with
    [ValueError], and when it does not the cells are the decimal texts. *)
Lemma settings_cells (g : globals) (xq yq : F) :
  (settings_printable g /\
   mapM str [VInt (xMin g); VInt (xMax g); VInt (yMin g); VInt (yMax g);
             VFloat (of_int (-1)); VFloat xq; VFloat yq;
             VInt (xPoints g); VInt (yPoints g)]
   = Ok [str_int (xMin g); str_int (xMax g); str_int (yMin g); str_int (yMax g);
         fstr (of_int (-1)); fstr xq; fstr yq;
         str_int (xPoints g); str_int (yPoints g)]) \/
  (~ settings_printable g /\
   mapM str [VInt (xMin g); VInt (xMax g); VInt (yMin g); VInt (yMax g);
             VFloat (of_int (-1)); VFloat xq; VFloat yq;
             VInt (xPoints g); VInt (yPoints g)]
   = Raise ValueError).
Proof.
  unfold settings_printable. cbn [mapM str bind].
  destruct (py_str_int_cases (xMin g)) as [[P1 ->] | [P1 ->]]; cbn [bind];
    [| right; split; [tauto | reflexivity]].
  destruct (py_str_int_cases (xMax g)) as [[P2 ->] | [P2 ->]]; cbn [bind];
    [| right; split; [tauto | reflexivity]].
  destruct (py_str_int_cases (yMin g)) as [[P3 ->] | [P3 ->]]; cbn [bind];
    [| right; split; [tauto | reflexivity]].
  destruct (py_str_int_cases (yMax g)) as [[P4 ->] | [P4 ->]]; cbn [bind];
    [| right; split; [tauto | reflexivity]].
  destruct (py_str_int_cases (xPoints g)) as [[P5 ->] | [P5 ->]]; cbn [bind];
    [| right; split; [tauto | reflexivity]].
  destruct (py_str_int_cases (yPoints g)) as [[P6 ->] | [P6 ->]]; cbn [bind];
    [| right; split; [tauto | reflexivity]].
  left. split; [tauto | reflexivity].
Qed.

(** Once the two quotients and the cells are there, the text is made of
    the header, the columns, the settings and the rows. *)
Lemma heightmap_text_assembled (g : globals) (now : string) (mesh : grid) :
  fold_left (fun acc row => (acc ++ row_line row)%string) mesh
    (((("RepRapFirmware height map file v2 generated at " ++ now) ++ newline)
        ++ "xmin,xmax,ymin,ymax,radius,xspacing,yspacing,xnum,ynum" ++ newline)
       ++ settings_text g ++ newline)%string
  = unlines (header_text now :: columns_text :: settings_text g :: map row_text mesh).
Proof.
  rewrite rows_fold. cbn [unlines fold_right].
  unfold header_text, columns_text. now rewrite !append_assoc.
Qed.

Lemma heightmap_text_lines (g : globals) (now : string) (mesh : grid) :
  xPoints g <> 1 -> yPoints g <> 1 ->
  spacings_in_range g -> settings_printable g ->
  heightmap_text g now mesh =
  Ok (unlines (header_text now :: columns_text :: settings_text g
                 :: map row_text mesh)).
Proof.
  intros Hx Hy [Rx Ry] Hp. unfold heightmap_text.
  rewrite !py_truediv_ok by (assumption || lia). cbn [bind].
  destruct (settings_cells g (fround (int_truediv (xMax g - xMin g) (xPoints g - 1)) 2)
              (fround (int_truediv (yMax g - yMin g) (yPoints g - 1)) 2))
    as [[_ ->] | [Hn _]]; [| contradiction].
  cbn [bind]. f_equal.
  rewrite <- heightmap_text_assembled. f_equal.
  unfold settings_text. now rewrite !append_assoc.
Qed.

(** Whenever the text is computed, it is that text, and the settings line
    could be computed. *)
Lemma heightmap_text_inv (g : globals) (now : string) (mesh : grid) (text : string) :
  heightmap_text g now mesh = Ok text ->
  text = unlines (header_text now :: columns_text :: settings_text g
                    :: map row_text mesh) /\
  xPoints g <> 1 /\ yPoints g <> 1 /\ spacings_in_range g /\ settings_printable g.
Proof.
  intros H.
  assert (Hpre : xPoints g <> 1 /\ yPoints g <> 1 /\
                 spacings_in_range g /\ settings_printable g).
  { unfold heightmap_text in H. unfold spacings_in_range.
    destruct (py_truediv_cases (xMax g - xMin g) (xPoints g - 1))
      as [[_ E] | [(_ & _ & E) | (Nx & Rx & E)]]; rewrite E in H; try discriminate H.
    cbn [bind] in H.
    destruct (py_truediv_cases (yMax g - yMin g) (yPoints g - 1))
      as [[_ E'] | [(_ & _ & E') | (Ny & Ry & E')]]; rewrite E' in H; try discriminate H.
    cbn [bind] in H.
    destruct (settings_cells g (fround (int_truediv (xMax g - xMin g) (xPoints g - 1)) 2)
                (fround (int_truediv (yMax g - yMin g) (yPoints g - 1)) 2))
      as [[Hp _] | [_ E2]]; [| rewrite E2 in H; discriminate H].
    split; [lia | split; [lia | split; [split; assumption | exact Hp]]]. }
  split; [| exact Hpre].
  destruct Hpre as (Hx & Hy & Hr & Hp).
  rewrite (heightmap_text_lines g now mesh Hx Hy Hr Hp) in H. now injection H.
Qed.

(** The exceptions of the text: the two divisions come first, x before y,
    then the conversions of the ints. *)
Lemma heightmap_text_zero_division_x (g : globals) (now : string) (mesh : grid) :
  xPoints g = 1 -> heightmap_text g now mesh = Raise ZeroDivisionError.
Proof.
  intros H. unfold heightmap_text, py_truediv.
  destruct (Z.eqb_spec (xPoints g - 1) 0) as [_ | Hx]; [reflexivity | lia].
Qed.

Lemma heightmap_text_zero_division_y (g : globals) (now : string) (mesh : grid) :
  xPoints g <> 1 -> truediv_overflows (xMax g - xMin g) (xPoints g - 1) = false ->
  yPoints g = 1 -> heightmap_text g now mesh = Raise ZeroDivisionError.
Proof.
  intros Hx Rx H. unfold heightmap_text.
  rewrite py_truediv_ok by (assumption || lia). cbn [bind]. unfold py_truediv.
  destruct (Z.eqb_spec (yPoints g - 1) 0) as [_ | Hy]; [reflexivity | lia].
Qed.

Lemma heightmap_text_overflow (g : globals) (now : string) (mesh : grid) :
  xPoints g <> 1 -> yPoints g <> 1 -> ~ spacings_in_range g ->
  heightmap_text g now mesh = Raise OverflowError.
Proof.
  intros Hx Hy Hr. unfold heightmap_text, spacings_in_range in *.
  destruct (py_truediv_cases (xMax g - xMin g) (xPoints g - 1))
    as [[E _] | [(_ & _ & E) | (_ & Rx & E)]]; [lia | now rewrite E |].
  rewrite E. cbn [bind].
  destruct (py_truediv_cases (yMax g - yMin g) (yPoints g - 1))
    as [[E' _] | [(_ & _ & E') | (_ & Ry & E')]]; [lia | now rewrite E' |].
  tauto.
Qed.

Lemma heightmap_text_no_zero_division (g : globals) (now : string) (mesh : grid) :
  xPoints g <> 1 -> yPoints g <> 1 ->
  heightmap_text g now mesh <> Raise ZeroDivisionError.
Proof.
  intros Hx Hy. unfold heightmap_text.
  destruct (py_truediv_cases (xMax g - xMin g) (xPoints g - 1))
    as [[E _] | [(_ & _ & E) | (_ & Rx & E)]]; [lia | now rewrite E |].
  rewrite E. cbn [bind].
  destruct (py_truediv_cases (yMax g - yMin g) (yPoints g - 1))
    as [[E' _] | [(_ & _ & E') | (_ & Ry & E')]]; [lia | now rewrite E' |].
  rewrite E'. cbn [bind].
  destruct (settings_cells g (fround (int_truediv (xMax g - xMin g) (xPoints g - 1)) 2)
              (fround (int_truediv (yMax g - yMin g) (yPoints g - 1)) 2))
    as [[_ ->] | [_ ->]]; discriminate.
Qed.

(** The run of the last two steps once the surface is fitted. *)
Lemma run_interpolate_and_write (w : world) (g : globals) (x y z : list F)
  (f : F -> F -> F) :
  0 <= xPoints g -> 0 <= yPoints g ->
  w_rbf w x y z script_kwargs = Ok f ->
  run w (interpolate_and_write g (x, y, z)) =
  match heightmap_text g (w_now w "%Y-%m-%d %H:%M") (surface_mesh g f) with
  | Raise e => ([RbfFit x y z script_kwargs; Now "%Y-%m-%d %H:%M"], Raise e)
  | Ok text =>
      let out := [RbfFit x y z script_kwargs; Now "%Y-%m-%d %H:%M"; Print text;
                  WriteFile (heightmapPath g) text] in
      match w_write w (heightmapPath g) text with
      | Raise e => (out, Raise e)
      | Ok _ => (out ++ [Chmod (heightmapPath g) 511], w_chmod w (heightmapPath g) 511)
      end
  end.
Proof.
  intros Hx Hy Hfit.
  destruct (buildMeshPoints_surface g f Hx Hy) as (X & Y & Hgrid & Hmesh).
  unfold interpolate_and_write, upsampleBedMesh, writeHeightmap, perform.
  cbn [pbind run respond]. fold (@script_kwargs F). rewrite Hfit. cbn [lift pbind].
  rewrite Hgrid. cbn [lift pbind run respond]. rewrite Hmesh.
  destruct (heightmap_text g _ _) as [text | e]; cbn [lift pbind run respond];
    [| reflexivity].
  destruct (w_write w (heightmapPath g) text) as [[] | e];
    cbn [lift pbind run respond app]; [| reflexivity].
  now destruct (w_chmod w (heightmapPath g) 511).
Qed.

(** C7. Take a run with both counts at least 2 in which the fit returns
    the surface [f].  The mesh is the surface at the nodes of the grid,
    [yPoints] rows of [xPoints] entries.  Whatever the run writes, it
    writes to the heightmap file, and the text is: the header line, the
    column line, the settings line, whose two spacings are
    [(max - min) / (count - 1)] rounded to 2 decimals after the radius -1.0,
    and then one line per row of the mesh, every entry rounded to 3
    decimals.  The run does print and write this text when the extents and
    the two spacings are within the range of a double and [str] converts
    the six ints of the settings line. *)
Theorem heightmap_file_format :
  forall (w : world) (g : globals) (x y z : list F) (f : F -> F -> F),
    2 <= xPoints g -> 2 <= yPoints g ->
    w_rbf w x y z script_kwargs = Ok f ->
    List.length (surface_mesh g f) = Z.to_nat (yPoints g) /\
    Forall (fun row => List.length row = Z.to_nat (xPoints g)) (surface_mesh g f) /\
    (forall path written : string,
        In (WriteFile path written) (fst (run w (interpolate_and_write g (x, y, z)))) ->
        path = heightmapPath g /\
        written = unlines (header_text (w_now w "%Y-%m-%d %H:%M") :: columns_text
                             :: settings_text g :: map row_text (surface_mesh g f))) /\
    (extents_in_range g -> spacings_in_range g -> settings_printable g ->
     exists (text : string) (rest : list call) (outcome : res unit),
       text = unlines (header_text (w_now w "%Y-%m-%d %H:%M") :: columns_text
                         :: settings_text g :: map row_text (surface_mesh g f)) /\
       run w (interpolate_and_write g (x, y, z))
         = (RbfFit x y z script_kwargs :: Now "%Y-%m-%d %H:%M" :: Print text
              :: WriteFile (heightmapPath g) text :: rest, outcome)).
Proof.
  intros w g x y z f Hx Hy Hfit.
  destruct (surface_mesh_shape g f) as [Hrows Hcols].
  split; [exact Hrows |]. split; [exact Hcols |].
  rewrite (run_interpolate_and_write w g x y z f) by (assumption || lia).
  split.
  - intros path written Hin.
    destruct (heightmap_text g _ _) as [text | e] eqn:Etext.
    + apply heightmap_text_inv in Etext. destruct Etext as [-> _].
      destruct (w_write w (heightmapPath g) _) as [[] | e]; cbn in Hin;
        repeat (destruct Hin as [Hin | Hin]; try discriminate Hin);
        try contradiction; injection Hin as <- <-; split; reflexivity.
    + cbn in Hin.
      repeat (destruct Hin as [Hin | Hin]; try discriminate Hin); contradiction.
  - intros _ Hr Hp. rewrite heightmap_text_lines by (assumption || lia).
    eexists. cbn zeta.
    destruct (w_write w (heightmapPath g) _) as [[] | e]; cbn [app];
      eexists _, _; (split; [reflexivity |]); reflexivity.
Qed.

(** C10 (as the code has it). The settings line divides by [count - 1]
    without a guard: a count of 1 raises [ZeroDivisionError], for x before
    anything else and for y once the quotient of x is there.  Every other
    count divides, also 0 and the negative ones: then the text of the file
    is defined as soon as the two quotients are within the range of a
    double and [str] converts the six ints.  The accepted command line
    [-X 0:10 -Y 0:10 -P 1:5] sets [xPoints] to 1 without passing through
    [selectMeshInterval], and every run on it in which the log is read and
    the surface is fitted ends in [ZeroDivisionError] inside
    [writeHeightmap], before anything is printed or written. *)
Theorem writeHeightmap_unguarded_division :
  (forall (g : globals) (now : string) (mesh : grid),
      xPoints g = 1 ->
      heightmap_text g now mesh = Raise ZeroDivisionError) /\
  (forall (g : globals) (now : string) (mesh : grid),
      xPoints g <> 1 ->
      truediv_overflows (xMax g - xMin g) (xPoints g - 1) = false ->
      yPoints g = 1 ->
      heightmap_text g now mesh = Raise ZeroDivisionError) /\
  (forall (g : globals) (now : string) (mesh : grid),
      xPoints g <> 1 -> yPoints g <> 1 ->
      heightmap_text g now mesh <> Raise ZeroDivisionError /\
      (spacings_in_range g -> settings_printable g ->
       heightmap_text g now mesh =
       Ok (unlines (header_text now :: columns_text :: settings_text g
                      :: map row_text mesh)))) /\
  (exists g : globals,
      (parsedArgs <- parse_args one_by_five_args ;; process_args parsedArgs) = Ok g /\
      xPoints g = 1 /\ yPoints g = 5) /\
  (forall (w : world) (lines : list string) (d : dict)
          (x y z : list F) (f : F -> F -> F),
      w_readlines w "meshbedprobe.log" = Ok lines ->
      parse_lines lines = Ok d ->
      averageZOffset d = Ok (x, y, z) ->
      w_rbf w x y z script_kwargs = Ok f ->
      run w (main one_by_five_args)
        = ([ReadLines "meshbedprobe.log"; RbfFit x y z script_kwargs;
            Now "%Y-%m-%d %H:%M"],
           Raise ZeroDivisionError)).
Proof.
  split; [| split; [| split; [| split]]].
  - apply heightmap_text_zero_division_x.
  - apply heightmap_text_zero_division_y.
  - intros g now mesh Hx Hy. split.
    + now apply heightmap_text_no_zero_division.
    + now apply heightmap_text_lines.
  - eexists. split; [reflexivity |]. split; reflexivity.
  - intros w lines d x y z f Hread Hparse Havg Hfit.
    unfold main.
    set (pa := parse_args one_by_five_args). vm_compute in pa. subst pa.
    cbn [lift pbind].
    match goal with
    | |- context [process_args ?n] => set (pg := process_args n)
    end.
    vm_compute in pg. subst pg. cbn [lift pbind].
    unfold parseProbedPoints, perform. cbn [pbind run respond probeLogPath].
    rewrite Hread. cbn [lift pbind]. rewrite Hparse. cbn [lift pbind].
    rewrite Havg. cbn [lift pbind].
    unfold upsampleBedMesh, perform. cbn [pbind run respond].
    fold (@script_kwargs F). rewrite Hfit. cbn [lift pbind].
    match goal with
    | |- context [buildMeshPoints ?g] =>
        destruct (mesh_shape g f) as (X & Y & Hgrid & _); [cbn; lia | cbn; lia |];
        rewrite Hgrid
    end.
    cbn [lift pbind]. unfold writeHeightmap, perform. cbn [pbind run respond lift].
    rewrite heightmap_text_zero_division_x by reflexivity.
    reflexivity.
Qed.

End Heightmap.

Section DefaultCounts.

Context {F : Type} {PF : PyFloat F}.

(** X5. Without [--num-points], whenever the arguments are processed the
    two counts are what [selectMeshInterval] returns for the extents and
    the budget: both are at least 2, with a product within the budget
    unless the budget is below 4, so for no mesh does the division by
    [count - 1] in [writeHeightmap] raise [ZeroDivisionError]. *)
Theorem default_counts_are_safe :
  forall (parsedArgs : namespace) (g : globals),
    num_points parsedArgs = None ->
    process_args parsedArgs = Ok g ->
    selectMeshInterval (xMin g) (xMax g) (yMin g) (yMax g) (max_points parsedArgs)
      = Ok (xPoints g, yPoints g) /\
    2 <= xPoints g /\ 2 <= yPoints g /\
    (max_points parsedArgs < 4 \/ xPoints g * yPoints g <= max_points parsedArgs) /\
    forall (now : string) (mesh : grid),
      heightmap_text g now mesh <> Raise ZeroDivisionError.
Proof.
  intros parsedArgs g Hnone Hg. unfold process_args in Hg. rewrite Hnone in Hg.
  destruct (splitIntArgs (x_extents parsedArgs)) as [xs | e]; [| discriminate].
  cbn [bind] in Hg.
  destruct (unpack2 xs) as [[x0 x1] | e]; [| discriminate]. cbn [bind] in Hg.
  destruct (splitIntArgs (y_extents parsedArgs)) as [ys | e]; [| discriminate].
  cbn [bind] in Hg.
  destruct (unpack2 ys) as [[y0 y1] | e]; [| discriminate]. cbn [bind] in Hg.
  destruct (selectMeshInterval_outcome x0 x1 y0 y1 (max_points parsedArgs))
    as [E | (xc & yc & E & Hxc & Hyc & Hprod)];
    rewrite E in Hg; cbn [bind] in Hg; [discriminate |].
  injection Hg as <-. cbn [xMin xMax yMin yMax xPoints yPoints].
  split; [exact E |]. split; [exact Hxc |]. split; [exact Hyc |]. split; [lia |].
  intros now mesh. apply heightmap_text_no_zero_division; cbn; lia.
Qed.

End DefaultCounts.

(* ===================================================================== *)
(** * Properties of the probe pattern *)
(* ===================================================================== *)

Lemma take_opt_app (ch : ascii) (s rest : string) :
  (s = EmptyString -> take_opt ch rest = (EmptyString, rest)) ->
  take_opt ch (s ++ rest)
  = (fst (take_opt ch s), (snd (take_opt ch s) ++ rest)%string).
Proof.
  destruct s as [| c s]; cbn [append].
  - intros H. now rewrite (H eq_refl).
  - intros _. cbn [take_opt]. now destruct (Ascii.eqb c ch).
Qed.

Lemma take_digits_app (s rest : string) :
  take_digits rest = (EmptyString, rest) ->
  take_digits (s ++ rest)
  = (fst (take_digits s), (snd (take_digits s) ++ rest)%string).
Proof.
  intros Hrest. induction s as [| c s IH]; cbn [append take_digits].
  - now rewrite Hrest.
  - destruct (is_digit c); [| reflexivity].
    rewrite IH. now destruct (take_digits s).
Qed.

Lemma stops_take_digits (rest : string) :
  stops_number rest = true -> take_digits rest = (EmptyString, rest).
Proof.
  destruct rest as [| c r]; [reflexivity |]. cbn.
  intros H. apply negb_true_iff in H.
  apply orb_false_iff in H. destruct H as [H _].
  apply orb_false_iff in H. destruct H as [H _]. now rewrite H.
Qed.

Lemma stops_take_opt (ch : ascii) (rest : string) :
  ch = "-"%char \/ ch = "."%char ->
  stops_number rest = true -> take_opt ch rest = (EmptyString, rest).
Proof.
  intros Hch. destruct rest as [| c r]; [reflexivity |]. cbn.
  intros H. apply negb_true_iff in H.
  apply orb_false_iff in H. destruct H as [H Hp].
  apply orb_false_iff in H. destruct H as [_ Hm].
  destruct Hch as [-> | ->]; [now rewrite Hm | now rewrite Hp].
Qed.

(** A group captures the same field when text that stops a number
    follows. *)
Lemma capture_number_app (a rest : string) :
  stops_number rest = true ->
  capture_number (a ++ rest)
  = (fst (capture_number a), (snd (capture_number a) ++ rest)%string).
Proof.
  intros Hstop. unfold capture_number.
  rewrite (take_opt_app "-" a rest)
    by (intros _; apply stops_take_opt; [now left | exact Hstop]).
  destruct (take_opt "-" a) as [m s1]. cbn [fst snd].
  rewrite (take_digits_app s1 rest (stops_take_digits rest Hstop)).
  destruct (take_digits s1) as [d1 s2]. cbn [fst snd].
  rewrite (take_opt_app "." s2 rest)
    by (intros _; apply stops_take_opt; [now right | exact Hstop]).
  destruct (take_opt "." s2) as [p s3]. cbn [fst snd].
  rewrite (take_digits_app s3 rest (stops_take_digits rest Hstop)).
  now destruct (take_digits s3) as [d2 s4].
Qed.

Lemma expect_app (lit s : string) : expect lit (lit ++ s) = Some s.
Proof.
  unfold expect.
  assert (H : startswith (lit ++ s) lit = true /\ drop (String.length lit) (lit ++ s) = s).
  { induction lit as [| c lit [IH1 IH2]]; cbn [append String.length drop].
    - split; [now destruct s | reflexivity].
    - split; [now rewrite startswith_cons | exact IH2]. }
  destruct H as [-> ->]. reflexivity.
Qed.

(** X20. A line in the format of the firmware is taken apart into its
    three fields: when [a], [b] and [c] are strings that a group of the
    pattern captures whole, and the text after [c] cannot continue a
    number, then the search in [Mesh Point: Xa Yb Zc...] returns exactly
    [(a, b, c)]. *)
Theorem probe_line_fields :
  forall a b c tail : string,
    capture_number a = (a, EmptyString) ->
    capture_number b = (b, EmptyString) ->
    capture_number c = (c, EmptyString) ->
    stops_number tail = true ->
    probePointPattern_search
      ("Mesh Point: X" ++ a ++ " Y" ++ b ++ " Z" ++ c ++ tail)
    = Some (a, b, c).
Proof.
  intros a b c tail Ha Hb Hc Htail.
  assert (Hat : probePointPattern_at
                  ("Mesh Point: X" ++ a ++ " Y" ++ b ++ " Z" ++ c ++ tail)
                = Some (a, b, c)).
  { unfold probePointPattern_at.
    rewrite (expect_app "Mesh Point: X").
    rewrite (capture_number_app a) by reflexivity. rewrite Ha. cbn [fst snd].
    change ("" ++ " Y" ++ b ++ " Z" ++ c ++ tail)%string
      with (" Y" ++ (b ++ " Z" ++ c ++ tail))%string.
    rewrite (expect_app " Y").
    rewrite (capture_number_app b) by reflexivity. rewrite Hb. cbn [fst snd].
    change ("" ++ " Z" ++ c ++ tail)%string with (" Z" ++ (c ++ tail))%string.
    rewrite (expect_app " Z").
    rewrite (capture_number_app c) by exact Htail. rewrite Hc. reflexivity. }
  destruct ("Mesh Point: X" ++ a ++ " Y" ++ b ++ " Z" ++ c ++ tail)%string eqn:E;
    cbn [probePointPattern_search]; now rewrite Hat.
Qed.

(* ===================================================================== *)
(** * Properties of the argument handling *)
(* ===================================================================== *)

Section Arguments.

Context {F : Type} {PF : PyFloat F}.

(** An extent that the pattern does not match at its start stops the
    script with a usage error before anything is read or computed. *)
Lemma unmatched_extent_rejected (argv : raw_args) :
  colonSeparatedNumbersPattern_match (raw_x_extents argv) = false ->
  main (F := F) argv = Throw (SystemExit 2).
Proof.
  intros H. unfold main, parse_args, argparse_type at 1,
    colonSeparatedNumbersArgType at 1.
  rewrite H. reflexivity.
Qed.

(** A colon-separated integer pair passes the argument type. *)
Lemma pair_matches (s : string) :
  is_colon_separated_pair s = true -> colonSeparatedNumbersPattern_match s = true.
Proof.
  unfold is_colon_separated_pair, colonSeparatedNumbersPattern_match.
  destruct (digits1 (skip_minus s)) as [[| c r] |]; try discriminate.
  destruct (Ascii.eqb_spec c ":") as [-> | Hc].
  - destruct (digits1 (skip_minus r)); [reflexivity | discriminate].
  - intros H. exfalso.
    destruct c as [[] [] [] [] [] [] [] []]; try discriminate H; now apply Hc.
Qed.

(** C9 (at the failing inputs). The extents [0:1_0] and [0:10 ] (with a
    trailing space) are not colon-separated integer pairs, yet the argument
    type accepts both because the pattern is matched at the start of the
    string only; [int] then reads [1_0] and [10 ] as 10, and the script
    goes on to read the probe log with [xMax = 10]. *)
Theorem malformed_extent_accepted :
  (is_colon_separated_pair "0:1_0" = false /\
   colonSeparatedNumbersArgType "0:1_0" = Ok "0:1_0" /\
   (exists g : globals,
       (parsedArgs <- parse_args underscore_args ;;
        process_args (F := F) parsedArgs) = Ok g /\
       xMin g = 0 /\ xMax g = 10) /\
   first_call (main (F := F) underscore_args)
     = Some (ReadLines "meshbedprobe.log")) /\
  (is_colon_separated_pair "0:10 " = false /\
   colonSeparatedNumbersArgType "0:10 " = Ok "0:10 " /\
   (exists g : globals,
       (parsedArgs <- parse_args trailing_space_args ;;
        process_args (F := F) parsedArgs) = Ok g /\
       xMin g = 0 /\ xMax g = 10) /\
   first_call (main (F := F) trailing_space_args)
     = Some (ReadLines "meshbedprobe.log")).
Proof.
  split.
  - split; [reflexivity |]. split; [reflexivity |]. split; [| reflexivity].
    eexists. split; [reflexivity |]. split; reflexivity.
  - split; [reflexivity |]. split; [reflexivity |]. split; [| reflexivity].
    eexists. split; [reflexivity |]. split; reflexivity.
Qed.

End Arguments.

(* ===================================================================== *)
(** * Properties of [splitIntArgs] *)
(* ===================================================================== *)

Ltac eval_digit :=
  match goal with
  | |- context [is_digit ?c] =>
      let b := eval vm_compute in (is_digit c) in
      change (is_digit c) with b
  end;
  match goal with
  | |- context [digit_value ?c] =>
      let v := eval vm_compute in (digit_value c) in
      change (digit_value c) with v
  end.

(** Reading the digits of a decimal numeral continues the number read so
    far. *)
Lemma int_digits_uint (d : Decimal.uint) :
  forall acc : Z,
    int_digits (NilEmpty.string_of_uint d) acc false
    = Some (acc * Z.of_N (N.pow 10 (Unsigned.usize d))
            + Z.of_N (Unsigned.of_lu (Decimal.rev d))).
Proof.
  induction d; intros acc;
    [cbn; f_equal; lia | ..];
    cbn [NilEmpty.string_of_uint int_digits]; eval_digit; cbv iota;
    rewrite IHd; f_equal;
    match goal with
    | |- context [Decimal.rev (?c d)] =>
        change (Decimal.rev (c d)) with (Decimal.revapp d (c Decimal.Nil));
        rewrite (Unsigned.of_lu_revapp d (c Decimal.Nil));
        let v := eval vm_compute in (Unsigned.of_lu (c Decimal.Nil)) in
        change (Unsigned.of_lu (c Decimal.Nil)) with v
    end;
    cbn [Unsigned.usize]; rewrite N.pow_succ_r';
    rewrite !N2Z.inj_add, !N2Z.inj_mul;
    match goal with
    | |- context [Z.of_N (N.pos ?p)] =>
        let v := eval vm_compute in (Z.of_N (N.pos p)) in
        change (Z.of_N (N.pos p)) with v
    | _ => idtac
    end;
    change (Z.of_N 10) with 10; change (Z.of_N 0) with 0; ring.
Qed.

Lemma int_unsigned_uint (d : Decimal.uint) :
  d <> Decimal.Nil ->
  int_unsigned (NilEmpty.string_of_uint d) = Some (Z.of_uint d).
Proof.
  intros Hd.
  assert (H : int_unsigned (NilEmpty.string_of_uint d)
              = int_digits (NilEmpty.string_of_uint d) 0 false).
  { destruct d; [now destruct Hd | ..];
      cbn [NilEmpty.string_of_uint int_unsigned int_digits]; eval_digit; reflexivity. }
  rewrite H, int_digits_uint. f_equal.
  unfold Z.of_uint. rewrite Unsigned.of_uint_alt. now rewrite Z.mul_0_l.
Qed.

Lemma first_char_uint (d : Decimal.uint) :
  d <> Decimal.Nil ->
  exists c r, NilEmpty.string_of_uint d = String c r /\ is_digit c = true.
Proof.
  intros Hd. destruct d; [now destruct Hd | ..];
    eexists _, _; (split; [reflexivity | reflexivity]).
Qed.

Lemma digit_not_space (c : ascii) : is_digit c = true -> is_space c = false.
Proof.
  unfold is_digit, is_space. intros Hc.
  apply andb_true_iff in Hc. destruct Hc as [H1 H2].
  apply Nat.leb_le in H1, H2.
  apply orb_false_iff. split.
  - apply andb_false_iff. right. apply Nat.leb_gt. lia.
  - apply Nat.eqb_neq. lia.
Qed.

Lemma int_of_digits (s : string) (c : ascii) (r : string) :
  s = String c r -> is_digit c = true ->
  Py.int s = match int_unsigned s with
             | Some n =>
                 if count_digits s <=? max_str_digits then Ok n else Raise ValueError
             | None => Raise ValueError
             end.
Proof.
  intros -> Hc. unfold Py.int.
  assert (Hsp : is_space c = false) by exact (digit_not_space c Hc).
  cbn [lstrip]. rewrite Hsp.
  destruct (Ascii.eqb_spec c "-") as [-> | Hm]; [discriminate Hc |].
  destruct (Ascii.eqb_spec c "+") as [-> | Hp]; [discriminate Hc |].
  destruct c as [[] [] [] [] [] [] [] []]; try reflexivity;
    try (now destruct Hm); try (now destruct Hp).
Qed.

Lemma string_of_uint_nonnil (d : Decimal.uint) :
  d <> Decimal.Nil -> NilZero.string_of_uint d = NilEmpty.string_of_uint d.
Proof. intros Hd. destruct d; [now destruct Hd | reflexivity ..]. Qed.

(** [int(str(n)) == n] for every int that [str] converts. *)
Lemma int_str_int (n : Z) : printable n -> Py.int (str_int n) = Ok n.
Proof.
  unfold printable. intros Hp. apply Z.leb_le in Hp. revert Hp.
  unfold str_int. destruct n as [| p | p]; [reflexivity | |].
  - cbn [Z.to_int NilZero.string_of_int].
    assert (Hd := Unsigned.to_uint_nonnil p).
    rewrite (string_of_uint_nonnil _ Hd). intros Hp.
    destruct (first_char_uint _ Hd) as (c & r & E & Hc).
    rewrite (int_of_digits _ c r E Hc), (int_unsigned_uint _ Hd), Hp.
    unfold Z.of_uint. now rewrite Unsigned.of_to.
  - cbn [Z.to_int NilZero.string_of_int].
    assert (Hd := Unsigned.to_uint_nonnil p).
    rewrite (string_of_uint_nonnil _ Hd). intros Hp.
    unfold Py.int. cbn [lstrip].
    change (is_space "-") with false. cbv iota.
    rewrite (int_unsigned_uint _ Hd), Hp.
    unfold Z.of_uint. rewrite Unsigned.of_to. reflexivity.
Qed.

(** ** Splitting at the colon *)

Lemma split_no_colon (s : string) :
  all_chars not_colon s = true -> split ":" s = [s].
Proof.
  induction s as [| c s IH]; cbn; [reflexivity |].
  intros H. apply andb_true_iff in H. destruct H as [Hc Hs].
  unfold not_colon in Hc. apply negb_true_iff in Hc. rewrite Hc.
  now rewrite (IH Hs).
Qed.

Lemma split_at_colon (s rest : string) :
  all_chars not_colon s = true ->
  split ":" (s ++ String ":" rest) = s :: split ":" rest.
Proof.
  induction s as [| c s IH]; cbn; [reflexivity |].
  intros H. apply andb_true_iff in H. destruct H as [Hc Hs].
  unfold not_colon in Hc. apply negb_true_iff in Hc. rewrite Hc.
  now rewrite (IH Hs).
Qed.

Lemma digit_not_colon (c : ascii) : is_digit c = true -> not_colon c = true.
Proof.
  intros H. unfold not_colon. apply negb_true_iff.
  destruct (Ascii.eqb_spec c ":") as [-> | _]; [discriminate H | reflexivity].
Qed.

Lemma digits_no_colon (s : string) :
  all_chars is_digit s = true -> all_chars not_colon s = true.
Proof.
  induction s as [| c s IH]; cbn; [reflexivity |].
  intros H. apply andb_true_iff in H. destruct H as [Hc Hs].
  now rewrite (digit_not_colon c Hc), (IH Hs).
Qed.

Lemma uint_all_digits (d : Decimal.uint) :
  all_chars is_digit (NilEmpty.string_of_uint d) = true.
Proof. induction d; cbn [NilEmpty.string_of_uint all_chars]; trivial. Qed.

(** [str(n)] is an optional minus sign and then digits, at least one. *)
Lemma str_int_shape (n : Z) :
  exists (c : ascii) (ds : string),
    is_digit c = true /\ all_chars is_digit ds = true /\
    (str_int n = String c ds \/ str_int n = String "-" (String c ds)).
Proof.
  unfold str_int. destruct n as [| p | p].
  - exists "0"%char, EmptyString. now repeat split; try left.
  - cbn [Z.to_int NilZero.string_of_int]. unfold NilZero.string_of_uint.
    assert (Hd := Unsigned.to_uint_nonnil p).
    assert (Hall := uint_all_digits (Pos.to_uint p)).
    destruct (Pos.to_uint p) as [| d | d | d | d | d | d | d | d | d | d];
      [now destruct Hd | ..];
      cbn [NilEmpty.string_of_uint all_chars] in *;
      eexists _, _; (split; [| split; [| left; reflexivity]]); trivial.
  - cbn [Z.to_int NilZero.string_of_int]. unfold NilZero.string_of_uint.
    assert (Hd := Unsigned.to_uint_nonnil p).
    assert (Hall := uint_all_digits (Pos.to_uint p)).
    destruct (Pos.to_uint p) as [| d | d | d | d | d | d | d | d | d | d];
      [now destruct Hd | ..];
      cbn [NilEmpty.string_of_uint all_chars] in *;
      eexists _, _; (split; [| split; [| right; reflexivity]]); trivial.
Qed.

Lemma skip_digits_app (ds rest : string) :
  all_chars is_digit ds = true ->
  skip_digits (ds ++ rest) = skip_digits rest.
Proof.
  induction ds as [| c ds IH]; cbn; [reflexivity |].
  intros H. apply andb_true_iff in H. destruct H as [Hc Hs].
  rewrite Hc. exact (IH Hs).
Qed.

Lemma skip_digits_cover (s : string) :
  exists ds : string, all_chars is_digit ds = true /\ s = (ds ++ skip_digits s)%string.
Proof.
  induction s as [| c s (ds & Hds & E)]; [now exists EmptyString |].
  cbn [skip_digits]. destruct (is_digit c) eqn:Hc.
  - exists (String c ds). cbn. rewrite Hc, Hds. split; [reflexivity |].
    now rewrite <- E.
  - now exists EmptyString.
Qed.

Lemma skip_minus_digit (c : ascii) (r : string) :
  is_digit c = true -> skip_minus (String c r) = String c r.
Proof.
  intros Hc. unfold skip_minus.
  destruct c as [[] [] [] [] [] [] [] []]; try reflexivity; discriminate Hc.
Qed.

(** A number with sign: a digit string after an optional minus. *)
Lemma signed_shape (s rest : string) :
  digits1 (skip_minus s) = Some rest ->
  exists (m : string) (c : ascii) (ds : string),
    s = (m ++ String c ds ++ rest)%string /\
    (m = EmptyString \/ m = "-") /\
    is_digit c = true /\ all_chars is_digit ds = true /\
    rest = skip_digits rest.
Proof.
  intros H.
  assert (Hcore : forall t, digits1 t = Some rest ->
            exists c ds, t = (String c ds ++ rest)%string /\
              is_digit c = true /\ all_chars is_digit ds = true /\
              rest = skip_digits rest).
  { intros t Ht. destruct t as [| c t]; [discriminate |]. cbn in Ht.
    destruct (is_digit c) eqn:Hc; [| discriminate]. injection Ht as <-.
    destruct (skip_digits_cover t) as (ds & Hds & E).
    exists c, ds. cbn. rewrite <- E. repeat split; trivial.
    clear. induction t as [| a t IH]; cbn; [reflexivity |].
    destruct (is_digit a) eqn:Ha; [exact IH | cbn; now rewrite Ha]. }
  destruct s as [| a s]; [discriminate |].
  destruct (Ascii.eqb_spec a "-") as [-> | Hm].
  - cbn [skip_minus] in H. destruct (Hcore s H) as (c & ds & -> & Hc & Hds & Hr).
    exists "-", c, ds. repeat split; trivial. now right.
  - assert (E : skip_minus (String a s) = String a s).
    { unfold skip_minus. destruct a as [[] [] [] [] [] [] [] []]; try reflexivity.
      now destruct Hm. }
    rewrite E in H. destruct (Hcore _ H) as (c & ds & -> & Hc & Hds & Hr).
    exists EmptyString, c, ds. repeat split; trivial. now left.
Qed.

Lemma int_digits_defined (ds : string) :
  all_chars is_digit ds = true ->
  forall acc : Z, exists n : Z, int_digits ds acc false = Some n.
Proof.
  induction ds as [| c ds IH]; cbn; intros H acc; [now exists acc |].
  apply andb_true_iff in H. destruct H as [Hc Hs]. rewrite Hc. now apply IH.
Qed.

(** [int] on a number with sign: it converts the text when its digits
    are within the limit and raises [ValueError] otherwise. *)
Lemma int_signed (m : string) (c : ascii) (ds : string) :
  m = EmptyString \/ m = "-" ->
  is_digit c = true -> all_chars is_digit ds = true ->
  (within_digit_limit (m ++ String c ds) ->
   exists n : Z, Py.int (m ++ String c ds) = Ok n) /\
  (~ within_digit_limit (m ++ String c ds) ->
   Py.int (m ++ String c ds) = Raise ValueError).
Proof.
  intros Hm Hc Hds. unfold within_digit_limit.
  destruct (int_digits_defined ds Hds (digit_value c)) as (n & Hn).
  assert (Hu : int_unsigned (String c ds) = Some n) by (cbn; now rewrite Hc).
  destruct Hm as [-> | ->]; cbn [append].
  - rewrite (int_of_digits _ c ds eq_refl Hc), Hu.
    destruct (Z.leb_spec (count_digits (String c ds)) max_str_digits);
      split; intros H'; try lia; [now exists n | reflexivity].
  - unfold Py.int. cbn [lstrip].
    change (is_space "-") with false. cbv iota. rewrite Hu. cbn [option_map].
    destruct (Z.leb_spec (count_digits (String "-" (String c ds))) max_str_digits);
      split; intros H'; try lia; [now exists (- n) | reflexivity].
Qed.

Lemma signed_no_colon (m : string) (c : ascii) (ds : string) :
  m = EmptyString \/ m = "-" ->
  is_digit c = true -> all_chars is_digit ds = true ->
  all_chars not_colon (m ++ String c ds) = true.
Proof.
  intros Hm Hc Hds.
  assert (H : all_chars not_colon (String c ds) = true)
    by (cbn; now rewrite (digit_not_colon c Hc), (digits_no_colon ds Hds)).
  destruct Hm as [-> | ->]; [exact H | cbn [append all_chars]].
  cbn [append all_chars] in H. now rewrite H.
Qed.

(** X16. Every colon-separated integer pair passes the argument type
    unchanged.  When neither number has more digits than [int] converts,
    [splitIntArgs] turns the pair into exactly two ints, so the unpacking
    into minimum and maximum cannot fail; when one of them has more,
    [splitIntArgs] raises [ValueError]. *)
Theorem pair_is_split_in_two :
  forall s : string,
    is_colon_separated_pair s = true ->
    colonSeparatedNumbersArgType s = Ok s /\
    (Forall within_digit_limit (split ":" s) ->
     exists a b : Z,
       splitIntArgs s = Ok [a; b] /\
       (l <- splitIntArgs s ;; unpack2 l) = Ok (a, b)) /\
    (~ Forall within_digit_limit (split ":" s) ->
     splitIntArgs s = Raise ValueError).
Proof.
  intros s H. split.
  { unfold colonSeparatedNumbersArgType. now rewrite (pair_matches s H). }
  unfold is_colon_separated_pair in H.
  destruct (digits1 (skip_minus s)) as [[| k r] |] eqn:E1; try discriminate.
  destruct (Ascii.eqb_spec k ":") as [-> | Hk];
    [| exfalso; destruct k as [[] [] [] [] [] [] [] []]; try discriminate H;
       now apply Hk].
  destruct (digits1 (skip_minus r)) as [[| ? ?] |] eqn:E2; try discriminate.
  destruct (signed_shape s _ E1) as (m1 & c1 & ds1 & -> & Hm1 & Hc1 & Hds1 & _).
  destruct (signed_shape r _ E2) as (m2 & c2 & ds2 & -> & Hm2 & Hc2 & Hds2 & _).
  destruct (int_signed m1 c1 ds1 Hm1 Hc1 Hds1) as (Ha & Ha').
  destruct (int_signed m2 c2 ds2 Hm2 Hc2 Hds2) as (Hb & Hb').
  assert (Hparts : split ":" (m1 ++ String c1 ds1 ++ String ":" (m2 ++ String c2 ds2 ++ EmptyString))
                   = [(m1 ++ String c1 ds1)%string; (m2 ++ String c2 ds2)%string]).
  { replace (m1 ++ String c1 ds1 ++ String ":" (m2 ++ String c2 ds2 ++ EmptyString))%string
      with ((m1 ++ String c1 ds1) ++ String ":" (m2 ++ String c2 ds2))%string.
    - rewrite split_at_colon by now apply signed_no_colon.
      now rewrite split_no_colon by now apply signed_no_colon.
    - rewrite append_assoc. cbn [append]. now rewrite append_nil_r. }
  unfold splitIntArgs. rewrite Hparts. cbn [mapM]. split.
  - intros Hall. inversion Hall as [| ? ? L1 Hall']; subst.
    inversion Hall' as [| ? ? L2 _]; subst.
    destruct (Ha L1) as (a & ->). destruct (Hb L2) as (b & ->).
    exists a, b. split; reflexivity.
  - intros Hnot.
    destruct (Z.le_gt_cases (count_digits (m1 ++ String c1 ds1)) max_str_digits)
      as [L1 | L1].
    + destruct (Ha L1) as (a & ->). cbn [bind].
      rewrite Hb'; [reflexivity |].
      intros L2. apply Hnot. repeat constructor; assumption.
    + rewrite Ha'; [reflexivity |]. unfold within_digit_limit. lia.
Qed.

Lemma str_int_no_colon (n : Z) : all_chars not_colon (str_int n) = true.
Proof.
  destruct (str_int_shape n) as (c & ds & Hc & Hds & [-> | ->]).
  - exact (signed_no_colon EmptyString c ds (or_introl eq_refl) Hc Hds).
  - exact (signed_no_colon "-" c ds (or_intror eq_refl) Hc Hds).
Qed.

Lemma digits1_str_int (n : Z) (rest : string) :
  digits1 (skip_minus (str_int n ++ rest)) = Some (skip_digits rest).
Proof.
  destruct (str_int_shape n) as (c & ds & Hc & Hds & [-> | ->]); cbn [append].
  - rewrite skip_minus_digit by exact Hc. cbn [digits1]. rewrite Hc.
    now rewrite skip_digits_app.
  - cbn [skip_minus digits1]. rewrite Hc. now rewrite skip_digits_app.
Qed.

Lemma str_pair_is_pair (a b : Z) :
  is_colon_separated_pair (str_int a ++ ":" ++ str_int b) = true.
Proof.
  unfold is_colon_separated_pair. rewrite digits1_str_int. cbn [append skip_digits].
  change (is_digit ":") with false. cbv iota.
  rewrite <- (append_nil_r (str_int b)). now rewrite digits1_str_int.
Qed.

Lemma splitIntArgs_str_pair (a b : Z) :
  printable a -> printable b ->
  splitIntArgs (str_int a ++ ":" ++ str_int b) = Ok [a; b].
Proof.
  intros Pa Pb. unfold splitIntArgs. cbn [append].
  rewrite split_at_colon by apply str_int_no_colon.
  rewrite split_no_colon by apply str_int_no_colon.
  cbn [mapM]. now rewrite !int_str_int by assumption.
Qed.

Lemma py_str_int_inv (n : Z) (text : string) :
  py_str_int n = Ok text -> text = str_int n /\ printable n.
Proof.
  unfold py_str_int, printable.
  destruct (Z.leb_spec (count_digits (str_int n)) max_str_digits);
    intros E; [injection E as <-; now split | discriminate].
Qed.

(** X17. Writing two ints with [str], a colon between them, and reading
    the result back with [splitIntArgs] gives the two ints again whenever
    [str] converts them (at most 4300 digits each); the string is a
    colon-separated integer pair, so the argument type accepts it. *)
Theorem splitIntArgs_of_str :
  forall (a b : Z) (sa sb : string),
    py_str_int a = Ok sa -> py_str_int b = Ok sb ->
    is_colon_separated_pair (sa ++ ":" ++ sb) = true /\
    splitIntArgs (sa ++ ":" ++ sb) = Ok [a; b].
Proof.
  intros a b sa sb Ha Hb.
  apply py_str_int_inv in Ha, Hb. destruct Ha as [-> Pa], Hb as [-> Pb].
  split; [apply str_pair_is_pair | now apply splitIntArgs_str_pair].
Qed.

Lemma signed_digits1 (m : string) (c : ascii) (ds rest : string) :
  m = EmptyString \/ m = "-" ->
  is_digit c = true -> all_chars is_digit ds = true ->
  digits1 (skip_minus (m ++ String c ds ++ rest)) = Some (skip_digits rest).
Proof.
  intros Hm Hc Hds. destruct Hm as [-> | ->]; cbn [append].
  - rewrite skip_minus_digit by exact Hc. cbn [digits1]. rewrite Hc.
    now rewrite skip_digits_app.
  - cbn [skip_minus digits1]. rewrite Hc. now rewrite skip_digits_app.
Qed.

(** X18. The argument type accepts exactly the strings that begin with a
    colon-separated integer pair, whatever comes after the pair; every
    other string raises [ArgumentTypeError]. *)
Theorem argtype_accepts_prefixes :
  forall s : string,
    (colonSeparatedNumbersArgType s = Ok s \/
     colonSeparatedNumbersArgType s = Raise ArgumentTypeError) /\
    (colonSeparatedNumbersArgType s = Ok s <->
     exists p rest : string,
       s = (p ++ rest)%string /\ is_colon_separated_pair p = true).
Proof.
  intros s.
  assert (Hiff : colonSeparatedNumbersPattern_match s = true <->
                 exists p rest : string,
                   s = (p ++ rest)%string /\ is_colon_separated_pair p = true).
  { split.
    - unfold colonSeparatedNumbersPattern_match. intros H.
      destruct (digits1 (skip_minus s)) as [[| k r] |] eqn:E1; try discriminate.
      destruct (Ascii.eqb_spec k ":") as [-> | Hk];
        [| exfalso; destruct k as [[] [] [] [] [] [] [] []]; try discriminate H;
           now apply Hk].
      destruct (digits1 (skip_minus r)) as [r2 |] eqn:E2; [| discriminate].
      destruct (signed_shape s _ E1) as (m1 & c1 & ds1 & -> & Hm1 & Hc1 & Hds1 & _).
      destruct (signed_shape r _ E2) as (m2 & c2 & ds2 & -> & Hm2 & Hc2 & Hds2 & _).
      exists (m1 ++ String c1 ds1 ++ String ":" (m2 ++ String c2 ds2 ++ ""))%string, r2.
      split.
      + repeat (first [rewrite append_assoc | rewrite append_nil_r | progress cbn [append]]).
        reflexivity.
      + unfold is_colon_separated_pair.
        rewrite (signed_digits1 m1 c1 ds1 _ Hm1 Hc1 Hds1). cbn [skip_digits].
        change (is_digit ":") with false. cbv iota.
        now rewrite (signed_digits1 m2 c2 ds2 _ Hm2 Hc2 Hds2).
    - intros (p & rest & -> & H). unfold is_colon_separated_pair in H.
      destruct (digits1 (skip_minus p)) as [[| k r] |] eqn:E1; try discriminate.
      destruct (Ascii.eqb_spec k ":") as [-> | Hk];
        [| exfalso; destruct k as [[] [] [] [] [] [] [] []]; try discriminate H;
           now apply Hk].
      destruct (digits1 (skip_minus r)) as [[| ? ?] |] eqn:E2; try discriminate.
      destruct (signed_shape p _ E1) as (m1 & c1 & ds1 & -> & Hm1 & Hc1 & Hds1 & _).
      destruct (signed_shape r _ E2) as (m2 & c2 & ds2 & -> & Hm2 & Hc2 & Hds2 & _).
      unfold colonSeparatedNumbersPattern_match.
      replace ((m1 ++ String c1 ds1 ++ String ":" (m2 ++ String c2 ds2 ++ "")) ++ rest)%string
        with (m1 ++ String c1 ds1 ++ String ":" (m2 ++ String c2 ds2 ++ rest))%string.
      + rewrite (signed_digits1 m1 c1 ds1 _ Hm1 Hc1 Hds1). cbn [skip_digits].
        change (is_digit ":") with false. cbv iota.
        now rewrite (signed_digits1 m2 c2 ds2 _ Hm2 Hc2 Hds2).
      + repeat (first [rewrite append_assoc | rewrite append_nil_r | progress cbn [append]]).
        reflexivity. }
  unfold colonSeparatedNumbersArgType.
  destruct (colonSeparatedNumbersPattern_match s) eqn:E; cbn [negb].
  - split; [now left |]. split; [intros _; now apply Hiff | reflexivity].
  - split; [now right |]. split; [discriminate |].
    intros H. apply Hiff in H. discriminate H.
Qed.

Section ArgumentsOfNumbers.

Context {F : Type} {PF : PyFloat F}.

Lemma argtype_str_pair (a b : Z) :
  argparse_type colonSeparatedNumbersArgType (str_int a ++ ":" ++ str_int b)
  = Ok (str_int a ++ ":" ++ str_int b)%string.
Proof.
  unfold argparse_type, colonSeparatedNumbersArgType.
  now rewrite (pair_matches _ (str_pair_is_pair a b)).
Qed.

(** X19. When the option values for the extents and the point counts are
    ints as [str] writes them (at most 4300 digits each), they are taken
    literally: the globals hold exactly those ints (also when a minimum
    exceeds its maximum or a count is below 2, nothing is checked), the
    budget given with [-M], 441 without it, and the two paths converted by
    [dsfPath]; [selectMeshInterval] is not consulted. *)
Theorem arguments_of_numbers :
  forall (x0 x1 y0 y1 nx ny : Z) (budget : option Z)
         (log out : option string) (dsf : bool),
    printable x0 -> printable x1 -> printable y0 -> printable y1 ->
    printable nx -> printable ny ->
    (forall m : Z, budget = Some m -> printable m) ->
    arguments_of (F := F)
      {| raw_x_extents := str_int x0 ++ ":" ++ str_int x1;
         raw_y_extents := str_int y0 ++ ":" ++ str_int y1;
         raw_probe_log_file := log;
         raw_heightmap_file := out;
         raw_num_points := Some (str_int nx ++ ":" ++ str_int ny)%string;
         raw_max_points := option_map str_int budget;
         raw_dsf_path_mode := dsf |}
    = Ok {| xMin := x0; xMax := x1; yMin := y0; yMax := y1;
            xPoints := nx; yPoints := ny;
            maxSamplePoints := match budget with Some m => m | None => 441 end;
            isDsfPathMode := dsf;
            probeLogPath :=
              dsfPath (match log with Some p => p | None => "meshbedprobe.log" end) dsf;
            heightmapPath :=
              dsfPath (match out with Some p => p | None => "heightmap.csv" end) dsf |}.
Proof.
  intros x0 x1 y0 y1 nx ny budget log out dsf Px0 Px1 Py0 Py1 Pnx Pny Pm.
  unfold arguments_of, parse_args.
  cbn [raw_x_extents raw_y_extents raw_num_points raw_max_points
       raw_probe_log_file raw_heightmap_file raw_dsf_path_mode].
  rewrite !argtype_str_pair. cbn [bind].
  assert (Hb : match option_map str_int budget with
               | Some s => argparse_type Py.int s
               | None => Ok 441
               end = Ok (match budget with Some m => m | None => 441 end)).
  { destruct budget as [m |]; cbn [option_map]; [| reflexivity].
    unfold argparse_type. now rewrite int_str_int by now apply Pm. }
  rewrite Hb. cbn [bind]. unfold process_args.
  cbn [x_extents y_extents num_points max_points dsf_path_mode
       probe_log_file heightmap_file].
  rewrite !splitIntArgs_str_pair by assumption. reflexivity.
Qed.

End ArgumentsOfNumbers.

(* ===================================================================== *)
(** * Properties of the whole run *)
(* ===================================================================== *)

Section Run.

Context {F : Type} {PF : PyFloat F}.

Lemma run_lift {A : Type} (w : world) (r : res A) :
  run w (lift (F := F) r) = ([], r).
Proof. now destruct r. Qed.

(** The run of [main] goes through the stages in order and stops at the
    first that fails. *)
Lemma run_main_staged (w : world) (argv : raw_args) :
  run w (main argv) = staged_run w argv.
Proof.
  unfold main, staged_run, arguments_of.
  destruct (parse_args argv) as [parsedArgs | e]; cbn [lift pbind bind run];
    [| reflexivity].
  destruct (process_args parsedArgs) as [g | e]; cbn [lift pbind bind run];
    [| reflexivity].
  unfold parseProbedPoints, perform. cbn [pbind run respond].
  destruct (w_readlines w (probeLogPath g)) as [lines | e];
    cbn [lift pbind bind run]; [| reflexivity].
  destruct (parse_lines lines) as [d | e]; cbn [lift pbind bind run];
    [| reflexivity].
  destruct (averageZOffset d) as [[[x y] z] | e]; cbn [lift pbind bind run];
    [| reflexivity].
  unfold upsampleBedMesh, perform. cbn [pbind run respond].
  fold (@script_kwargs F).
  destruct (w_rbf w x y z script_kwargs) as [f | e];
    cbn [lift pbind bind run]; [| reflexivity].
  destruct (buildMeshPoints g) as [[X Y] | e]; cbn [lift pbind bind run];
    [| reflexivity].
  unfold writeHeightmap, perform. cbn [pbind run respond lift].
  destruct (heightmap_text g _ _) as [text | e]; cbn [lift pbind bind run respond];
    [| reflexivity].
  destruct (w_write w (heightmapPath g) text) as [[] | e];
    cbn [lift pbind bind run respond]; [| reflexivity].
  rewrite run_lift. reflexivity.
Qed.

Lemma int_raises_ValueError (s : string) (e : exn) :
  Py.int s = Raise e -> e = ValueError.
Proof.
  unfold Py.int. destruct (match lstrip s with
                           | String "-" r => option_map Z.opp (int_unsigned r)
                           | String "+" r => int_unsigned r
                           | _ => int_unsigned (lstrip s)
                           end);
    [destruct (_ <=? _); [discriminate |] |]; congruence.
Qed.

Lemma splitIntArgs_raises_ValueError (s : string) (e : exn) :
  splitIntArgs s = Raise e -> e = ValueError.
Proof.
  unfold splitIntArgs. generalize (split ":" s). intros l.
  induction l as [| a l IH]; cbn; [discriminate |].
  destruct (Py.int a) eqn:Ea; cbn.
  - destruct (mapM Py.int l); cbn; [discriminate | exact IH].
  - intros H. injection H as <-. exact (int_raises_ValueError a _ Ea).
Qed.

Lemma unpack2_raises_ValueError {A : Type} (l : list A) (e : exn) :
  unpack2 l = Raise e -> e = ValueError.
Proof.
  destruct l as [| a [| b [| c l]]]; cbn; congruence.
Qed.

Lemma split_pair_raises_ValueError (s : string) (e : exn) :
  (l <- splitIntArgs s ;; unpack2 l) = Raise e -> e = ValueError.
Proof.
  destruct (splitIntArgs s) as [l | e'] eqn:E; cbn.
  - apply unpack2_raises_ValueError.
  - intros H. injection H as <-. exact (splitIntArgs_raises_ValueError s _ E).
Qed.

Lemma argparse_type_raises {A : Type} (type : string -> res A) (s : string) (e : exn) :
  argparse_type type s = Raise e -> e = SystemExit 2.
Proof. unfold argparse_type. destruct (type s); congruence. Qed.

Lemma parse_args_raises (argv : raw_args) (e : exn) :
  parse_args argv = Raise e -> e = SystemExit 2.
Proof.
  unfold parse_args.
  destruct (argparse_type colonSeparatedNumbersArgType (raw_x_extents argv))
    eqn:E1; cbn [bind]; [| intros H; injection H as <-; eapply argparse_type_raises; eassumption].
  destruct (argparse_type colonSeparatedNumbersArgType (raw_y_extents argv))
    eqn:E2; cbn [bind]; [| intros H; injection H as <-; eapply argparse_type_raises; eassumption].
  destruct (raw_num_points argv) as [np |]; cbn [bind].
  - destruct (argparse_type colonSeparatedNumbersArgType np) eqn:E3; cbn [bind];
      [| intros H; injection H as <-; eapply argparse_type_raises; eassumption].
    destruct (raw_max_points argv) as [mp |]; cbn [bind]; [| discriminate].
    destruct (argparse_type Py.int mp) eqn:E4; cbn [bind]; [discriminate |].
    intros H; injection H as <-; eapply argparse_type_raises; eassumption.
  - destruct (raw_max_points argv) as [mp |]; cbn [bind]; [| discriminate].
    destruct (argparse_type Py.int mp) eqn:E4; cbn [bind]; [discriminate |].
    intros H; injection H as <-; eapply argparse_type_raises; eassumption.
Qed.

(** The exceptions of the processing: a [ValueError] of [int] or of an
    unpacking, or the [OverflowError] of [selectMeshInterval]. *)
Lemma process_args_raises (parsedArgs : namespace) (e : exn) :
  process_args parsedArgs = Raise e ->
  e = ValueError \/
  (e = OverflowError /\ num_points parsedArgs = None /\ 4 <= max_points parsedArgs).
Proof.
  unfold process_args.
  destruct (splitIntArgs (x_extents parsedArgs)) as [xs | e1] eqn:E1; cbn [bind];
    [| intros H; injection H as <-; left; eapply splitIntArgs_raises_ValueError; eassumption].
  destruct (unpack2 xs) as [[x0 x1] | e2] eqn:E2; cbn [bind];
    [| intros H; injection H as <-; left; eapply unpack2_raises_ValueError; eassumption].
  destruct (splitIntArgs (y_extents parsedArgs)) as [ys | e3] eqn:E3; cbn [bind];
    [| intros H; injection H as <-; left; eapply splitIntArgs_raises_ValueError; eassumption].
  destruct (unpack2 ys) as [[y0 y1] | e4] eqn:E4; cbn [bind];
    [| intros H; injection H as <-; left; eapply unpack2_raises_ValueError; eassumption].
  destruct (num_points parsedArgs) as [np |].
  - destruct (l <- splitIntArgs np ;; unpack2 l) as [[a b] | e5] eqn:E5; cbn [bind];
      [discriminate |].
    intros H; injection H as <-. left. eapply split_pair_raises_ValueError; eassumption.
  - destruct (selectMeshInterval_outcome x0 x1 y0 y1 (max_points parsedArgs))
      as [E | (xc & yc & E & _)]; rewrite E; cbn [bind]; [| discriminate].
    intros H. injection H as <-. right. split; [reflexivity |]. split; [reflexivity |].
    destruct (Z.lt_ge_cases (max_points parsedArgs) 4) as [Hlt | Hge]; [| exact Hge].
    rewrite selectMeshInterval_small_budget in E by exact Hlt. discriminate E.
Qed.

(** X8. A command line that cannot be processed ends the script before
    anything is read, fitted, printed or written.  The exception is the
    usage error of argparse (exit status 2), a [ValueError] from the
    conversion of the numbers, or, when the counts are left to
    [selectMeshInterval] with a budget of at least 4, the [OverflowError]
    of a side length beyond the range of a double. *)
Theorem bad_arguments_touch_nothing :
  forall (w : world) (argv : raw_args) (e : exn),
    arguments_of argv = Raise e ->
    run w (main argv) = ([], Raise e) /\
    (e = SystemExit 2 \/ e = ValueError \/
     (e = OverflowError /\ raw_num_points argv = None)).
Proof.
  intros w argv e H. split.
  - rewrite run_main_staged. unfold staged_run. now rewrite H.
  - unfold arguments_of in H.
    destruct (parse_args argv) as [parsedArgs | e'] eqn:E; cbn [bind] in H.
    + right. destruct (process_args_raises _ _ H) as [-> | (-> & Hn & _)];
        [now left | right]. split; [reflexivity |].
      unfold parse_args in E.
      destruct (argparse_type colonSeparatedNumbersArgType (raw_x_extents argv));
        cbn [bind] in E; [| discriminate].
      destruct (argparse_type colonSeparatedNumbersArgType (raw_y_extents argv));
        cbn [bind] in E; [| discriminate].
      destruct (raw_num_points argv) as [np |]; [| reflexivity].
      cbn [bind] in E.
      destruct (argparse_type colonSeparatedNumbersArgType np);
        cbn [bind] in E; [| discriminate].
      destruct (match raw_max_points argv with
                | Some s => argparse_type Py.int s
                | None => Ok 441
                end); cbn [bind] in E; [| discriminate].
      injection E as <-. discriminate Hn.
    + injection H as <-. left. exact (parse_args_raises _ _ E).
Qed.

(** X9. Whatever the command line and the outside world, the script makes
    its calls in one order, each at most once: read the log, fit, take the
    time, print, write the file, change its mode.  The file is written
    only after its whole text has been printed, with that same text, and
    its mode is changed only after it has been written. *)
Theorem run_follows_the_stages :
  forall (w : world) (argv : raw_args),
    (exists n : nat,
        map call_stage (fst (run w (main argv))) = firstn n stages) /\
    (forall (path text : string),
        In (WriteFile path text) (fst (run w (main argv))) ->
        In (Print text) (fst (run w (main argv)))) /\
    (forall (path : string) (mode : Z),
        In (Chmod path mode) (fst (run w (main argv))) ->
        mode = 511 /\
        exists text : string,
          In (WriteFile path text) (fst (run w (main argv))) /\
          w_write w path text = Ok tt).
Proof.
  intros w argv. rewrite run_main_staged. unfold staged_run.
  destruct (arguments_of argv) as [g | e];
    [| split; [exists 0%nat; reflexivity | split; intros; contradiction]].
  destruct (w_readlines w (probeLogPath g)) as [lines | e];
    [| split; [exists 1%nat; reflexivity
              | split; cbn; intros; intuition discriminate]].
  destruct (d <- parse_lines lines ;; averageZOffset d) as [[[x y] z] | e];
    [| split; [exists 1%nat; reflexivity
              | split; cbn; intros; intuition discriminate]].
  destruct (w_rbf w x y z script_kwargs) as [f | e];
    [| split; [exists 2%nat; reflexivity
              | split; cbn; intros; intuition discriminate]].
  destruct (buildMeshPoints g) as [[X Y] | e];
    [| split; [exists 2%nat; reflexivity
              | split; cbn; intros; intuition discriminate]].
  destruct (heightmap_text g _ _) as [text | e];
    [| split; [exists 3%nat; reflexivity
              | split; cbn; intros; intuition discriminate]].
  destruct (w_write w (heightmapPath g) text) as [[] | e] eqn:Ew.
  - split; [exists 6%nat; reflexivity |]. split; cbn.
    + intros path t H. repeat (destruct H as [H | H]; try discriminate H);
        try contradiction.
      injection H as _ <-. tauto.
    + intros path mode H. repeat (destruct H as [H | H]; try discriminate H);
        try contradiction.
      injection H as <- <-. split; [reflexivity |]. exists text. tauto.
  - split; [exists 5%nat; reflexivity |]. split; cbn.
    + intros path t H. repeat (destruct H as [H | H]; try discriminate H);
        try contradiction.
      injection H as _ <-. tauto.
    + intros path mode H. repeat (destruct H as [H | H]; try discriminate H);
        contradiction.
Qed.

End Run.

Section Mesh.

Context {F : Type} {PF : PyFloat F}.

Lemma surface_mesh_entry (g : globals) (f : F -> F -> F) (i j : nat) (d : F) :
  (i < Z.to_nat (yPoints g))%nat -> (j < Z.to_nat (xPoints g))%nat ->
  nth j (nth i (surface_mesh g f) []) d
  = f (linspace_at (xMin g) (xMax g) (xPoints g) (Z.of_nat j))
      (linspace_at (yMin g) (yMax g) (yPoints g) (Z.of_nat i)).
Proof.
  intros Hi Hj. unfold surface_mesh, nodes.
  rewrite map_map.
  rewrite (nth_indep _ [] (map (fun xv => f xv (linspace_at (yMin g) (yMax g) (yPoints g) (Z.of_nat 0)))
                               (map (fun i0 => linspace_at (xMin g) (xMax g) (xPoints g) (Z.of_nat i0))
                                    (seq 0 (Z.to_nat (xPoints g))))))
    by now rewrite length_map, length_seq.
  rewrite (map_nth (fun i0 => map (fun xv => f xv (linspace_at (yMin g) (yMax g) (yPoints g) (Z.of_nat i0)))
                                  (map (fun i1 => linspace_at (xMin g) (xMax g) (xPoints g) (Z.of_nat i1))
                                       (seq 0 (Z.to_nat (xPoints g)))))
                   (seq 0 (Z.to_nat (yPoints g))) 0%nat i).
  rewrite seq_nth by assumption. cbn [Nat.add].
  rewrite map_map.
  rewrite (nth_indep _ d (f (linspace_at (xMin g) (xMax g) (xPoints g) (Z.of_nat 0))
                            (linspace_at (yMin g) (yMax g) (yPoints g) (Z.of_nat i))))
    by now rewrite length_map, length_seq.
  rewrite (map_nth (fun i0 => f (linspace_at (xMin g) (xMax g) (xPoints g) (Z.of_nat i0))
                                (linspace_at (yMin g) (yMax g) (yPoints g) (Z.of_nat i)))
                   (seq 0 (Z.to_nat (xPoints g))) 0%nat j).
  now rewrite seq_nth by assumption.
Qed.

(** X10. For counts that are not negative, extents within the range of a
    double and a fit that returns the surface [f], [upsampleBedMesh] makes the one call of [Rbf] and returns
    a mesh with one row per y node and one column per x node: the entry in
    row [i], column [j] is [f] at the [j]-th node of
    [np.linspace(xMin, xMax, xPoints)] and the [i]-th node of
    [np.linspace(yMin, yMax, yPoints)].  That mesh is what
    [writeHeightmap] is run on. *)
Theorem upsampled_mesh_entries :
  forall (w : world) (g : globals) (x y z : list F) (f : F -> F -> F),
    0 <= xPoints g -> 0 <= yPoints g -> extents_in_range g ->
    w_rbf w x y z script_kwargs = Ok f ->
    exists mesh : grid,
      run w (upsampleBedMesh g (x, y, z)) = ([RbfFit x y z script_kwargs], Ok mesh) /\
      List.length mesh = Z.to_nat (yPoints g) /\
      (forall (i j : nat) (d : F),
          (i < Z.to_nat (yPoints g))%nat -> (j < Z.to_nat (xPoints g))%nat ->
          nth j (nth i mesh []) d
          = f (linspace_at (xMin g) (xMax g) (xPoints g) (Z.of_nat j))
              (linspace_at (yMin g) (yMax g) (yPoints g) (Z.of_nat i))) /\
      run w (interpolate_and_write g (x, y, z))
      = (RbfFit x y z script_kwargs :: fst (run w (writeHeightmap g mesh)),
         snd (run w (writeHeightmap g mesh))).
Proof.
  intros w g x y z f Hx Hy _ Hfit.
  destruct (buildMeshPoints_surface g f Hx Hy) as (X & Y & Hb & Hm).
  exists (surface_mesh g f). split; [| split; [| split]].
  - unfold upsampleBedMesh, perform. cbn [pbind run respond].
    fold (@script_kwargs F). rewrite Hfit. cbn [lift pbind]. rewrite Hb.
    cbn [lift pbind run]. now rewrite Hm.
  - exact (proj1 (surface_mesh_shape g f)).
  - intros i j d. apply surface_mesh_entry.
  - unfold interpolate_and_write, upsampleBedMesh, perform.
    cbn [pbind run respond]. fold (@script_kwargs F). rewrite Hfit.
    cbn [lift pbind]. rewrite Hb. cbn [lift pbind]. rewrite Hm.
    now destruct (run w (writeHeightmap g (surface_mesh g f))).
Qed.


(** ** [averageZOffset] on any dict *)

Lemma average_fold_empty_group (d : dict) :
  Exists (fun e => snd e = []) d ->
  forall acc : list F * list F * list F,
    foldM average_step d acc = Raise ZeroDivisionError.
Proof.
  induction d as [| [k v] d IH]; intros Hex acc; [inversion Hex |].
  cbn [foldM]. destruct acc as [[x y] z]. unfold average_step at 1.
  destruct v as [| z0 v].
  - reflexivity.
  - unfold py_truediv_float_int.
    destruct (Z.eqb_spec (Z.of_nat (List.length (z0 :: v))) 0) as [E | _];
      [cbn in E; lia |].
    cbn [bind]. apply IH. inversion Hex as [? ? H | ? ? H]; subst;
      [discriminate H | exact H].
Qed.

(** X12. [averageZOffset] succeeds exactly on the dicts without an empty
    group: then it returns one x, one y and one z per entry of the dict, in
    the order of the dict; a dict with an empty group makes it raise
    [ZeroDivisionError] ([sum([]) / len([])]). *)
Theorem averageZOffset_defined :
  forall d : dict,
    (Forall (fun e => snd e <> []) d ->
     averageZOffset d =
     Ok (map (fun e => fst (fst e)) d, map (fun e => snd (fst e)) d,
         map (fun e => fdiv (fsum (snd e)) (of_int (Z.of_nat (List.length (snd e))))) d)) /\
    (Exists (fun e => snd e = []) d ->
     averageZOffset d = Raise ZeroDivisionError).
Proof.
  intros d. split.
  - intros Hall. unfold averageZOffset.
    assert (Hgen : forall x y z : list F,
               foldM average_step d (x, y, z) =
               Ok (x ++ map (fun e => fst (fst e)) d,
                   y ++ map (fun e => snd (fst e)) d,
                   z ++ map (fun e => fdiv (fsum (snd e))
                                        (of_int (Z.of_nat (List.length (snd e))))) d)).
    { induction Hall as [| [k v] d Hv Hall IH]; intros x y z; cbn.
      - now rewrite !app_nil_r.
      - unfold py_truediv_float_int.
        destruct (Z.eqb_spec (Z.of_nat (List.length v)) 0) as [E | _].
        + destruct v; [now destruct Hv | cbn in E; lia].
        + cbn [bind]. rewrite IH. now rewrite <- !app_assoc. }
    exact (Hgen [] [] []).
  - intros Hex. exact (average_fold_empty_group d Hex _).
Qed.

End Mesh.

Section RunLog.

Context {F : Type} {PF : PyFloat F}.

Lemma foldM_app {A S : Type} (f : S -> A -> res S) (l1 l2 : list A) (s : S) :
  foldM f (l1 ++ l2) s = (s1 <- foldM f l1 s ;; foldM f l2 s1).
Proof.
  revert s. induction l1 as [| a l1 IH]; intros s; cbn; [reflexivity |].
  destruct (f s a); cbn; [apply IH | reflexivity].
Qed.

Lemma parse_lines_unmatched (lines : list string) (d : dict) :
  Forall (fun line => probePointPattern_search line = None) lines ->
  foldM parse_line lines d = Ok d.
Proof.
  induction 1 as [| line lines Hline Hall IH]; cbn; [reflexivity |].
  unfold parse_line at 1. rewrite Hline. exact IH.
Qed.

(** X13. A log without a single probe line is not an error for the script
    itself: the dict stays empty and [Rbf] is called with three empty
    lists. *)
Theorem log_without_probe_lines :
  forall (w : world) (argv : raw_args) (g : globals) (lines : list string),
    arguments_of argv = Ok g ->
    w_readlines w (probeLogPath g) = Ok lines ->
    Forall (fun line => probePointPattern_search line = None) lines ->
    parse_lines lines = Ok [] /\
    exists (rest : list call) (outcome : res unit),
      run w (main argv)
        = (ReadLines (probeLogPath g) :: RbfFit [] [] [] script_kwargs :: rest,
           outcome).
Proof.
  intros w argv g lines Hargs Hread Hnone.
  assert (Hparse : parse_lines lines = Ok [])
    by exact (parse_lines_unmatched lines [] Hnone).
  split; [exact Hparse |].
  rewrite run_main_staged. unfold staged_run.
  rewrite Hargs, Hread, Hparse. cbn [bind averageZOffset foldM].
  destruct (w_rbf w [] [] [] script_kwargs) as [f | e]; [| now eexists _, _].
  destruct (buildMeshPoints g) as [[X Y] | e]; [| now eexists _, _].
  destruct (heightmap_text g _ _) as [text | e]; [| now eexists _, _].
  destruct (w_write w (heightmapPath g) text) as [[] | e]; now eexists _, _.
Qed.

Lemma parse_line_bad_field (d : dict) (line c0 c1 c2 : string) :
  probePointPattern_search line = Some (c0, c1, c2) ->
  float_of_string c0 = None \/ float_of_string c1 = None \/ float_of_string c2 = None ->
  parse_line d line = Raise ValueError.
Proof.
  intros Hs Hbad. unfold parse_line, py_float. rewrite Hs.
  destruct (float_of_string c0); [| reflexivity]. cbn [bind].
  destruct (float_of_string c1); [| reflexivity]. cbn [bind].
  destruct (float_of_string c2); [| reflexivity].
  destruct Hbad as [H | [H | H]]; discriminate H.
Qed.

(** X14. The probe pattern also matches lines whose number fields are
    empty or are only a sign or a point; [float] rejects such a field, so
    the first such line after well-formed ones makes the run end in
    [ValueError] right after the log is read, whatever follows it. *)
Theorem malformed_probe_line_raises :
  forall (w : world) (argv : raw_args) (g : globals)
         (pre post : list string) (line c0 c1 c2 : string) (d : dict),
    arguments_of argv = Ok g ->
    w_readlines w (probeLogPath g) = Ok (pre ++ line :: post) ->
    parse_lines pre = Ok d ->
    probePointPattern_search line = Some (c0, c1, c2) ->
    float_of_string c0 = None \/ float_of_string c1 = None \/ float_of_string c2 = None ->
    parse_lines (pre ++ line :: post) = Raise ValueError /\
    run w (main argv) = ([ReadLines (probeLogPath g)], Raise ValueError).
Proof.
  intros w argv g pre post line c0 c1 c2 d Hargs Hread Hpre Hs Hbad.
  assert (Hparse : parse_lines (pre ++ line :: post) = Raise ValueError).
  { unfold parse_lines in *. rewrite foldM_app, Hpre. cbn [bind foldM].
    now rewrite (parse_line_bad_field d line c0 c1 c2 Hs Hbad). }
  split; [exact Hparse |].
  rewrite run_main_staged. unfold staged_run.
  now rewrite Hargs, Hread, Hparse.
Qed.

End RunLog.

Section RunSuccess.

Context {F : Type} {PF : PyFloat F} {PE : PyFloatEq F}.

(** X15. A run in which every stage succeeds, with counts of at least 2,
    the extents and the two spacings of the settings line within the range
    of a double and ints that [str] converts: the log is read once; [Rbf] gets the distinct coordinates of the
    samples in first-seen order, each with the mean of its heights; the
    text that is printed and written to [heightmapPath] holds the header,
    the column names, the settings and one line per row of the surface on
    the grid; the last call sets the mode of the file to 0o777. *)
Theorem successful_run :
  forall (w : world) (argv : raw_args) (g : globals)
         (lines : list string) (samples : list sample) (f : F -> F -> F),
    arguments_of argv = Ok g ->
    2 <= xPoints g -> 2 <= yPoints g ->
    extents_in_range g -> spacings_in_range g -> settings_printable g ->
    w_readlines w (probeLogPath g) = Ok lines ->
    probed_samples lines = Ok samples ->
    w_rbf w (map fst (first_seen (map sample_xy samples)))
            (map snd (first_seen (map sample_xy samples)))
            (map (fun k => mean (observations k samples))
                 (first_seen (map sample_xy samples)))
            script_kwargs = Ok f ->
    (forall text : string, w_write w (heightmapPath g) text = Ok tt) ->
    exists text : string,
      text = unlines (header_text (w_now w "%Y-%m-%d %H:%M") :: columns_text
                        :: settings_text g :: map row_text (surface_mesh g f)) /\
      run w (main argv)
        = ([ReadLines (probeLogPath g);
            RbfFit (map fst (first_seen (map sample_xy samples)))
                   (map snd (first_seen (map sample_xy samples)))
                   (map (fun k => mean (observations k samples))
                        (first_seen (map sample_xy samples)))
                   script_kwargs;
            Now "%Y-%m-%d %H:%M";
            Print text;
            WriteFile (heightmapPath g) text;
            Chmod (heightmapPath g) 511],
           w_chmod w (heightmapPath g) 511).
Proof.
  intros w argv g lines samples f Hargs Hx Hy _ Hr Hp Hread Hsamples Hfit Hwrite.
  eexists. split; [reflexivity |].
  rewrite run_main_staged. unfold staged_run.
  rewrite Hargs, Hread, (parse_lines_grouping lines samples Hsamples).
  cbn [bind]. rewrite averageZOffset_grouping. cbv zeta. rewrite Hfit.
  destruct (buildMeshPoints_surface g f) as (X & Y & Hb & Hm); try lia.
  rewrite Hb, Hm. rewrite heightmap_text_lines by (assumption || lia).
  rewrite Hwrite. reflexivity.
Qed.

End RunSuccess.
(* ===================================================================== *)
(** * Quotients rounded to doubles satisfy the laws of [>] *)
(* ===================================================================== *)

Module Binary64Facts.

Import Binary64.

Lemma pow2_pos k : (0 < pow2 k)%Q.
Proof. apply Qpower_0_lt. reflexivity. Qed.

Lemma pow2_add k j : (pow2 (k + j) == pow2 k * pow2 j)%Q.
Proof. apply Qpower_plus. discriminate. Qed.

Lemma pow2_nonneg k : 0 <= k -> (pow2 k == inject_Z (2 ^ k))%Q.
Proof. intros H. unfold pow2. now rewrite Zpower_Qpower. Qed.

Lemma pow2_neg k : k <= 0 -> (pow2 k == 1 # Z.to_pos (2 ^ (- k)))%Q.
Proof.
  intros H. unfold pow2. replace k with (- (- k)) at 1 by lia.
  rewrite Qpower_opp. change (2%Q) with (inject_Z 2).
  rewrite <- Zpower_Qpower by lia.
  assert (0 < 2 ^ (- k)) by (apply Z.pow_pos_nonneg; lia).
  destruct (2 ^ (- k)) eqn:E; try lia. reflexivity.
Qed.

Lemma pow2_le k j : k <= j -> (pow2 k <= pow2 j)%Q.
Proof.
  intros H. replace j with (k + (j - k)) by lia. rewrite pow2_add.
  assert (1 <= pow2 (j - k))%Q.
  { rewrite pow2_nonneg by lia. change 1%Q with (inject_Z 1). rewrite <- Zle_Qle.
    assert (0 < 2 ^ (j - k)) by (apply Z.pow_pos_nonneg; lia). lia. }
  pose proof (pow2_pos k). nra.
Qed.

Lemma pow2_lt k j : k < j -> (2 * pow2 k <= pow2 j)%Q.
Proof.
  intros H. pose proof (pow2_le (k + 1) j ltac:(lia)) as L.
  rewrite pow2_add in L. change (pow2 1) with (2%Q) in L. lra.
Qed.

Lemma log2_pow2 (m : Z) : 0 < m ->
  (pow2 (Z.log2 m) <= inject_Z m /\ inject_Z m < pow2 (Z.log2 m + 1))%Q.
Proof.
  intros Hm. destruct (Z.log2_spec m Hm) as [L U].
  pose proof (Z.log2_nonneg m).
  rewrite !pow2_nonneg by lia. rewrite <- Zle_Qle, <- Zlt_Qlt.
  replace (Z.log2 m + 1) with (Z.succ (Z.log2 m)) by lia. split; assumption.
Qed.

(** The test of [exponent], read on rationals. *)
Lemma exponent_test (m b e : Z) : 0 < m -> 0 < b ->
  (if 0 <=? e then b * 2 ^ e <=? m else b <=? m * 2 ^ (- e)) = true <->
  (pow2 e * inject_Z b <= inject_Z m)%Q.
Proof.
  intros Hm Hb. destruct (Z.leb_spec 0 e) as [He | He].
  - rewrite pow2_nonneg by lia. rewrite <- inject_Z_mult, <- Zle_Qle.
    rewrite Z.leb_le. split; intros; lia.
  - rewrite Z.leb_le.
    assert (E : (pow2 e * pow2 (- e) == 1)%Q).
    { rewrite <- pow2_add. now replace (e + - e) with 0 by lia. }
    pose proof (pow2_pos e) as Pe. pose proof (pow2_pos (- e)) as Pn.
    assert (En : (pow2 (- e) == inject_Z (2 ^ (- e)))%Q) by (apply pow2_nonneg; lia).
    rewrite Zle_Qle, inject_Z_mult, <- En.
    assert (Hb' : (inject_Z b == pow2 e * inject_Z b * pow2 (- e))%Q).
    { transitivity ((pow2 e * pow2 (- e)) * inject_Z b)%Q; [rewrite E; ring | ring]. }
    assert (Hm' : (inject_Z m == pow2 e * (inject_Z m * pow2 (- e)))%Q).
    { transitivity ((pow2 e * pow2 (- e)) * inject_Z m)%Q; [rewrite E; ring | ring]. }
    split; intros H.
    + rewrite Hm'. rewrite (Qmult_le_l _ _ _ Pe). exact H.
    + rewrite Hb'. apply Qmult_le_compat_r; [exact H | now apply Qlt_le_weak].
Qed.

Lemma exponent_spec (m b : Z) : 0 < m -> 0 < b ->
  (pow2 (exponent m b) * inject_Z b <= inject_Z m /\
   inject_Z m < pow2 (exponent m b + 1) * inject_Z b)%Q.
Proof.
  intros Hm Hb. unfold exponent.
  set (e := Z.log2 m - Z.log2 b).
  destruct (log2_pow2 m Hm) as [Lm Um]. destruct (log2_pow2 b Hb) as [Lb Ub].
  assert (Hbq : (0 < inject_Z b)%Q) by (change 0%Q with (inject_Z 0); now rewrite <- Zlt_Qlt).
  assert (E1 : (pow2 (Z.log2 m + 1) == pow2 (e + 1) * pow2 (Z.log2 b))%Q).
  { rewrite <- pow2_add. unfold e. now replace (Z.log2 m - Z.log2 b + 1 + Z.log2 b) with (Z.log2 m + 1) by lia. }
  assert (E2 : (pow2 (Z.log2 m) == pow2 (e - 1) * pow2 (Z.log2 b + 1))%Q).
  { rewrite <- pow2_add. unfold e. now replace (Z.log2 m - Z.log2 b - 1 + (Z.log2 b + 1)) with (Z.log2 m) by lia. }
  pose proof (pow2_pos (e + 1)). pose proof (pow2_pos (e - 1)).
  destruct (if 0 <=? e then b * 2 ^ e <=? m else b <=? m * 2 ^ (- e)) eqn:T.
  - apply (exponent_test m b e Hm Hb) in T. split; [exact T |].
    rewrite E1 in Um. nra.
  - replace (e - 1 + 1) with e by lia. split.
    + rewrite E2 in Lm. nra.
    + apply Qnot_le_lt. intros C. apply (exponent_test m b e Hm Hb) in C. congruence.
Qed.

Lemma nearest_even_proper (N : Z) (s s' : Q) :
  (s == s')%Q -> nearest_even N s -> nearest_even N s'.
Proof.
  intros E [[L U] T]. split; [split; lra |].
  intros [H | H]; apply T; [left | right]; lra.
Qed.

Lemma round_half_even_nearest (n d : Z) :
  0 < d -> nearest_even (round_half_even n d) (inject_Z n / inject_Z d).
Proof.
  intros Hd.
  assert (Hdq : (0 < inject_Z d)%Q) by (change 0%Q with (inject_Z 0); now rewrite <- Zlt_Qlt).
  pose proof (Z.div_mod n d ltac:(lia)) as Hdiv.
  pose proof (Z.mod_pos_bound n d Hd) as Hr.
  set (q := n / d) in *. set (r := n mod d) in *.
  assert (Es : (inject_Z n / inject_Z d == inject_Z q + inject_Z r / inject_Z d)%Q).
  { rewrite Hdiv, inject_Z_plus, inject_Z_mult. field. lra. }
  assert (Hr0 : (0 <= inject_Z r / inject_Z d)%Q).
  { apply Qle_shift_div_l; [exact Hdq |]. rewrite Qmult_0_l.
    change 0%Q with (inject_Z 0). rewrite <- Zle_Qle. lia. }
  apply (nearest_even_proper _ (inject_Z q + inject_Z r / inject_Z d)); [now symmetry |].
  unfold round_half_even. fold q r.
  destruct (Z.compare_spec (2 * r) d) as [E | L | G].
  - assert (Eh : (inject_Z r / inject_Z d == 1 # 2)%Q).
    { assert (Hd2 : (inject_Z d == 2 * inject_Z r)%Q)
        by (rewrite <- E, inject_Z_mult; reflexivity).
      assert (Hrd : (inject_Z r / inject_Z d * inject_Z d == inject_Z r)%Q)
        by (field; lra).
      apply (proj1 (Qmult_inj_r _ _ (inject_Z d) ltac:(lra))).
      rewrite Hrd. lra. }
    destruct (Z.even q) eqn:Ev.
    + split; [split; lra |]. intros _. exact Ev.
    + split; [rewrite inject_Z_plus; change (inject_Z 1) with 1%Q; split; lra |].
      intros _. rewrite Z.even_add, Ev. reflexivity.
  - assert (Hlt : (inject_Z r / inject_Z d < 1 # 2)%Q).
    { apply Qlt_shift_div_r; [exact Hdq |].
      assert (inject_Z (2 * r) < inject_Z d)%Q by now rewrite <- Zlt_Qlt.
      rewrite inject_Z_mult in H. change (inject_Z 2) with 2%Q in H. lra. }
    split; [split; lra |]. intros [H | H]; lra.
  - assert (Hgt : (1 # 2 < inject_Z r / inject_Z d)%Q).
    { apply Qlt_shift_div_l; [exact Hdq |].
      assert (inject_Z d < inject_Z (2 * r))%Q by now rewrite <- Zlt_Qlt.
      rewrite inject_Z_mult in H. change (inject_Z 2) with 2%Q in H. lra. }
    assert (Hlt : (inject_Z r / inject_Z d < 1)%Q).
    { apply Qlt_shift_div_r; [exact Hdq |].
      assert (inject_Z r < inject_Z d)%Q by (rewrite <- Zlt_Qlt; lia). lra. }
    unfold nearest_even. rewrite inject_Z_plus. change (inject_Z 1) with 1%Q.
    split; [split; lra |]. intros [H | H]; lra.
Qed.

Lemma nearest_even_mono (N1 N2 : Z) (s1 s2 : Q) :
  nearest_even N1 s1 -> nearest_even N2 s2 -> (s1 <= s2)%Q -> N1 <= N2.
Proof.
  intros [[L1 U1] T1] [[L2 U2] T2] Hs.
  destruct (Z.le_gt_cases N1 N2) as [H | H]; [exact H | exfalso].
  assert (Hq : (inject_Z N2 + 1 <= inject_Z N1)%Q).
  { change 1%Q with (inject_Z 1). rewrite <- inject_Z_plus, <- Zle_Qle. lia. }
  assert (E1 : Z.even N1 = true) by (apply T1; right; lra).
  assert (E2 : Z.even N2 = true) by (apply T2; left; lra).
  assert (EN : N1 = N2 + 1).
  { apply inject_Z_injective. rewrite inject_Z_plus. change (inject_Z 1) with 1%Q. lra. }
  rewrite EN, Z.even_add, E2 in E1. discriminate E1.
Qed.

Lemma nearest_even_ge (N L : Z) (s : Q) :
  nearest_even N s -> (inject_Z L <= s)%Q -> L <= N.
Proof.
  intros [[Lo _] _] H.
  destruct (Z.le_gt_cases L N) as [G | G]; [exact G | exfalso].
  assert (inject_Z N + 1 <= inject_Z L)%Q.
  { change 1%Q with (inject_Z 1). rewrite <- inject_Z_plus, <- Zle_Qle. lia. }
  lra.
Qed.

Lemma nearest_even_le (N U : Z) (s : Q) :
  nearest_even N s -> (s <= inject_Z U)%Q -> N <= U.
Proof.
  intros [[_ Up] _] H.
  destruct (Z.le_gt_cases N U) as [G | G]; [exact G | exfalso].
  assert (inject_Z U + 1 <= inject_Z N)%Q.
  { change 1%Q with (inject_Z 1). rewrite <- inject_Z_plus, <- Zle_Qle. lia. }
  lra.
Qed.

Lemma inject_Z_pos (z : Z) : 0 < z -> (0 < inject_Z z)%Q.
Proof. intros H. change 0%Q with (inject_Z 0). now rewrite <- Zlt_Qlt. Qed.

Lemma pow2_inv (k : Z) : (pow2 k * pow2 (- k) == 1)%Q.
Proof. rewrite <- pow2_add. now replace (k + - k) with 0 by lia. Qed.

Lemma round_quotient_spec (m b : Z) :
  0 < m -> 0 < b ->
  exists N : Z,
    nearest_even N (inject_Z m / inject_Z b / pow2 (quantum m b)) /\
    (round_quotient m b == inject_Z N * pow2 (quantum m b))%Q.
Proof.
  intros Hm Hb. unfold round_quotient.
  destruct (Z.eqb_spec m 0) as [? | _]; [lia |].
  set (k := quantum m b).
  pose proof (inject_Z_pos b Hb) as Hbq. pose proof (pow2_pos k) as Pk.
  destruct (Z.leb_spec 0 k) as [Hk | Hk].
  - assert (Hp : 0 < 2 ^ k) by (apply Z.pow_pos_nonneg; lia).
    exists (round_half_even m (b * 2 ^ k)). split.
    + apply (nearest_even_proper _ (inject_Z m / inject_Z (b * 2 ^ k))).
      * rewrite inject_Z_mult, <- (pow2_nonneg k Hk). field. split; lra.
      * apply round_half_even_nearest. lia.
    + rewrite inject_Z_mult, <- (pow2_nonneg k Hk). reflexivity.
  - assert (Hp : 0 < 2 ^ (- k)) by (apply Z.pow_pos_nonneg; lia).
    exists (round_half_even (m * 2 ^ (- k)) b). split.
    + apply (nearest_even_proper _ (inject_Z (m * 2 ^ (- k)) / inject_Z b)).
      * rewrite inject_Z_mult, <- (pow2_nonneg (- k)) by lia.
        pose proof (pow2_inv k) as E. pose proof (pow2_pos (- k)) as Pn.
        setoid_replace (pow2 (- k)) with (/ pow2 k)%Q.
        -- field. split; lra.
        -- apply (proj1 (Qmult_inj_r _ _ (pow2 k) ltac:(lra))).
           rewrite (Qmult_comm (pow2 (- k))), E. field. lra.
      * apply round_half_even_nearest. exact Hb.
    + rewrite Qred_correct, (pow2_neg k) by lia.
      unfold Qeq, Qmult. cbn [Qnum Qden inject_Z]. 
      rewrite Pos.mul_1_l. lia.
Qed.

Lemma pow2_le_inv (k j : Z) : (pow2 k < pow2 j)%Q -> k < j.
Proof.
  intros H. destruct (Z.lt_ge_cases k j) as [L | G]; [exact L | exfalso].
  pose proof (pow2_le j k ltac:(lia)). lra.
Qed.

Lemma exponent_mono (m1 b1 m2 b2 : Z) :
  0 < m1 -> 0 < b1 -> 0 < m2 -> 0 < b2 ->
  m1 * b2 <= m2 * b1 -> exponent m1 b1 <= exponent m2 b2.
Proof.
  intros Hm1 Hb1 Hm2 Hb2 Hle.
  destruct (exponent_spec m1 b1 Hm1 Hb1) as [L1 _].
  destruct (exponent_spec m2 b2 Hm2 Hb2) as [_ U2].
  assert (Hq : (inject_Z m1 * inject_Z b2 <= inject_Z m2 * inject_Z b1)%Q)
    by (rewrite <- !inject_Z_mult, <- Zle_Qle; exact Hle).
  pose proof (inject_Z_pos b1 Hb1) as B1. pose proof (inject_Z_pos b2 Hb2) as B2.
  assert (Hlt : (pow2 (exponent m1 b1) < pow2 (exponent m2 b2 + 1))%Q).
  { pose proof (pow2_pos (exponent m1 b1)). pose proof (pow2_pos (exponent m2 b2 + 1)).
    assert (S1 : (pow2 (exponent m1 b1) * inject_Z b1 * inject_Z b2
                  <= inject_Z m1 * inject_Z b2)%Q) by nra.
    assert (S2 : (inject_Z m2 * inject_Z b1
                  < pow2 (exponent m2 b2 + 1) * inject_Z b2 * inject_Z b1)%Q) by nra.
    assert (S3 : (pow2 (exponent m1 b1) * (inject_Z b1 * inject_Z b2)
                  < pow2 (exponent m2 b2 + 1) * (inject_Z b1 * inject_Z b2))%Q) by lra.
    assert (B12 : (0 < inject_Z b1 * inject_Z b2)%Q) by nra.
    now rewrite (Qmult_lt_r _ _ _ B12) in S3. }
  apply pow2_le_inv in Hlt. lia.
Qed.

Lemma quantum_mono (m1 b1 m2 b2 : Z) :
  0 < m1 -> 0 < b1 -> 0 < m2 -> 0 < b2 ->
  m1 * b2 <= m2 * b1 -> quantum m1 b1 <= quantum m2 b2.
Proof.
  intros. unfold quantum.
  pose proof (exponent_mono m1 b1 m2 b2). lia.
Qed.

(** The scaled quotient lies in [1, 2) times [2**52] when the quantum is
    that of the exponent, and below [2**53] in any case. *)
Lemma scaled_bounds (m b : Z) :
  0 < m -> 0 < b ->
  (0 < inject_Z m / inject_Z b / pow2 (quantum m b) /\
   inject_Z m / inject_Z b / pow2 (quantum m b) < inject_Z (2 ^ 53) /\
   (quantum m b = (exponent m b - 52)%Z ->
    inject_Z (2 ^ 52) <= inject_Z m / inject_Z b / pow2 (quantum m b)))%Q.
Proof.
  intros Hm Hb.
  destruct (exponent_spec m b Hm Hb) as [L U].
  pose proof (inject_Z_pos b Hb) as B. pose proof (inject_Z_pos m Hm) as M.
  pose proof (pow2_pos (quantum m b)) as P.
  set (k := quantum m b) in *.
  assert (Bk : (0 < inject_Z b * pow2 k)%Q) by nra.
  assert (Ex : (inject_Z m / inject_Z b / pow2 k == inject_Z m / (inject_Z b * pow2 k))%Q)
    by (field; split; lra).
  rewrite Ex. split; [| split].
  - apply Qlt_shift_div_l; [exact Bk | lra].
  - apply Qlt_shift_div_r; [exact Bk |].
    assert (Hk : exponent m b + 1 <= k + 53) by (unfold k, quantum; lia).
    pose proof (pow2_le _ _ Hk) as Hp. rewrite (pow2_add k 53) in Hp.
    rewrite (pow2_nonneg 53) in Hp by lia. nra.
  - intros Hk. apply Qle_shift_div_l; [exact Bk |].
    assert (Hp : (pow2 (exponent m b) == pow2 k * inject_Z (2 ^ 52))%Q).
    { rewrite <- (pow2_nonneg 52) by lia. rewrite <- pow2_add. now replace (k + 52) with (exponent m b) by lia. }
    rewrite Hp in L. nra.
Qed.

Lemma round_quotient_nonneg (m b : Z) :
  0 <= m -> 0 < b -> (0 <= round_quotient m b)%Q.
Proof.
  intros Hm Hb. destruct (Z.eq_dec m 0) as [-> | Hn]; [discriminate |].
  destruct (round_quotient_spec m b ltac:(lia) Hb) as (N & HN & ->).
  destruct (scaled_bounds m b ltac:(lia) Hb) as (Spos & _).
  pose proof (nearest_even_ge N 0 _ HN ltac:(change (inject_Z 0) with 0%Q; lra)) as H0.
  pose proof (pow2_pos (quantum m b)).
  assert (0 <= inject_Z N)%Q by (change 0%Q with (inject_Z 0); now rewrite <- Zle_Qle).
  nra.
Qed.

Lemma round_quotient_mono (m1 b1 m2 b2 : Z) :
  0 <= m1 -> 0 < b1 -> 0 <= m2 -> 0 < b2 ->
  m1 * b2 <= m2 * b1 -> (round_quotient m1 b1 <= round_quotient m2 b2)%Q.
Proof.
  intros Hm1 Hb1 Hm2 Hb2 Hle.
  destruct (Z.eq_dec m1 0) as [-> | Hn1].
  { change (round_quotient 0 b1) with (0 # 1). now apply round_quotient_nonneg. }
  assert (Hp1 : 0 < m1) by lia. assert (Hp2 : 0 < m2) by nia.
  destruct (round_quotient_spec m1 b1 Hp1 Hb1) as (N1 & HN1 & ->).
  destruct (round_quotient_spec m2 b2 Hp2 Hb2) as (N2 & HN2 & ->).
  pose proof (quantum_mono m1 b1 m2 b2 Hp1 Hb1 Hp2 Hb2 Hle) as Hk.
  destruct (scaled_bounds m1 b1 Hp1 Hb1) as (S1pos & S1up & _).
  destruct (scaled_bounds m2 b2 Hp2 Hb2) as (S2pos & _ & S2lo).
  pose proof (pow2_pos (quantum m1 b1)) as P1. pose proof (pow2_pos (quantum m2 b2)) as P2.
  pose proof (inject_Z_pos b1 Hb1) as B1. pose proof (inject_Z_pos b2 Hb2) as B2.
  destruct (Z.eq_dec (quantum m1 b1) (quantum m2 b2)) as [E | Hne].
  - rewrite <- E in *.
    assert (HN : N1 <= N2).
    { apply (nearest_even_mono N1 N2 _ _ HN1 HN2).
      apply Qmult_le_compat_r; [| apply Qlt_le_weak, Qinv_lt_0_compat; exact P1].
      apply Qle_shift_div_l; [exact B2 |].
      assert (Eq1 : (inject_Z m1 / inject_Z b1 * inject_Z b2
                     == inject_Z m1 * inject_Z b2 / inject_Z b1)%Q) by (field; lra).
      rewrite Eq1. apply Qle_shift_div_r; [exact B1 |].
      rewrite <- !inject_Z_mult, <- Zle_Qle. exact Hle. }
    apply Qmult_le_compat_r; [now rewrite <- Zle_Qle | now apply Qlt_le_weak].
  - assert (Hlt : quantum m1 b1 < quantum m2 b2) by lia.
    assert (Hnorm : quantum m2 b2 = exponent m2 b2 - 52) by (unfold quantum in *; lia).
    specialize (S2lo Hnorm).
    assert (H1 : N1 <= 2 ^ 53) by (apply (nearest_even_le N1 _ _ HN1); lra).
    assert (H2 : 2 ^ 52 <= N2) by (apply (nearest_even_ge N2 _ _ HN2); lra).
    rewrite Zle_Qle in H1, H2.
    pose proof (pow2_lt _ _ Hlt) as Hp.
    change (inject_Z (2 ^ 53)) with (2 * inject_Z (2 ^ 52))%Q in H1.
    assert (0 < inject_Z (2 ^ 52))%Q by reflexivity.
    apply Qle_trans with (2 * inject_Z (2 ^ 52) * pow2 (quantum m1 b1))%Q; [nra |].
    apply Qle_trans with (inject_Z (2 ^ 52) * pow2 (quantum m2 b2))%Q; nra.
Qed.

(** Below [2**51] the quotient is a normal double: rounding moves it by
    at most one part in [2**53]. *)
Lemma round_quotient_error (m b : Z) :
  0 < m -> 0 < b < 2 ^ 51 ->
  ((1 - (1 # 9007199254740992)) * inject_Z m <= round_quotient m b * inject_Z b /\
   round_quotient m b * inject_Z b <= (1 + (1 # 9007199254740992)) * inject_Z m)%Q.
Proof.
  intros Hm [Hb Hb51].
  destruct (exponent_spec m b Hm Hb) as [L U].
  pose proof (inject_Z_pos b Hb) as B. pose proof (inject_Z_pos m Hm) as M.
  assert (He : -51 <= exponent m b).
  { assert (H1 : (pow2 (-51) * inject_Z b < 1)%Q).
    { assert (inject_Z b < inject_Z (2 ^ 51))%Q by now rewrite <- Zlt_Qlt.
      assert (E : (pow2 (-51) * inject_Z (2 ^ 51) == 1)%Q) by reflexivity.
      assert (0 < pow2 (-51))%Q by apply pow2_pos. nra. }
    assert (H2 : (1 <= inject_Z m)%Q) by (change 1%Q with (inject_Z 1); rewrite <- Zle_Qle; lia).
    assert (H3 : (pow2 (-51) < pow2 (exponent m b + 1))%Q).
    { assert (S : (pow2 (-51) * inject_Z b < pow2 (exponent m b + 1) * inject_Z b)%Q) by lra.
      now rewrite (Qmult_lt_r _ _ _ B) in S. }
    apply pow2_le_inv in H3. lia. }
  assert (Hk : quantum m b = exponent m b - 52) by (unfold quantum; lia).
  destruct (round_quotient_spec m b Hm Hb) as (N & [[Lo Up] _] & ->).
  rewrite Hk in *. set (e := exponent m b) in *.
  pose proof (pow2_pos (e - 52)) as P.
  assert (EP : (pow2 e == pow2 (e - 52) * inject_Z (2 ^ 52))%Q).
  { rewrite <- (pow2_nonneg 52) by lia. rewrite <- pow2_add. now replace (e - 52 + 52) with e by lia. }
  assert (Es : (inject_Z m / inject_Z b / pow2 (e - 52) * (pow2 (e - 52) * inject_Z b)
                == inject_Z m)%Q) by (field; split; lra).
  set (s := (inject_Z m / inject_Z b / pow2 (e - 52))%Q) in *.
  set (Pb := (pow2 (e - 52) * inject_Z b)%Q) in *.
  assert (HPb : (0 < Pb)%Q) by (unfold Pb; nra).
  assert (HPb2 : (Pb * inject_Z (2 ^ 52) <= inject_Z m)%Q).
  { unfold Pb. rewrite EP in L. lra. }
  assert (ER : (inject_Z N * pow2 (e - 52) * inject_Z b == inject_Z N * Pb)%Q)
    by (unfold Pb; ring).
  rewrite ER.
  assert (C52 : (inject_Z (2 ^ 52) == 4503599627370496)%Q) by reflexivity.
  rewrite C52 in HPb2.
  assert (T1 : ((s - (1 # 2)) * Pb <= inject_Z N * Pb)%Q)
    by (apply Qmult_le_compat_r; lra).
  assert (T2 : (inject_Z N * Pb <= (s + (1 # 2)) * Pb)%Q)
    by (apply Qmult_le_compat_r; lra).
  clearbody s Pb. split; lra.
Qed.

Lemma round_quotient_separates (m1 b1 m2 b2 : Z) :
  0 < m1 -> 0 < b1 < 2 ^ 51 -> 0 < m2 -> 0 < b2 < 2 ^ 51 ->
  m2 * b1 < 2 ^ 51 ->
  m1 * b2 < m2 * b1 -> (round_quotient m1 b1 < round_quotient m2 b2)%Q.
Proof.
  intros Hm1 Hb1 Hm2 Hb2 Hbound Hlt.
  destruct (round_quotient_error m1 b1 Hm1 Hb1) as [_ U1].
  destruct (round_quotient_error m2 b2 Hm2 Hb2) as [L2 _].
  pose proof (inject_Z_pos b1 (proj1 Hb1)) as B1.
  pose proof (inject_Z_pos b2 (proj1 Hb2)) as B2.
  assert (HA : (inject_Z m1 * inject_Z b2 + 1 <= inject_Z m2 * inject_Z b1)%Q).
  { rewrite <- !inject_Z_mult. change 1%Q with (inject_Z 1).
    rewrite <- inject_Z_plus, <- Zle_Qle. lia. }
  assert (HB : (inject_Z m2 * inject_Z b1 <= inject_Z (2 ^ 51))%Q).
  { rewrite <- !inject_Z_mult, <- Zle_Qle. lia. }
  assert (C51 : (inject_Z (2 ^ 51) == 2251799813685248)%Q) by reflexivity.
  rewrite C51 in HB.
  assert (B12 : (0 < inject_Z b1 * inject_Z b2)%Q) by nra.
  apply (proj1 (Qmult_lt_r _ _ _ B12)).
  set (R1 := round_quotient m1 b1) in *. set (R2 := round_quotient m2 b2) in *.
  assert (S1 : (R1 * (inject_Z b1 * inject_Z b2)
                <= (1 + (1 # 9007199254740992)) * (inject_Z m1 * inject_Z b2))%Q) by nra.
  assert (S2 : ((1 - (1 # 9007199254740992)) * (inject_Z m2 * inject_Z b1)
                <= R2 * (inject_Z b1 * inject_Z b2))%Q) by nra.
  set (A := (inject_Z m1 * inject_Z b2)%Q) in *.
  set (B := (inject_Z m2 * inject_Z b1)%Q) in *.
  clearbody R1 R2 A B. lra.
Qed.

Lemma round_quotient_pos (m b : Z) :
  0 < m -> 0 < b < 2 ^ 51 -> (0 < round_quotient m b)%Q.
Proof.
  intros Hm Hb. destruct (round_quotient_error m b Hm Hb) as [L _].
  pose proof (inject_Z_pos b (proj1 Hb)) as B. pose proof (inject_Z_pos m Hm) as M.
  nra.
Qed.

(** [Binary64.truediv] by the sign of the dividend, for a positive
    divisor. *)
Lemma truediv_sign (a b : Z) :
  0 < b ->
  truediv a b = if a <? 0 then Qopp (round_quotient (- a) b) else round_quotient a b.
Proof.
  intros Hb. unfold truediv. rewrite (Z.abs_eq b) by lia.
  rewrite (Z.sgn_pos b Hb), Z.mul_1_r.
  destruct (Z.ltb_spec a 0) as [Ha | Ha].
  - rewrite (Z.sgn_neg a Ha), (Z.abs_neq a) by lia. reflexivity.
  - rewrite (Z.abs_eq a Ha).
    destruct (Z.ltb_spec (Z.sgn a) 0) as [C | _]; [| reflexivity].
    pose proof (Z.sgn_nonneg a). lia.
Qed.

Lemma truediv_mono (a b c d : Z) :
  0 < b -> 0 < d -> a * d <= c * b -> (truediv a b <= truediv c d)%Q.
Proof.
  intros Hb Hd Hle. rewrite !truediv_sign by assumption.
  destruct (Z.ltb_spec a 0) as [Ha | Ha]; destruct (Z.ltb_spec c 0) as [Hc | Hc].
  - apply Qopp_le_compat. apply round_quotient_mono; lia.
  - pose proof (round_quotient_nonneg (- a) b ltac:(lia) Hb).
    pose proof (round_quotient_nonneg c d Hc Hd). lra.
  - exfalso. nia.
  - apply round_quotient_mono; lia.
Qed.

(** Division rounded to the nearest double keeps the order of the exact
    quotients up to ties and separates quotients whose cross products are
    below [2**51]. *)
Lemma Binary64_order_laws : @PyFloatOrder Q Binary64.float.
Proof.
  constructor; cbn [int_truediv fgtb Binary64.float].
  - intros a b c d Hb Hd _ _ H. unfold QFloat.gtb in H.
    apply negb_true_iff in H.
    destruct (Z.lt_ge_cases (c * b) (a * d)) as [L | G]; [exact L | exfalso].
    pose proof (truediv_mono a b c d Hb Hd ltac:(lia)) as M.
    apply Qle_bool_iff in M. congruence.
  - intros a b c d Hb Hd Ha Hc Hlt. unfold QFloat.gtb.
    apply negb_true_iff. apply not_true_is_false. intros C.
    apply Qle_bool_iff in C. revert C. apply Qlt_not_le.
    rewrite !truediv_sign by lia.
    destruct (Z.ltb_spec a 0) as [Ha0 | Ha0]; destruct (Z.ltb_spec c 0) as [Hc0 | Hc0].
    + apply Qopp_lt_compat.
      apply round_quotient_separates; lia.
    + exfalso. nia.
    + pose proof (round_quotient_pos (- c) d ltac:(lia) Hd).
      pose proof (round_quotient_nonneg a b Ha0 ltac:(lia)). lra.
    + assert (0 < a) by nia.
      destruct (Z.eq_dec c 0) as [-> | Hn].
      * change (round_quotient 0 d) with (0 # 1).
        apply round_quotient_pos; lia.
      * apply round_quotient_separates; lia.
Qed.

End Binary64Facts.

(* ===================================================================== *)
(** * The script on concrete inputs *)
(* ===================================================================== *)

Lemma QFloat_eq_laws : PyFloatEq Q.
Proof.
  constructor; cbn.
  - exact Qeq_bool_refl.
  - intros x y.
    destruct (Qeq_bool x y) eqn:E1, (Qeq_bool y x) eqn:E2; try reflexivity.
    + apply Qeq_bool_sym in E1. congruence.
    + apply Qeq_bool_sym in E2. congruence.
  - exact Qeq_bool_trans.
Qed.

Lemma QFloat_gtb_truediv (a b c d : Z) :
  0 < b -> 0 < d ->
  QFloat.gtb (QFloat.truediv a b) (QFloat.truediv c d) = (c * b <? a * d).
Proof.
  intros Hb Hd. unfold QFloat.gtb, QFloat.truediv.
  destruct (Z.ltb_spec 0 b) as [_ | ?]; [| lia].
  destruct (Z.ltb_spec 0 d) as [_ | ?]; [| lia].
  unfold Qle_bool. cbn [Qnum Qden]. rewrite !Z2Pos.id by assumption.
  now rewrite Z.ltb_antisym.
Qed.

Lemma QFloat_order_laws : PyFloatOrder Q.
Proof.
  constructor; cbn.
  - intros a b c d Hb Hd _ _ H. rewrite QFloat_gtb_truediv in H by assumption.
    now apply Z.ltb_lt.
  - intros a b c d Hb Hd _ _ H. rewrite QFloat_gtb_truediv by lia.
    now apply Z.ltb_lt.
Qed.

Import Scenario.

(** ** Runs on concrete inputs *)

Example repeated_points_averaged :
  (d <- parse_lines repeated_log ;; averageZOffset d)
  = Ok ([0 # 1; 1 # 1], [0 # 1; 0 # 1], [2 # 1; 2 # 1]).
Proof. vm_compute. reflexivity. Qed.

Example select_default_budget :
  selectMeshInterval (F := Q) 0 200 0 100 441 = Ok (29, 15).
Proof. vm_compute. reflexivity. Qed.

Example select_small_budget :
  selectMeshInterval (F := Q) 0 200 0 100 3 = Ok (2, 2).
Proof. vm_compute. reflexivity. Qed.

Example corner_run :
  run corner_world (main corner_args)
  = ([ReadLines "meshbedprobe.log";
      RbfFit corner_x corner_y corner_z script_kwargs;
      Now "%Y-%m-%d %H:%M";
      Print (unlines ["RepRapFirmware height map file v2 generated at 2020-01-01 00:00";
                      "xmin,xmax,ymin,ymax,radius,xspacing,yspacing,xnum,ynum";
                      "0,10,0,10,-1.0,10.0,10.0,2,2";
                      "0.1, 0.2";
                      "0.15, 0.25"]);
      WriteFile "heightmap.csv"
        (unlines ["RepRapFirmware height map file v2 generated at 2020-01-01 00:00";
                  "xmin,xmax,ymin,ymax,radius,xspacing,yspacing,xnum,ynum";
                  "0,10,0,10,-1.0,10.0,10.0,2,2";
                  "0.1, 0.2";
                  "0.15, 0.25"]);
      Chmod "heightmap.csv" 511],
     Ok tt).
Proof. vm_compute. reflexivity. Qed.

(** Quotients as doubles: [1 / 3], a tie that rounds to even, and a
    subnormal quotient. *)
Example rounded_quotients :
  Binary64.truediv 1 3 = 6004799503160661 # 18014398509481984 /\
  Binary64.truediv (2 ^ 53 + 1) 2 = Binary64.truediv (2 ^ 53) 2 /\
  Binary64.truediv 1 (10 ^ 400) = 0 # 1 /\
  Binary64.truediv (-1) (2 ^ 1074) = Qopp (1 # Z.to_pos (2 ^ 1074)).
Proof. repeat split; vm_compute; reflexivity. Qed.

(** ** The general theorems at concrete inputs *)

Lemma aggregation_correct_witness :
  exists (d : dict) (xs ys zs : list Q),
    parse_lines repeated_log = Ok d /\
    averageZOffset d = Ok (xs, ys, zs) /\
    combine xs ys = first_seen (map sample_xy repeated_samples) /\
    zs = map (fun k => mean (observations k repeated_samples)) (combine xs ys).
Proof.
  destruct (@aggregation_correct Q _ QFloat_eq_laws repeated_samples)
    as (d & xs & ys & zs & _ & H1 & H2 & _ & _ & H5 & _ & _ & H8 & _).
  exists d, xs, ys, zs. repeat split; try assumption.
  apply H1. reflexivity.
Defined.

Lemma selectMeshInterval_counts_witness :
  4 <= 6 /\ in_double_range (100 - 0) /\ in_double_range (100 - 0) /\
  exists xCount yCount : Z,
    selectMeshInterval (F := Q) 0 100 0 100 6 = Ok (xCount, yCount) /\
    2 <= xCount /\ 2 <= yCount /\ xCount * yCount <= 6.
Proof.
  split; [lia |]. split; [vm_compute; reflexivity |].
  split; [vm_compute; reflexivity |].
  apply (proj1 (proj2 (selectMeshInterval_counts (F := Q) 0 100 0 100 6)));
    [lia | vm_compute; reflexivity | vm_compute; reflexivity].
Defined.

Lemma selectMeshInterval_tie_break_witness :
  exactly_compared (100 - 0) (100 - 0) 6 /\
  @selectMeshInterval Q Binary64.float 0 100 0 100 6
    = Ok (greedy_counts (100 - 0) (100 - 0) 6) /\
  greedy_counts (100 - 0) (100 - 0) 6 = (2, 3).
Proof.
  assert (H : exactly_compared (100 - 0) (100 - 0) 6)
    by (repeat split; vm_compute; reflexivity).
  split; [exact H |]. split; [| vm_compute; reflexivity].
  exact (proj1 (proj2 (proj2 (proj2
           (@selectMeshInterval_tie_break Q Binary64.float
              Binary64Facts.Binary64_order_laws))))
           0 100 0 100 6 H).
Defined.

Lemma selectMeshInterval_terminates_witness :
  2 <= var_u (mk_vars 2 2 2 2) /\ 2 <= var_v (mk_vars 2 2 2 2) /\
  (loop_body (F := Q) (100 - 0) (100 - 0) (mk_vars 2 2 2 2) = Raise OverflowError \/
   exists s' : vars,
     loop_body (F := Q) (100 - 0) (100 - 0) (mk_vars 2 2 2 2) = Ok s' /\
     var_u s' + var_v s' = 2 + 2 + 1 /\
     2 * 2 < var_u s' * var_v s').
Proof.
  split; [cbn; lia |]. split; [cbn; lia |].
  apply (proj1 (@selectMeshInterval_terminates Q _ 0 100 0 100 6) (mk_vars 2 2 2 2));
    cbn; lia.
Defined.

Lemma heightmap_file_format_witness :
  2 <= xPoints corner_globals /\ 2 <= yPoints corner_globals /\
  w_rbf corner_world corner_x corner_y corner_z script_kwargs = Ok corner_surface /\
  extents_in_range corner_globals /\
  spacings_in_range corner_globals /\ settings_printable corner_globals /\
  exists (text : string) (rest : list call) (outcome : res unit),
    text = unlines (header_text "2020-01-01 00:00" :: columns_text
                      :: settings_text corner_globals
                      :: map row_text (surface_mesh corner_globals corner_surface)) /\
    run corner_world (interpolate_and_write corner_globals (corner_x, corner_y, corner_z))
      = (RbfFit corner_x corner_y corner_z script_kwargs :: Now "%Y-%m-%d %H:%M"
           :: Print text :: WriteFile "heightmap.csv" text :: rest, outcome).
Proof.
  assert (He : extents_in_range corner_globals)
    by (repeat split; vm_compute; reflexivity).
  assert (Hr : spacings_in_range corner_globals) by (split; vm_compute; reflexivity).
  assert (Hp : settings_printable corner_globals)
    by (repeat split; vm_compute; discriminate).
  split; [cbn; lia |]. split; [cbn; lia |]. split; [reflexivity |].
  split; [exact He |]. split; [exact Hr |]. split; [exact Hp |].
  apply (proj2 (proj2 (proj2 (heightmap_file_format corner_world corner_globals
           corner_x corner_y corner_z corner_surface
           ltac:(cbn; lia) ltac:(cbn; lia) eq_refl))) He Hr Hp).
Defined.

Lemma writeHeightmap_unguarded_division_witness :
  w_readlines corner_world "meshbedprobe.log" = Ok corner_log /\
  parse_lines corner_log = Ok (grouping (combine (combine corner_x corner_y) corner_z)) /\
  averageZOffset (grouping (combine (combine corner_x corner_y) corner_z))
    = Ok (corner_x, corner_y, corner_z) /\
  run corner_world (main one_by_five_args)
    = ([ReadLines "meshbedprobe.log"; RbfFit corner_x corner_y corner_z script_kwargs;
        Now "%Y-%m-%d %H:%M"],
       Raise ZeroDivisionError).
Proof.
  split; [reflexivity |]. split; [reflexivity |]. split; [reflexivity |].
  apply (proj2 (proj2 (proj2 (proj2 (@writeHeightmap_unguarded_division Q _))))
           corner_world corner_log
           (grouping (combine (combine corner_x corner_y) corner_z))
           corner_x corner_y corner_z corner_surface);
    reflexivity.
Defined.

Lemma upsampleBedMesh_fits_every_point_set_witness :
  w_rbf failing_world [] [] [] script_kwargs = Raise ValueError /\
  run failing_world (upsampleBedMesh corner_globals ([], [], []))
    = ([RbfFit [] [] [] script_kwargs], Raise ValueError).
Proof.
  split; [reflexivity |].
  apply (proj2 (proj2 (upsampleBedMesh_fits_every_point_set
                         failing_world corner_globals [] [] []))).
  reflexivity.
Defined.

(** ** Where the specification and the script differ *)

(** C1 (as stated) fails: with no point at all, and with a single one,
    the interpolation step does not raise on its own but calls the [Rbf]
    constructor. *)
Lemma degenerate_points_reach_rbf :
  ~ raises_at_once (upsampleBedMesh corner_globals (@nil Q, @nil Q, @nil Q)) /\
  first_call (upsampleBedMesh corner_globals (@nil Q, @nil Q, @nil Q))
    = Some (RbfFit [] [] [] script_kwargs) /\
  ~ raises_at_once (upsampleBedMesh corner_globals ([0 # 1], [0 # 1], [1 # 1])) /\
  first_call (upsampleBedMesh corner_globals ([0 # 1], [0 # 1], [1 # 1]))
    = Some (RbfFit [0 # 1] [0 # 1] [1 # 1] script_kwargs).
Proof.
  repeat split; try reflexivity; intros [e He]; discriminate He.
Qed.

(** C6 (as stated) fails: the call of [Rbf] for the four corner samples
    carries no shape parameter. *)
Lemma corner_fit_without_epsilon :
  option_map passes_epsilon
    (first_call (upsampleBedMesh corner_globals (corner_x, corner_y, corner_z)))
  = Some false.
Proof. reflexivity. Qed.

(** C4 (as stated) fails: with an x extent of [10**400] and a budget of 4
    the first pass divides the side length by 2, which is beyond the range
    of a double, and [selectMeshInterval] returns no counts. *)
Lemma huge_extent_overflows :
  selectMeshInterval (F := Q) 0 (10 ^ 400) 0 1 4 = Raise OverflowError.
Proof. vm_compute. reflexivity. Qed.

(** C5 (as stated) fails.  With side lengths of [2**53 + 1] and [2**53]
    the spacing of x is the larger one at counts (2, 2), but the two
    quotients round to the same double: the step gives the next point to
    y, and with a budget of 6 the selector returns (2, 3) where the greedy
    walk on exact spacings ends at (3, 2).  And with side lengths of
    [10**400] and 1 the step raises instead of adding a point to x. *)
Lemma larger_spacing_not_favoured :
  (spacing (2 ^ 53) 2 < spacing (2 ^ 53 + 1) 2)%Q /\
  @loop_body Q Binary64.float (2 ^ 53 + 1) (2 ^ 53) (mk_vars 2 2 2 2)
    = Ok (mk_vars 2 3 2 2) /\
  @selectMeshInterval Q Binary64.float 0 (2 ^ 53 + 1) 0 (2 ^ 53) 6 = Ok (2, 3) /\
  greedy_counts (2 ^ 53 + 1) (2 ^ 53) 6 = (3, 2) /\
  (spacing 1 2 < spacing (10 ^ 400) 2)%Q /\
  loop_body (F := Q) (10 ^ 400) 1 (mk_vars 2 2 2 2) = Raise OverflowError.
Proof. repeat split; vm_compute; reflexivity. Qed.

(** C10 (as stated) fails: the accepted command line
    [-X 0:10 -Y 0:10 -P 0:3] sets [xPoints] to 0, below 2, and the text of
    the heightmap is defined all the same, with an x spacing of
    [10 / -1]. *)
Lemma zero_count_heightmap_defined :
  arguments_of (F := Q) zero_by_three_args = Ok zero_by_three_globals /\
  xPoints zero_by_three_globals < 2 /\
  heightmap_text (F := Q) zero_by_three_globals "2020-01-01 00:00" [[]; []; []]
  = Ok (unlines ["RepRapFirmware height map file v2 generated at 2020-01-01 00:00";
                 "xmin,xmax,ymin,ymax,radius,xspacing,yspacing,xnum,ynum";
                 "0,10,0,10,-1.0,-10.0,5.0,0,3";
                 EmptyString; EmptyString; EmptyString]).
Proof. repeat split; vm_compute; reflexivity. Qed.

(** ** The further theorems at concrete inputs *)

Import Cases.

Lemma selectMeshInterval_exhausts_budget_witness :
  4 <= 6 /\ in_double_range (100 - 0) /\ in_double_range (100 - 0) /\
  exists xCount yCount : Z,
    selectMeshInterval (F := Q) 0 100 0 100 6 = Ok (xCount, yCount) /\
    (6 < (xCount + 1) * yCount \/ 6 < xCount * (yCount + 1)).
Proof.
  split; [lia |]. split; [vm_compute; reflexivity |].
  split; [vm_compute; reflexivity |].
  apply (selectMeshInterval_exhausts_budget (F := Q) 0 100 0 100 6);
    [lia | vm_compute; reflexivity | vm_compute; reflexivity].
Defined.

Lemma selectMeshInterval_monotone_witness :
  in_double_range (200 - 0) /\ in_double_range (100 - 0) /\ 6 <= 441 /\
  exists x1 y1 x2 y2 : Z,
    selectMeshInterval (F := Q) 0 200 0 100 6 = Ok (x1, y1) /\
    selectMeshInterval (F := Q) 0 200 0 100 441 = Ok (x2, y2) /\
    x1 <= x2 /\ y1 <= y2.
Proof.
  split; [vm_compute; reflexivity |]. split; [vm_compute; reflexivity |].
  split; [lia |].
  apply (selectMeshInterval_monotone (F := Q) 0 200 0 100 6 441);
    [vm_compute; reflexivity | vm_compute; reflexivity | lia].
Defined.

Lemma selectMeshInterval_square_bed_witness :
  0 < 100 /\ exactly_compared 100 100 441 /\
  exists xCount yCount : Z,
    selectMeshInterval (F := Q) 0 (0 + 100) 0 (0 + 100) 441 = Ok (xCount, yCount) /\
    (yCount = xCount \/ yCount = xCount + 1).
Proof.
  assert (H : exactly_compared 100 100 441) by (repeat split; vm_compute; reflexivity).
  split; [lia |]. split; [exact H |].
  apply (@selectMeshInterval_square_bed Q _ QFloat_order_laws 0 0 100 441);
    [lia | exact H].
Defined.

Lemma selectMeshInterval_flat_x_witness :
  5 <= 5 /\ 0 <= 10 /\ 4 <= 9 /\
  in_double_range (5 - 5) /\ in_double_range (10 - 0) /\
  exists yCount : Z,
    selectMeshInterval (F := Q) 5 5 0 10 9 = Ok (2, yCount) /\
    2 * yCount <= 9 < 2 * (yCount + 1).
Proof.
  split; [lia |]. split; [lia |]. split; [lia |].
  split; [vm_compute; reflexivity |]. split; [vm_compute; reflexivity |].
  apply (@selectMeshInterval_flat_x Q _ QFloat_order_laws 5 5 0 10 9);
    [lia | lia | lia | vm_compute; reflexivity | vm_compute; reflexivity].
Defined.

Lemma default_counts_are_safe_witness :
  num_points default_namespace = None /\
  exists g : globals,
    process_args (F := Q) default_namespace = Ok g /\
    selectMeshInterval (F := Q) (xMin g) (xMax g) (yMin g) (yMax g) 441
      = Ok (xPoints g, yPoints g) /\
    2 <= xPoints g /\ 2 <= yPoints g /\
    (max_points default_namespace < 4 \/
     xPoints g * yPoints g <= max_points default_namespace) /\
    forall (now : string) (mesh : grid),
      heightmap_text g now mesh <> Raise ZeroDivisionError.
Proof.
  split; [reflexivity |].
  eexists. split; [vm_compute; reflexivity |].
  apply (default_counts_are_safe (F := Q) default_namespace);
    [reflexivity | vm_compute; reflexivity].
Defined.

Lemma dsfPath_drive_and_sys_witness :
  startswith "heightmap.csv" "0:" = false /\
  startswith "heightmap.csv" "1:" = false /\
  dsfPath "0:heightmap.csv" true = dsfPath "heightmap.csv" true /\
  dsfPath "1:heightmap.csv" true = dsfPath "heightmap.csv" true.
Proof.
  split; [reflexivity |]. split; [reflexivity |].
  destruct (dsfPath_drive_and_sys "heightmap.csv" eq_refl eq_refl) as (H0 & H1 & _).
  split; assumption.
Defined.

Lemma bad_arguments_touch_nothing_witness :
  arguments_of (F := Q) word_args = Raise (SystemExit 2) /\
  run Scenario.corner_world (main word_args) = ([], Raise (SystemExit 2)).
Proof.
  split; [reflexivity |].
  apply (bad_arguments_touch_nothing Scenario.corner_world word_args (SystemExit 2)).
  reflexivity.
Defined.

Lemma upsampled_mesh_entries_witness :
  0 <= xPoints Scenario.corner_globals /\ 0 <= yPoints Scenario.corner_globals /\
  extents_in_range Scenario.corner_globals /\
  w_rbf Scenario.corner_world Scenario.corner_x Scenario.corner_y Scenario.corner_z
        script_kwargs = Ok Scenario.corner_surface /\
  exists mesh : grid,
    run Scenario.corner_world
        (upsampleBedMesh Scenario.corner_globals
           (Scenario.corner_x, Scenario.corner_y, Scenario.corner_z))
      = ([RbfFit Scenario.corner_x Scenario.corner_y Scenario.corner_z script_kwargs],
         Ok mesh) /\
    nth 1 (nth 0 mesh []) (0 # 1)
    = Scenario.corner_surface (linspace_at 0 10 2 1) (linspace_at 0 10 2 0).
Proof.
  assert (He : extents_in_range Scenario.corner_globals)
    by (repeat split; vm_compute; reflexivity).
  split; [cbn; lia |]. split; [cbn; lia |]. split; [exact He |].
  split; [reflexivity |].
  destruct (upsampled_mesh_entries Scenario.corner_world Scenario.corner_globals
              Scenario.corner_x Scenario.corner_y Scenario.corner_z
              Scenario.corner_surface)
    as (mesh & Hrun & _ & Hn & _); [cbn; lia | cbn; lia | exact He | reflexivity |].
  exists mesh. split; [exact Hrun |].
  apply (Hn 0%nat 1%nat (0 # 1)); cbn; lia.
Defined.


Lemma log_without_probe_lines_witness :
  Forall (fun line => probePointPattern_search line = None) quiet_log /\
  parse_lines (F := Q) quiet_log = Ok [] /\
  exists (rest : list call) (outcome : res unit),
    run (world_with_log quiet_log) (main Scenario.corner_args)
      = (ReadLines "meshbedprobe.log" :: RbfFit [] [] [] script_kwargs :: rest,
         outcome).
Proof.
  assert (H : Forall (fun line => probePointPattern_search line = None) quiet_log)
    by (repeat constructor).
  split; [exact H |].
  apply (log_without_probe_lines (world_with_log quiet_log) Scenario.corner_args
           Scenario.corner_globals quiet_log); [reflexivity | reflexivity | exact H].
Defined.

Lemma malformed_probe_line_raises_witness :
  probePointPattern_search "Mesh Point: X Y Z" = Some ("", "", "") /\
  float_of_string (F := Q) "" = None /\
  run (world_with_log broken_log) (main Scenario.corner_args)
    = ([ReadLines "meshbedprobe.log"], Raise ValueError).
Proof.
  split; [reflexivity |]. split; [reflexivity |].
  apply (malformed_probe_line_raises (world_with_log broken_log) Scenario.corner_args
           Scenario.corner_globals ["Mesh Point: X0 Y0 Z0.1"]
           ["Mesh Point: X10 Y0 Z0.2"] "Mesh Point: X Y Z" "" "" ""
           [((0 # 1, 0 # 1), [1 # 10])]);
    try reflexivity.
  left. reflexivity.
Defined.

Lemma successful_run_witness :
  arguments_of (F := Q) Scenario.corner_args = Ok Scenario.corner_globals /\
  extents_in_range Scenario.corner_globals /\
  spacings_in_range Scenario.corner_globals /\
  settings_printable Scenario.corner_globals /\
  probed_samples Scenario.corner_log
    = Ok (combine (combine Scenario.corner_x Scenario.corner_y) Scenario.corner_z) /\
  exists text : string,
    text = unlines (header_text "2020-01-01 00:00" :: columns_text
                      :: settings_text Scenario.corner_globals
                      :: map row_text (surface_mesh Scenario.corner_globals
                                         Scenario.corner_surface)) /\
    run Scenario.corner_world (main Scenario.corner_args)
      = ([ReadLines "meshbedprobe.log";
          RbfFit Scenario.corner_x Scenario.corner_y Scenario.corner_z script_kwargs;
          Now "%Y-%m-%d %H:%M";
          Print text;
          WriteFile "heightmap.csv" text;
          Chmod "heightmap.csv" 511],
         Ok tt).
Proof.
  assert (He : extents_in_range Scenario.corner_globals)
    by (repeat split; vm_compute; reflexivity).
  assert (Hr : spacings_in_range Scenario.corner_globals)
    by (split; vm_compute; reflexivity).
  assert (Hp : settings_printable Scenario.corner_globals)
    by (repeat split; vm_compute; discriminate).
  split; [reflexivity |]. split; [exact He |]. split; [exact Hr |]. split; [exact Hp |].
  split; [reflexivity |].
  apply (@successful_run Q _ QFloat_eq_laws Scenario.corner_world Scenario.corner_args
           Scenario.corner_globals Scenario.corner_log
           (combine (combine Scenario.corner_x Scenario.corner_y) Scenario.corner_z)
           Scenario.corner_surface);
    try reflexivity; try assumption; cbn; lia.
Defined.

Lemma pair_is_split_in_two_witness :
  is_colon_separated_pair "007:-5" = true /\
  Forall within_digit_limit (split ":" "007:-5") /\
  colonSeparatedNumbersArgType "007:-5" = Ok "007:-5" /\
  exists a b : Z,
    splitIntArgs "007:-5" = Ok [a; b] /\
    (l <- splitIntArgs "007:-5" ;; unpack2 l) = Ok (a, b).
Proof.
  assert (H : Forall within_digit_limit (split ":" "007:-5"))
    by (repeat constructor; vm_compute; discriminate).
  split; [reflexivity |]. split; [exact H |].
  destruct (pair_is_split_in_two "007:-5" eq_refl) as (Hty & Hok & _).
  split; [exact Hty | exact (Hok H)].
Defined.

Lemma splitIntArgs_of_str_witness :
  py_str_int (-10) = Ok "-10" /\ py_str_int 200 = Ok "200" /\
  is_colon_separated_pair "-10:200" = true /\
  splitIntArgs "-10:200" = Ok [-10; 200].
Proof.
  split; [reflexivity |]. split; [reflexivity |].
  exact (splitIntArgs_of_str (-10) 200 "-10" "200" eq_refl eq_refl).
Defined.

Lemma probe_line_fields_witness :
  capture_number "20.485" = ("20.485", EmptyString) /\
  capture_number "-13" = ("-13", EmptyString) /\
  capture_number "0.025" = ("0.025", EmptyString) /\
  stops_number newline = true /\
  probePointPattern_search
    ("Mesh Point: X" ++ "20.485" ++ " Y" ++ "-13" ++ " Z" ++ "0.025" ++ newline)
  = Some ("20.485", "-13", "0.025").
Proof.
  repeat (split; [reflexivity |]).
  apply (probe_line_fields "20.485" "-13" "0.025" newline); reflexivity.
Defined.

Lemma averageZOffset_defined_witness :
  Exists (fun e : coordinate * list Q => snd e = [])
         [((0 # 1, 0 # 1), [1 # 1]); ((1 # 1, 0 # 1), [])] /\
  averageZOffset [((0 # 1, 0 # 1), [1 # 1]); ((1 # 1, 0 # 1), [])]
    = Raise ZeroDivisionError.
Proof.
  assert (H : Exists (fun e : coordinate * list Q => snd e = [])
                     [((0 # 1, 0 # 1), [1 # 1]); ((1 # 1, 0 # 1), [])])
    by (right; left; reflexivity).
  split; [exact H |].
  exact (proj2 (averageZOffset_defined _) H).
Defined.

Lemma arguments_of_numbers_witness :
  printable 0 /\ printable 200 /\ printable (-5) /\ printable 1 /\ printable 441 /\
  arguments_of (F := Q)
    {| raw_x_extents := "0:200";
       raw_y_extents := "0:-5";
       raw_probe_log_file := None;
       raw_heightmap_file := Some "0:/sys/heightmap.csv";
       raw_num_points := Some "1:0";
       raw_max_points := Some "441";
       raw_dsf_path_mode := true |}
  = Ok {| xMin := 0; xMax := 200; yMin := 0; yMax := -5;
          xPoints := 1; yPoints := 0;
          maxSamplePoints := 441;
          isDsfPathMode := true;
          probeLogPath := "./sys/meshbedprobe.log";
          heightmapPath := "./sys/heightmap.csv" |}.
Proof.
  assert (P0 : printable 0) by (vm_compute; discriminate).
  assert (P200 : printable 200) by (vm_compute; discriminate).
  assert (Pm5 : printable (-5)) by (vm_compute; discriminate).
  assert (P1 : printable 1) by (vm_compute; discriminate).
  assert (P441 : printable 441) by (vm_compute; discriminate).
  repeat (split; [assumption |]).
  apply (arguments_of_numbers (F := Q) 0 200 0 (-5) 1 0 (Some 441)
           None (Some "0:/sys/heightmap.csv") true); try assumption.
  intros m E. injection E as <-. exact P441.
Defined.
